(** * go-skeleton project generator: a shallow embedding of [main.go]

    The generator asks a few questions on standard input, copies the
    [template] directory to a new project directory, rewrites the module
    path, prunes the files of the options that were not selected and
    writes the devcontainer files.

    Layout of this development:
    - [Strings]: the functions of Go's [strings] package that [main.go] calls;
    - [OS]: a file system (a finite map from paths to nodes), standard input
      delivered in chunks, buffered readers, and the functions of [os],
      [bufio] and [path/filepath] that [main.go] calls;
    - the functions of [main.go], under their own names;
    - the vocabulary of the specification, and a small project to run the
      model on;
    - the properties of the specification, numbered C1 to C10.

    Modelling decisions.
    - A Go string is its sequence of bytes ([string]).  [strings.ToLower]
      and [strings.TrimSpace] are written out for text made of ASCII bytes;
      on text holding a byte above 0x7f Go switches to its Unicode tables,
      which are left abstract in the class [Unicode].
    - A path is the list of its components from the file-system root;
      path strings are resolved lexically against the working directory
      (no symbolic links).  Permission bits are recorded, not enforced.
    - Text written to the terminal is not part of the state. *)

From Stdlib Require Import ZArith Ascii String.
From stdpp Require Import gmap strings list sorting.

(** ** Go's [strings] package *)

Module Strings.

(** What Go computes for text that is not pure ASCII. *)
Class Unicode := {
  (** [strings.Map(unicode.ToLower, s)] *)
  unicode_ToLower : string → string;
  (** [strings.TrimFunc(s, unicode.IsSpace)] *)
  unicode_TrimFunc : string → string;
  (** [strings.TrimRightFunc(s, unicode.IsSpace)] *)
  unicode_TrimRightFunc : string → string;
  (** [strings.Replace(s, "", new, -1)]: [new] before every rune and at the end *)
  unicode_ReplaceEmpty : string → string → string;
  (** [strings.Split(s, "")]: one piece per rune *)
  unicode_explode : string → list string;
}.

(** [c >= utf8.RuneSelf] *)
Definition is_high (c : ascii) : bool :=
  match c with Ascii _ _ _ _ _ _ _ b7 => b7 end.

Fixpoint isASCII (s : string) : bool :=
  match s with
  | "" => true
  | String c s' => negb (is_high c) && isASCII s'
  end.

Fixpoint smap (f : ascii → ascii) (s : string) : string :=
  match s with
  | "" => ""
  | String c s' => String (f c) (smap f s')
  end.

Definition is_upper (c : ascii) : bool :=
  let n := N_of_ascii c in ((65 <=? n) && (n <=? 90))%N.

(** ['A' <= c && c <= 'Z'] gives [c + 'a' - 'A'] *)
Definition lower_byte (c : ascii) : ascii :=
  if is_upper c then ascii_of_N (N_of_ascii c + 32) else c.

Definition ToLower `{Unicode} (s : string) : string :=
  if isASCII s then smap lower_byte s else unicode_ToLower s.

(** The table [asciiSpace]: tab, newline, vertical tab, form feed,
    carriage return and space. *)
Definition asciiSpace (c : ascii) : bool := Ascii.is_space c.

(** The second loop of [TrimSpace], on the reversed text: drop trailing
    white space, or hand over to the Unicode version at a high byte. *)
Fixpoint trim_right_rev `{Unicode} (r : string) : string :=
  match r with
  | "" => ""
  | String c r' =>
      if is_high c then unicode_TrimRightFunc (String.rev r)
      else if asciiSpace c then trim_right_rev r'
      else String.rev r
  end.

Fixpoint TrimSpace `{Unicode} (s : string) : string :=
  match s with
  | "" => ""
  | String c s' =>
      if is_high c then unicode_TrimFunc s
      else if asciiSpace c then TrimSpace s'
      else trim_right_rev (String.rev s)
  end.

Fixpoint sdrop (n : nat) (s : string) : string :=
  match n, s with
  | S k, String _ s' => sdrop k s'
  | _, _ => s
  end.

Definition HasPrefix (s p : string) : bool := String.prefix p s.
Global Arguments HasPrefix : simpl never.

Definition HasSuffix (s suffix : string) : bool :=
  String.prefix (String.rev suffix) (String.rev s).

(** [Contains s sub]: [sub] occurs somewhere in [s]. *)
Fixpoint Contains (s sub : string) : bool :=
  HasPrefix s sub ||
  match s with
  | "" => false
  | String _ s' => Contains s' sub
  end.

(** Left-to-right scan for a non-empty pattern: at an occurrence emit
    [new] and skip the pattern, otherwise copy one byte.  [skip] counts
    the bytes of the current occurrence still to pass over. *)
Fixpoint replace_scan (old new : string) (skip : nat) (s : string) : string :=
  match s with
  | "" => ""
  | String c s' =>
      match skip with
      | S k => replace_scan old new k s'
      | O =>
          if HasPrefix s old
          then new +:+ replace_scan old new (String.length old - 1) s'
          else String c (replace_scan old new 0 s')
      end
  end.

Definition ReplaceAll `{Unicode} (s old new : string) : string :=
  if decide (old = new) then s
  else match old with
       | "" => unicode_ReplaceEmpty s new
       | _ => replace_scan old new 0 s
       end.

(** [Split s sep] for a non-empty separator: the pieces between the
    occurrences of [sep], found left to right.  [cur] is the piece being
    read. *)
Fixpoint split_scan (sep : string) (skip : nat) (cur : string) (s : string)
    : list string :=
  match s with
  | "" => [cur]
  | String c s' =>
      match skip with
      | S k => split_scan sep k cur s'
      | O =>
          if HasPrefix s sep
          then cur :: split_scan sep (String.length sep - 1) "" s'
          else split_scan sep 0 (cur +:+ String c "") s'
      end
  end.

Definition Split `{Unicode} (s sep : string) : list string :=
  match sep with
  | "" => unicode_explode s
  | _ => split_scan sep 0 "" s
  end.

Definition Join (elems : list string) (sep : string) : string :=
  String.concat sep elems.

End Strings.

Export Strings.

(** ** The operating system: files, standard input, buffered readers *)

Module OS.

Abbreviation path := (list string).

Inductive node :=
  | File (mode : Z) (data : string)
  | Dir (mode : Z).

Inductive error :=
  | ENOENT | ENOTDIR | EISDIR | EEXIST | ENOTEMPTY
  (** [io.EOF] *)
  | EOF
  (** [filepath.Rel]: the target is not below the base *)
  | ErrRel
  (** [fmt.Errorf(msg + ": %w", err)] *)
  | Wrapped (msg : string) (err : error).

(** [stdin] lists what the successive [read] calls on standard input
    return, end of input after the last one; [readers] holds the buffer
    of every [bufio.Reader] made so far. *)
Record World := {
  fs : gmap path node;
  cwd : path;
  umask : Z;
  stdin : list string;
  readers : list string;
}.

Definition set_fs (f : gmap path node → gmap path node) (w : World) : World :=
  {| fs := f (fs w); cwd := cwd w; umask := umask w;
     stdin := stdin w; readers := readers w |}.

Definition set_input (chunks : list string) (bufs : list string) (w : World) : World :=
  {| fs := fs w; cwd := cwd w; umask := umask w;
     stdin := chunks; readers := bufs |}.

(** The program as a state transformer: Go's statements run in [IO]. *)
Definition IO (A : Type) : Type := World → A * World.

Global Instance IO_ret : MRet IO := λ A a w, (a, w).
Global Instance IO_bind : MBind IO := λ A B k m w, let '(a, w') := m w in k a w'.

(** [if err := step; err != nil { return wrap(err) }] followed by [k] *)
Definition check (step : IO (option error)) (wrap : error → error)
    (k : IO (option error)) : IO (option error) :=
  err ← step;
  match err with
  | Some e => mret (Some (wrap e))
  | None => k
  end.

(** A step that may exhaust its bound ([None]) followed by [k]. *)
Definition and_then {A B} (m : IO (option A)) (k : A → IO (option B))
    : IO (option B) :=
  r ← m;
  match r with
  | Some a => k a
  | None => mret None
  end.

Notation "x ←? m ; k" := (and_then m (λ x, k))
  (at level 20, m at level 100, k at level 200, only parsing).

(** *** Paths *)

Definition is_abs (name : string) : bool := HasPrefix name "/".

(** Lexical resolution of the components of a path string. *)
Definition step_component (acc : path) (c : string) : path :=
  if decide (c = "") then acc
  else if decide (c = ".") then acc
  else if decide (c = "..") then take (length acc - 1) acc
  else acc ++ [c].

Definition components (name : string) : list string := split_scan "/" 0 "" name.

(** The file a path string names; the empty string names none. *)
Definition resolve (w : World) (name : string) : option path :=
  if decide (name = "") then None
  else Some (foldl step_component (if is_abs name then [] else cwd w) (components name)).

(** [filepath.Join(base, "a/b")], resolved: the components [rel] below
    [base]; an empty [base] is dropped by [Join], which leaves a path
    relative to the working directory.  [rel] is made of proper names. *)
Definition Join (w : World) (base : string) (rel : path) : path :=
  match resolve w base with
  | Some p => p ++ rel
  | None => cwd w ++ rel
  end.

Definition parent (p : path) : path := take (length p - 1) p.

(** [strip base p]: [p] relative to [base]. *)
Fixpoint strip (base p : path) : option path :=
  match base, p with
  | [], _ => Some p
  | b :: base', c :: p' => if decide (b = c) then strip base' p' else None
  | _ :: _, [] => None
  end.

(** The text of a path, as [filepath.Walk] hands it to its callback. *)
Definition path_text (p : path) : string := String.concat "/" p.

(** *** Files and directories *)

Record FileInfo := { IsDir : bool; Mode : Z }.

Definition info_of (n : node) : FileInfo :=
  match n with
  | File m _ => {| IsDir := false; Mode := m |}
  | Dir m => {| IsDir := true; Mode := m |}
  end.

(** Names of the entries of directory [p], sorted as [sort.Strings] does. *)
Definition entry_name (p : path) (kv : path * node) : option string :=
  match strip p kv.1 with
  | Some [name] => Some name
  | _ => None
  end.

Definition readDirNames (m : gmap path node) (p : path) : list string :=
  merge_sort String.le (omap (entry_name p) (map_to_list m)).

Definition Mkdir (p : path) (perm : Z) : IO (option error) := λ w,
  match fs w !! p with
  | Some _ => (Some EEXIST, w)
  | None =>
      match fs w !! parent p with
      | Some (Dir _) => (None, set_fs <[p := Dir (Z.ldiff perm (umask w))]> w)
      | Some (File _ _) => (Some ENOTDIR, w)
      | None => (Some ENOENT, w)
      end
  end.

(** [os.MkdirAll]: nothing to do when the path is a directory, an error
    when it is a file; otherwise make the parent, then the directory.
    [rp] is the path with its last component first. *)
Fixpoint mkdir_all (rp : path) (perm : Z) : IO (option error) := λ w,
  match fs w !! reverse rp with
  | Some (Dir _) => (None, w)
  | Some (File _ _) => (Some ENOTDIR, w)
  | None =>
      match rp with
      | [] => Mkdir [] perm w
      | _ :: rp' =>
          let '(err, w') := mkdir_all rp' perm w in
          match err with
          | Some e => (Some e, w')
          | None => Mkdir (reverse rp) perm w'
          end
      end
  end.

Definition MkdirAll (p : path) (perm : Z) : IO (option error) :=
  mkdir_all (reverse p) perm.

(** [os.MkdirAll] on a path string as the user typed it. *)
Definition MkdirAll_name (name : string) (perm : Z) : IO (option error) := λ w,
  match resolve w name with
  | Some p => MkdirAll p perm w
  | None => (Some ENOENT, w)
  end.

(** [os.OpenFile(name, O_CREATE|O_TRUNC, perm)]: an existing file is
    emptied and keeps its mode, a new one gets [perm] less the umask. *)
Definition create_trunc (p : path) (perm : Z) : IO (option error) := λ w,
  match fs w !! p with
  | Some (Dir _) => (Some EISDIR, w)
  | Some (File m _) => (None, set_fs <[p := File m ""]> w)
  | None =>
      match fs w !! parent p with
      | Some (Dir _) => (None, set_fs <[p := File (Z.ldiff perm (umask w)) ""]> w)
      | Some (File _ _) => (Some ENOTDIR, w)
      | None => (Some ENOENT, w)
      end
  end.

(** [os.Create(name)] is [OpenFile] with permission 0666. *)
Definition Create (p : path) : IO (option error) := create_trunc p 438.

Definition Open (p : path) : IO (option error) := λ w,
  match fs w !! p with
  | Some _ => (None, w)
  | None => (Some ENOENT, w)
  end.

(** Writing [data] to the open file [p]. *)
Definition write_data (p : path) (data : string) : IO (option error) := λ w,
  match fs w !! p with
  | Some (File m _) => (None, set_fs <[p := File m data]> w)
  | Some (Dir _) => (Some EISDIR, w)
  | None => (Some ENOENT, w)
  end.

Definition ReadFile (p : path) : IO (string * option error) := λ w,
  match fs w !! p with
  | Some (File _ data) => ((data, None), w)
  | Some (Dir _) => (("", Some EISDIR), w)
  | None => (("", Some ENOENT), w)
  end.

(** [io.Copy(dst, src)] on two open files. *)
Definition Copy (dst src : path) : IO (option error) :=
  '(data, err) ← ReadFile src;
  match err with
  | Some e => mret (Some e)
  | None => write_data dst data
  end.

Definition WriteFile (p : path) (data : string) (perm : Z) : IO (option error) :=
  check (create_trunc p perm) id (write_data p data).

Definition Stat (p : path) : IO (option FileInfo) := λ w,
  (info_of <$> fs w !! p, w).

(** [os.Remove]: a file or an empty directory. *)
Definition Remove (p : path) : IO (option error) := λ w,
  match fs w !! p with
  | Some (File _ _) => (None, set_fs (delete p) w)
  | Some (Dir _) =>
      match readDirNames (fs w) p with
      | [] => (None, set_fs (delete p) w)
      | _ :: _ => (Some ENOTEMPTY, w)
      end
  | None => (Some ENOENT, w)
  end.

(** [os.RemoveAll]: the path and everything below it; no error when
    the path does not exist. *)
Definition RemoveAll (p : path) : IO (option error) := λ w,
  (None, set_fs (filter (λ kv, ¬ p `prefix_of` kv.1)) w).

(** *** [filepath.Walk] *)

(** The entries reached from [p], a directory before its entries and the
    entries in the order of their names.  [fuel] bounds the depth. *)
Fixpoint walk_from (fuel : nat) (m : gmap path node) (p : path)
    : list (path * FileInfo) :=
  match m !! p with
  | None => []
  | Some n =>
      (p, info_of n) ::
      match n, fuel with
      | Dir _, S fuel' =>
          readDirNames m p ≫= λ name, walk_from fuel' m (p ++ [name])
      | _, _ => []
      end
  end.

(** No path of [m] is longer than this. *)
Definition depth_bound (m : gmap path node) : nat :=
  S (max_list (length <$> (map_to_list m).*1)).

Definition WalkFunc : Type := path → FileInfo → option error → IO (option error).

(** The calls of the callback stop at its first error. *)
Fixpoint visit_all (fn : WalkFunc) (visits : list (path * FileInfo))
    : IO (option error) :=
  match visits with
  | [] => mret None
  | (p, info) :: rest =>
      err ← fn p info None;
      match err with
      | Some e => mret (Some e)
      | None => visit_all fn rest
      end
  end.

(** [filepath.Walk(root, fn)].  When [root] cannot be examined the
    callback is called once, with the error.  The directories are read as
    they stand when the walk starts: the callbacks of [main.go] add and
    remove nothing below the root they walk, as long as the project
    directory is not inside the template. *)
Definition Walk (root : string) (fn : WalkFunc) : IO (option error) := λ w,
  match resolve w root with
  | None => fn [] {| IsDir := false; Mode := 0 |} (Some ENOENT) w
  | Some p =>
      match fs w !! p with
      | None => fn p {| IsDir := false; Mode := 0 |} (Some ENOENT) w
      | Some _ => visit_all fn (walk_from (depth_bound (fs w)) (fs w) p) w
      end
  end.

(** [filepath.Rel(base, target)] for a target below the base, as the
    paths of a walk are. *)
Definition Rel (base target : path) : path * option error :=
  match strip base target with
  | Some rel => (rel, None)
  | None => ([], Some ErrRel)
  end.

Definition resolved (name : string) : IO (option path) := λ w, (resolve w name, w).
Definition joined (base : string) (rel : path) : IO path := λ w, (Join w base rel, w).

(** *** [bufio] *)

Definition newline : ascii := ascii_of_nat 10.

(** The text up to and including the first newline, and what follows. *)
Fixpoint cut_line (s : string) : option (string * string) :=
  match s with
  | "" => None
  | String c s' =>
      if decide (c = newline) then Some (String c "", s')
      else match cut_line s' with
           | Some (line, rest) => Some (String c line, rest)
           | None => None
           end
  end.

(** Fill the buffer from standard input until it holds a newline or the
    input ends: the line, the new buffer, the input left. *)
Fixpoint fill_line (buf : string) (chunks : list string)
    : (string * option error) * string * list string :=
  match cut_line buf with
  | Some (line, rest) => ((line, None), rest, chunks)
  | None =>
      match chunks with
      | [] => ((buf, Some EOF), "", [])
      | chunk :: chunks' => fill_line (buf +:+ chunk) chunks'
      end
  end.

(** [bufio.NewReader(os.Stdin)]: a reader with an empty buffer. *)
Definition NewReader : IO nat := λ w,
  (length (readers w), set_input (stdin w) (readers w ++ [""]) w).

(** [reader.ReadString] up to a newline *)
Definition ReadString (reader : nat) : IO (string * option error) := λ w,
  let '(res, rest, chunks) := fill_line (default "" (readers w !! reader)) (stdin w) in
  (res, set_input chunks (<[reader := rest]> (readers w)) w).

End OS.

Export OS.

(** ** The generator: [main.go] *)

Record ProjectConfig := {
  ProjectName : string;
  ProjectPath : string;
  ModulePath : string;
  Database : string;
  UseRedis : bool;
  UseRabbitMQ : bool;
}.

(** Go ranges over a map in an order it does not specify: [range] is that
    order, some arrangement of the entries. *)
Class RangeOrder := {
  range : list (string * path) → list (string * path);
  range_Permutation : ∀ entries, range entries ≡ₚ entries;
}.

(** A loop body run for every element in turn. *)
Fixpoint for_each {A} (l : list A) (body : A → IO ()) : IO () :=
  match l with
  | [] => mret ()
  | x :: l' => body x;; for_each l' body
  end.

(** How [main] ends: it returns after a refusal, returns after the
    project is made, or leaves with status 1 on an error. *)
Inductive Outcome :=
  | Cancelled
  | Created
  | Failed (err : error).

(** The double quote, which the compose document holds. *)
Definition dq : string := String (ascii_of_nat 34) "".
Definition nl : string := String newline "".

(** *** Prompts *)

(** [promptString] asks again on an empty answer when there is no
    default; [fuel] bounds how often, [None] is an exhausted bound. *)
Fixpoint promptString `{Unicode} (fuel : nat) (reader : nat)
    (prompt defaultValue : string) : IO (option string) :=
  '(input, _) ← ReadString reader;
  let input := TrimSpace input in
  if bool_decide (input = "") && negb (bool_decide (defaultValue = ""))
  then mret (Some defaultValue)
  else if bool_decide (input = "") then
    match fuel with
    | O => mret None
    | S fuel' => promptString fuel' reader prompt defaultValue
    end
  else mret (Some input).

Definition promptBool `{Unicode} (reader : nat) (prompt : string) : IO bool :=
  '(input, _) ← ReadString reader;
  let input := TrimSpace (ToLower input) in
  mret (bool_decide (input = "y") || bool_decide (input = "yes")).

(** [promptChoice] asks again on an answer that is no valid choice. *)
Fixpoint promptChoice `{Unicode} (fuel : nat) (reader : nat) (prompt : string)
    (validChoices : list string) (defaultChoice : string) : IO (option string) :=
  '(input, _) ← ReadString reader;
  let input := TrimSpace input in
  if bool_decide (input = "") then mret (Some defaultChoice)
  else if existsb (λ choice, bool_decide (input = choice)) validChoices
  then mret (Some input)
  else
    match fuel with
    | O => mret None
    | S fuel' => promptChoice fuel' reader prompt validChoices defaultChoice
    end.

Definition confirm `{Unicode} (prompt : string) : IO bool :=
  reader ← NewReader;
  '(input, _) ← ReadString reader;
  let input := TrimSpace (ToLower input) in
  mret (bool_decide (input = "") || bool_decide (input = "y")
        || bool_decide (input = "yes")).

Definition collectConfiguration `{Unicode} (fuel : nat) : IO (option ProjectConfig) :=
  reader ← NewReader;
  name ←? promptString fuel reader "What is your project name?" "my-go-api";
  let defaultPath := "./" +:+ name in
  projectPath ←? promptString fuel reader "Where to create the project?" defaultPath;
  let defaultModule := "github.com/yourusername/" +:+ name in
  modulePath ←? promptString fuel reader "What is your Go module path?" defaultModule;
  dbChoice ←? promptChoice fuel reader "Select database" ["1"; "2"; "3"] "1";
  let database :=
    if decide (dbChoice = "1") then "mysql"
    else if decide (dbChoice = "2") then "postgresql"
    else if decide (dbChoice = "3") then "mongodb"
    else "" in
  useRedis ← promptBool reader "Would you like to use Redis for caching?";
  useRabbitMQ ← promptBool reader "Would you like to use RabbitMQ for message queuing?";
  mret (Some {| ProjectName := name; ProjectPath := projectPath;
                ModulePath := modulePath; Database := database;
                UseRedis := useRedis; UseRabbitMQ := useRabbitMQ |}).

(** *** Copying the template *)

Definition copyFile (src dst : path) : IO (option error) :=
  check (Open src) id (
  check (Create dst) id (
  Copy dst src)).

Definition copyTemplate (config : ProjectConfig) : IO (option error) :=
  template ← joined "" ["template"];
  err ← Walk "template" (λ path info err,
    match err with
    | Some e => mret (Some e)
    | None =>
        (* Skip the template root directory *)
        if bool_decide (path = template) then mret None
        else
          (* Get relative path *)
          match Rel template path with
          | (_, Some e) => mret (Some e)
          | (relPath, None) =>
              destPath ← joined (ProjectPath config) relPath;
              if IsDir info then MkdirAll destPath (Mode info)
              else copyFile path destPath
          end
    end);
  match err with
  | Some e => mret (Some e)
  | None =>
      gitignoreSrc ← joined "template" [".gitignore"];
      gitignoreDst ← joined (ProjectPath config) [".gitignore"];
      st ← Stat gitignoreSrc;
      match st with
      | Some _ => copyFile gitignoreSrc gitignoreDst
      | None => mret None
      end
  end.

Definition createGoMod (config : ProjectConfig) : IO (option error) :=
  let goModContent := "module " +:+ ModulePath config +:+ "

go 1.24.1

require (
	github.com/DATA-DOG/go-sqlmock v1.5.0
	github.com/bxcodec/faker v2.0.1+incompatible
	github.com/go-co-op/gocron/v2 v2.11.0
	github.com/go-playground/locales v0.14.1
	github.com/go-playground/universal-translator v0.18.1
	github.com/go-playground/validator/v10 v10.14.1
	github.com/gofiber/fiber/v2 v2.52.5
	github.com/gofiber/swagger v1.1.0
	github.com/golang-jwt/jwt/v4 v4.5.2
	github.com/google/uuid v1.6.0
	github.com/joeshaw/envdecode v0.0.0-20200121155833-099f1fc765bd
	github.com/pkg/errors v0.9.1
	github.com/rabbitmq/amqp091-go v1.8.1
	github.com/redis/go-redis/v9 v9.3.0
	github.com/stretchr/testify v1.9.0
	github.com/subosito/gotenv v1.4.2
	github.com/swaggo/swag v1.16.3
	github.com/valyala/fasthttp v1.51.0
	go.mongodb.org/mongo-driver v1.11.7
	go.uber.org/zap v1.27.0
	golang.org/x/crypto v0.36.0
	gorm.io/driver/mysql v1.5.1
	gorm.io/driver/postgres v1.5.9
	gorm.io/gorm v1.25.10
)
" in
  goModPath ← joined (ProjectPath config) ["go.mod"];
  WriteFile goModPath goModContent 420.

(** *** Rewriting the module path *)

Definition oldModule : string := "github.com/rahmatrdn/go-skeleton".

Definition updateModulePaths `{Unicode} (config : ProjectConfig) : IO (option error) :=
  Walk (ProjectPath config) (λ path info err,
    if bool_decide (err ≠ None) || IsDir info then mret err
    else if negb (HasSuffix (path_text path) ".go")
            && negb (HasSuffix (path_text path) ".mod") then mret None
    else
      '(content, err) ← ReadFile path;
      match err with
      | Some e => mret (Some e)
      | None =>
          let newContent := ReplaceAll content oldModule (ModulePath config) in
          WriteFile path newContent (Mode info)
      end).

(** *** Pruning *)

Definition cleanupFiles `{RangeOrder} (config : ProjectConfig) : IO (option error) :=
  (* Remove database config files not being used *)
  mysqlConfig ← joined (ProjectPath config) ["config"; "mysql.go"];
  postgreConfig ← joined (ProjectPath config) ["config"; "postgre.go"];
  mongodbConfig ← joined (ProjectPath config) ["config"; "mongodb.go"];
  let dbConfigs := [("mysql", mysqlConfig); ("postgresql", postgreConfig);
                    ("mongodb", mongodbConfig)] in
  for_each (range dbConfigs) (λ '(db, configFile),
    if bool_decide (db ≠ Database config) then
      Remove configFile;;
      if bool_decide (db = "mysql") || bool_decide (db = "postgresql") then
        gorm ← joined (ProjectPath config) ["config"; "gorm.go"];
        Remove gorm;; mret ()
      else mret ()
    else mret ());;
  (* Remove database repository directories not being used *)
  mysqlRepo ← joined (ProjectPath config) ["internal"; "repository"; "mysql"];
  (* PostgreSQL uses the same mysql folder with GORM *)
  postgreRepo ← joined (ProjectPath config) ["internal"; "repository"; "mysql"];
  mongodbRepo ← joined (ProjectPath config) ["internal"; "repository"; "mongodb"];
  let dbRepos := [("mysql", mysqlRepo); ("postgresql", postgreRepo);
                  ("mongodb", mongodbRepo)] in
  for_each (range dbRepos) (λ '(db, repoDir),
    if bool_decide (db ≠ Database config) then
      (* For PostgreSQL, don't remove mysql repo since they share it *)
      if bool_decide (Database config = "postgresql") && bool_decide (db = "mysql")
      then mret ()
      else if bool_decide (Database config = "mysql") && bool_decide (db = "postgresql")
      then mret ()
      else RemoveAll repoDir;; mret ()
    else mret ());;
  (* Remove optional service configs *)
  (if negb (UseRedis config) then
     redis ← joined (ProjectPath config) ["config"; "redis.go"];
     Remove redis;; mret ()
   else mret ());;
  (if negb (UseRabbitMQ config) then
     rabbitmq ← joined (ProjectPath config) ["config"; "rabbitmq.go"];
     Remove rabbitmq;; mret ()
   else mret ());;
  mret None.

(** *** The devcontainer *)

Definition sanitizeName `{Unicode} (name : string) : string :=
  ReplaceAll (ToLower name) "-" "_".

Definition generateDevcontainerDockerCompose `{Unicode} (config : ProjectConfig)
    : string :=
  (* Build depends_on list dynamically *)
  let dependsOn := ["db"] in
  let dependsOn := if UseRedis config then dependsOn ++ ["redis"] else dependsOn in
  let dependsOn := if UseRabbitMQ config then dependsOn ++ ["rabbitmq"] else dependsOn in
  (* Build depends_on YAML *)
  let dependsOnYaml :=
    foldl (λ yaml dep, yaml +:+ "      - " +:+ dep +:+ nl) "" dependsOn in
  let services := "services:
  app:
    build:
      context: .
      dockerfile: Dockerfile
    volumes:
      - ..:/workspace:cached
    command: sleep infinity
    network_mode: service:db
    depends_on:
" +:+ dependsOnYaml +:+ "
" in
  (* Add database service *)
  let services :=
    if decide (Database config = "mysql") then
      services +:+ "
  db:
    image: mysql:8.0
    restart: unless-stopped
    environment:
      MYSQL_ROOT_PASSWORD: root
      MYSQL_DATABASE: " +:+ sanitizeName (ProjectName config) +:+ "
      MYSQL_USER: " +:+ sanitizeName (ProjectName config) +:+ "
      MYSQL_PASSWORD: " +:+ sanitizeName (ProjectName config) +:+ "
    volumes:
      - mysql-data:/var/lib/mysql
    ports:
      - " +:+ dq +:+ "3306:3306" +:+ dq +:+ "
"
    else if decide (Database config = "postgresql") then
      services +:+ "
  db:
    image: postgres:15-alpine
    restart: unless-stopped
    environment:
      POSTGRES_USER: postgres
      POSTGRES_PASSWORD: postgres
      POSTGRES_DB: " +:+ sanitizeName (ProjectName config) +:+ "
    volumes:
      - postgres-data:/var/lib/postgresql/data
    ports:
      - " +:+ dq +:+ "5432:5432" +:+ dq +:+ "
"
    else if decide (Database config = "mongodb") then
      services +:+ "
  db:
    image: mongo:6
    restart: unless-stopped
    environment:
      MONGO_INITDB_DATABASE: " +:+ sanitizeName (ProjectName config) +:+ "
    volumes:
      - mongodb-data:/data/db
    ports:
      - " +:+ dq +:+ "27017:27017" +:+ dq +:+ "
"
    else services in
  (* Add Redis if needed *)
  let services :=
    if UseRedis config then
      services +:+ "
  redis:
    image: redis:7-alpine
    restart: unless-stopped
    command: redis-server --requirepass " +:+ dq +:+ dq +:+ "
    volumes:
      - redis-data:/data
    ports:
      - " +:+ dq +:+ "6379:6379" +:+ dq +:+ "
"
    else services in
  (* Add RabbitMQ if needed *)
  let services :=
    if UseRabbitMQ config then
      services +:+ "
  rabbitmq:
    image: rabbitmq:3-management-alpine
    restart: unless-stopped
    environment:
      RABBITMQ_DEFAULT_USER: guest
      RABBITMQ_DEFAULT_PASS: guest
    volumes:
      - rabbitmq-data:/var/lib/rabbitmq
    ports:
      - " +:+ dq +:+ "5672:5672" +:+ dq +:+ "
      - " +:+ dq +:+ "15672:15672" +:+ dq +:+ "
"
    else services in
  (* Add volumes section *)
  let services := services +:+ "
volumes:
" in
  let services :=
    if decide (Database config = "mysql") then services +:+ "  mysql-data:
"
    else if decide (Database config = "postgresql") then services +:+ "  postgres-data:
"
    else if decide (Database config = "mongodb") then services +:+ "  mongodb-data:
"
    else services in
  let services := if UseRedis config then services +:+ "  redis-data:
" else services in
  let services := if UseRabbitMQ config then services +:+ "  rabbitmq-data:
" else services in
  services.

Definition generateDevcontainer `{Unicode} (config : ProjectConfig) : IO (option error) :=
  devcontainerPath ← joined (ProjectPath config) [".devcontainer"];
  (* Generate docker-compose.yml for devcontainer *)
  let dockerCompose := generateDevcontainerDockerCompose config in
  let dockerComposePath := devcontainerPath ++ ["docker-compose.yml"] in
  WriteFile dockerComposePath dockerCompose 420.

(** *** Configuration and environment files *)

Definition removeLines `{Unicode} (content pattern : string) : string :=
  let lines := Split content nl in
  let result := filter (λ line, ¬ Contains line pattern) lines in
  Strings.Join result nl.

Definition updateConfigFiles `{Unicode} (config : ProjectConfig) : IO (option error) :=
  (* Update config.go to only include selected options *)
  configPath ← joined (ProjectPath config) ["config"; "config.go"];
  (* Read current config *)
  '(content, err) ← ReadFile configPath;
  match err with
  | Some e => mret (Some e)
  | None =>
      let configStr := content in
      (* Remove unused database options *)
      let configStr :=
        if bool_decide (Database config ≠ "mysql")
        then removeLines configStr "MysqlOption" else configStr in
      let configStr :=
        if bool_decide (Database config ≠ "postgresql")
        then removeLines configStr "PostgreSqlOption" else configStr in
      let configStr :=
        if bool_decide (Database config ≠ "mongodb")
        then removeLines configStr "MongodbOption" else configStr in
      (* Remove unused service options *)
      let configStr :=
        if negb (UseRedis config)
        then removeLines configStr "RedisOption" else configStr in
      let configStr :=
        if negb (UseRabbitMQ config)
        then removeLines configStr "RabbitMQOption" else configStr in
      WriteFile configPath configStr 420
  end.

Definition updateEnvFiles `{Unicode} (config : ProjectConfig) : IO (option error) :=
  (* Update .env.devcontainer with actual project database name *)
  envDevcontainerPath ← joined (ProjectPath config) [".devcontainer"; ".env.devcontainer"];
  '(content, err) ← ReadFile envDevcontainerPath;
  match err with
  | Some e => mret (Some e)
  | None =>
      let dbName := sanitizeName (ProjectName config) in
      let envContent := ReplaceAll content "PROJECT_DB_NAME" dbName in
      WriteFile envDevcontainerPath envContent 420
  end.

(** *** [createProject] and [main] *)

Definition createProject `{Unicode, RangeOrder} (config : ProjectConfig)
    : IO (option error) :=
  (* Create project directory *)
  check (MkdirAll_name (ProjectPath config) 493) (Wrapped "failed to create directory") (
  (* Copy template files *)
  check (copyTemplate config) (Wrapped "failed to copy template") (
  (* Create go.mod file *)
  check (createGoMod config) (Wrapped "failed to create go.mod") (
  (* Update module paths *)
  check (updateModulePaths config) (Wrapped "failed to update module paths") (
  (* Clean up unnecessary files *)
  check (cleanupFiles config) (Wrapped "failed to cleanup") (
  (* Generate devcontainer *)
  check (generateDevcontainer config) (Wrapped "failed to generate devcontainer") (
  (* Update config files *)
  check (updateConfigFiles config) (Wrapped "failed to update config") (
  (* Update environment files *)
  check (updateEnvFiles config) (Wrapped "failed to update env files") (
  mret None)))))))).

Definition main `{Unicode, RangeOrder} (fuel : nat) : IO (option Outcome) :=
  config ←? collectConfiguration fuel;
  ok ← confirm "Create project?";
  if negb ok then mret (Some Cancelled)
  else
    err ← createProject config;
    match err with
    | Some e => mret (Some (Failed e))
    | None => mret (Some Created)
    end.

(** * The specification's vocabulary

    Definitions the properties below are stated with: they say what the
    specification means, name the callback of [copyTemplate], and describe
    the worlds the properties are run on. *)

(** ** Answers, and text as it is *)

(** The spellings of a yes. *)
Definition yes_answers : list string :=
  ["y"; "Y"; "yes"; "yeS"; "yEs"; "yES"; "Yes"; "YeS"; "YEs"; "YES"].

(** A [Unicode] that leaves text as it is, for running the model on
    ASCII examples. *)
Definition bytewise : Unicode := {|
  unicode_ToLower s := s;
  unicode_TrimFunc s := s;
  unicode_TrimRightFunc s := s;
  unicode_ReplaceEmpty s _ := s;
  unicode_explode s := [s];
|}.

(** ** The compose document, line by line *)

(** A heading is a line "name:" that starts in the first column, an
    entry a line "  name:" indented by two spaces. *)
Definition strip_colon (line : string) : option string :=
  match String.rev line with
  | String c r => if bool_decide (c = ":"%char) then Some (String.rev r) else None
  | "" => None
  end.

Definition heading (line : string) : option string :=
  match line with
  | String c _ => if bool_decide (c = " "%char) then None else strip_colon line
  | "" => None
  end.

Definition entry (line : string) : option string :=
  match line with
  | String c1 (String c2 (String c3 rest)) =>
      if bool_decide (c1 = " "%char) && bool_decide (c2 = " "%char)
         && negb (bool_decide (c3 = " "%char))
      then strip_colon (String c3 rest) else None
  | _ => None
  end.

(** The entries below the heading [section]. *)
Fixpoint section_entries (section : string) (inside : bool) (lines : list string)
    : list string :=
  match lines with
  | [] => []
  | line :: rest =>
      match heading line with
      | Some h => section_entries section (bool_decide (h = section)) rest
      | None =>
          match entry line with
          | Some e =>
              if inside then e :: section_entries section inside rest
              else section_entries section inside rest
          | None => section_entries section inside rest
          end
      end
  end.

Definition services_of `{Unicode} (doc : string) : list string :=
  section_entries "services" false (Split doc nl).

Definition volumes_of `{Unicode} (doc : string) : list string :=
  section_entries "volumes" false (Split doc nl).

Definition db_volume (database : string) : string :=
  if decide (database = "mysql") then "mysql-data"
  else if decide (database = "postgresql") then "postgres-data"
  else "mongodb-data".

Definition unlines (lines : list string) : string :=
  foldr (λ line doc, line +:+ nl +:+ doc) "" lines.

(** The document line by line, for a database name [dbName]. *)
Definition compose_head : list string :=
  ["services:";
   "  app:";
   "    build:";
   "      context: .";
   "      dockerfile: Dockerfile";
   "    volumes:";
   "      - ..:/workspace:cached";
   "    command: sleep infinity";
   "    network_mode: service:db";
   "    depends_on:"].

Definition compose_db (database dbName : string) : list string :=
  if decide (database = "mysql") then
    ["";
     "  db:";
     "    image: mysql:8.0";
     "    restart: unless-stopped";
     "    environment:";
     "      MYSQL_ROOT_PASSWORD: root";
     "      MYSQL_DATABASE: " +:+ dbName;
     "      MYSQL_USER: " +:+ dbName;
     "      MYSQL_PASSWORD: " +:+ dbName;
     "    volumes:";
     "      - mysql-data:/var/lib/mysql";
     "    ports:";
     "      - " +:+ dq +:+ "3306:3306" +:+ dq]
  else if decide (database = "postgresql") then
    ["";
     "  db:";
     "    image: postgres:15-alpine";
     "    restart: unless-stopped";
     "    environment:";
     "      POSTGRES_USER: postgres";
     "      POSTGRES_PASSWORD: postgres";
     "      POSTGRES_DB: " +:+ dbName;
     "    volumes:";
     "      - postgres-data:/var/lib/postgresql/data";
     "    ports:";
     "      - " +:+ dq +:+ "5432:5432" +:+ dq]
  else if decide (database = "mongodb") then
    ["";
     "  db:";
     "    image: mongo:6";
     "    restart: unless-stopped";
     "    environment:";
     "      MONGO_INITDB_DATABASE: " +:+ dbName;
     "    volumes:";
     "      - mongodb-data:/data/db";
     "    ports:";
     "      - " +:+ dq +:+ "27017:27017" +:+ dq]
  else [].

Definition compose_redis : list string :=
  ["";
   "  redis:";
   "    image: redis:7-alpine";
   "    restart: unless-stopped";
   "    command: redis-server --requirepass " +:+ dq +:+ dq;
   "    volumes:";
   "      - redis-data:/data";
   "    ports:";
   "      - " +:+ dq +:+ "6379:6379" +:+ dq].

Definition compose_rabbitmq : list string :=
  ["";
   "  rabbitmq:";
   "    image: rabbitmq:3-management-alpine";
   "    restart: unless-stopped";
   "    environment:";
   "      RABBITMQ_DEFAULT_USER: guest";
   "      RABBITMQ_DEFAULT_PASS: guest";
   "    volumes:";
   "      - rabbitmq-data:/var/lib/rabbitmq";
   "    ports:";
   "      - " +:+ dq +:+ "5672:5672" +:+ dq;
   "      - " +:+ dq +:+ "15672:15672" +:+ dq].

Definition compose_volumes (database : string) (redis rabbitmq : bool) : list string :=
  [""; "volumes:"]
  ++ (if decide (database = "mysql") then ["  mysql-data:"]
      else if decide (database = "postgresql") then ["  postgres-data:"]
      else if decide (database = "mongodb") then ["  mongodb-data:"]
      else [])
  ++ (if redis then ["  redis-data:"] else [])
  ++ (if rabbitmq then ["  rabbitmq-data:"] else []).

Definition compose_lines (database : string) (redis rabbitmq : bool)
    (dbName : string) : list string :=
  compose_head
  ++ ["      - db"]
  ++ (if redis then ["      - redis"] else [])
  ++ (if rabbitmq then ["      - rabbitmq"] else [])
  ++ [""]
  ++ compose_db database dbName
  ++ (if redis then compose_redis else [])
  ++ (if rabbitmq then compose_rabbitmq else [])
  ++ compose_volumes database redis rabbitmq.

(** ** The database name *)

(** The specification's wording, byte by byte: a capital letter becomes
    its small letter, a hyphen becomes an underscore. *)
Definition sanitize_byte (c : ascii) : ascii :=
  if bool_decide (c = "-"%char) then "_"%char else lower_byte c.

Definition lowercased_with_underscores (name : string) : string :=
  smap sanitize_byte name.

Fixpoint all_bytes (P : ascii → bool) (s : string) : bool :=
  match s with
  | "" => true
  | String c s' => P c && all_bytes P s'
  end.

(** The key under which each database image takes the database name. *)
Definition db_key (database : string) : string :=
  if decide (database = "mysql") then "      MYSQL_DATABASE: "
  else if decide (database = "postgresql") then "      POSTGRES_DB: "
  else "      MONGO_INITDB_DATABASE: ".

Definition hyphen_to_underscore (c : ascii) : ascii :=
  if bool_decide (c = "-"%char) then "_"%char else c.

(** ** Steps on the file system *)

(** The directory of the project, against which [main.go] joins all its
    relative paths. *)
Definition project_root (w : World) (config : ProjectConfig) : path :=
  Join w (ProjectPath config) [].

(** A step that only removes entries. *)
Definition only_removes (step : World → World) : Prop :=
  ∀ w, cwd (step w) = cwd w ∧
       ∀ p, fs (step w) !! p = None ∨ fs (step w) !! p = fs w !! p.

(** What a step leaves as it was: the working directory and every path
    that satisfies [keep]. *)
Definition leaves (keep : path → Prop) (step : World → World) : Prop :=
  ∀ w, cwd (step w) = cwd w ∧ ∀ p, keep p → fs (step w) !! p = fs w !! p.

(** A step that leaves the world [w] as it is. *)
Definition idle {A} (w : World) (m : IO A) : Prop := (m w).2 = w.

(** [triple P m Q]: from a world that satisfies [P], [m] returns a value
    and a world that satisfy [Q]. *)
Definition triple {A} (P : World → Prop) (m : IO A) (Q : A → World → Prop) : Prop :=
  ∀ w, P w → Q (m w).1 (m w).2.

(** ** Text files *)

Definition basename (p : path) : string := default "" (last p).

(** The extensions of the files [updateModulePaths] rewrites. *)
Definition text_extension (name : string) : bool :=
  HasSuffix name ".go" || HasSuffix name ".mod".

(** What a world [w1] met during the rewrite keeps of the world [w] it
    started from. *)
Definition rewritten_from (w w1 : World) : Prop :=
  cwd w1 = cwd w ∧
  ∀ p, match fs w !! p with
       | Some (File mode data) =>
           (∃ data', fs w1 !! p = Some (File mode data'))
           ∧ (negb (HasSuffix (path_text p) ".go")
              && negb (HasSuffix (path_text p) ".mod") = true →
              fs w1 !! p = Some (File mode data))
       | other => fs w1 !! p = other
       end.

(** ** Reading *)

Fixpoint total_length (chunks : list string) : nat :=
  match chunks with
  | [] => 0
  | chunk :: chunks' => String.length chunk + total_length chunks'
  end.

(** The bytes reader [r] can still deliver: its buffer and the input left. *)
Definition pending (r : nat) (w : World) : nat :=
  String.length (default "" (readers w !! r)) + total_length (stdin w).

(** A step that only reads through reader [r]. *)
Definition reads (r : nat) (w w' : World) : Prop :=
  fs w' = fs w ∧ cwd w' = cwd w ∧ umask w' = umask w
  ∧ length (readers w') = length (readers w) ∧ pending r w' ≤ pending r w.

(** The prompts write to no file. *)
Definition same_files (w : World) : World → Prop := λ w', fs w' = fs w.

(** ** Copying *)

(** A file system is a tree: every entry lies in a directory. *)
Definition well_formed (m : gmap path node) : Prop :=
  ∀ p name, is_Some (m !! (p ++ [name])) → ∃ mode, m !! p = Some (Dir mode).

(** What [copyTemplate] makes of a template entry: a directory with the
    mode of the source less the umask, a file with the content of the
    source and the mode 0666 less the umask. *)
Definition copy_of (mask : Z) (source : option node) : option node :=
  match source with
  | Some (Dir mode) => Some (Dir (Z.ldiff mode mask))
  | Some (File _ data) => Some (File (Z.ldiff 438 mask) data)
  | None => None
  end.

(** The callback [copyTemplate] hands to [filepath.Walk]. *)
Definition copy_visit (config : ProjectConfig) (template : path) : WalkFunc :=
  λ path info err,
    match err with
    | Some e => mret (Some e)
    | None =>
        if bool_decide (path = template) then mret None
        else
          match Rel template path with
          | (_, Some e) => mret (Some e)
          | (relPath, None) =>
              destPath ← joined (ProjectPath config) relPath;
              if IsDir info then MkdirAll destPath (Mode info)
              else copyFile path destPath
          end
    end.

(** A world [w1] met while copying from the world [w]: the template, and
    all else outside the project directory [dest], is as in [w]. *)
Definition copying (dest : path) (w w1 : World) : Prop :=
  cwd w1 = cwd w ∧ umask w1 = umask w
  ∧ ∀ q, ¬ dest `prefix_of` q → fs w1 !! q = fs w !! q.

(** [w2] is [w1] with the entry [name] of the template directory [rel],
    and all below it, copied. *)
Definition copied (template dest : path) (w : World) (rel : path) (name : string)
    (w1 w2 : World) : Prop :=
  ∀ q, fs w2 !! q =
       match strip (dest ++ rel ++ [name]) q with
       | Some more => copy_of (umask w) (fs w !! (template ++ rel ++ [name] ++ more))
       | None => fs w1 !! q
       end.

(** What the world holds once the template of [w] is copied. *)
Definition copied_tree (template dest : path) (w w2 : World) : Prop :=
  ∀ q, fs w2 !! q =
       match strip dest q with
       | Some (x :: more) => copy_of (umask w) (fs w !! (template ++ x :: more))
       | _ => fs w !! q
       end.

(** ** A small project, for running the model *)

(** [range] in the order of the map literal. *)
Definition in_order : RangeOrder :=
  {| range := λ entries, entries; range_Permutation := λ entries, reflexivity entries |}.

(** The entry [p] lies in a directory of [m]. *)
Definition in_directory (m : gmap path node) (p : path) : bool :=
  match p with
  | [] => true
  | _ :: _ => match m !! parent p with Some (Dir _) => true | _ => false end
  end.

Definition well_formedb (m : gmap path node) : bool :=
  forallb (λ kv, in_directory m kv.1) (map_to_list m).

(** Nothing lies below [p] in [m]. *)
Definition empty_below (m : gmap path node) (p : path) : bool :=
  forallb (λ kv, match strip p kv.1 with Some (_ :: _) => false | _ => true end)
    (map_to_list m).

(** A template with a script, and an empty project directory beside it. *)
Definition demo_files : gmap path node :=
  list_to_map [
    ([], Dir 493);
    (["out"], Dir 493);
    (["template"], Dir 493);
    (["template"; ".gitignore"], File 420 "bin/");
    (["template"; "run.sh"], File 493 "#!/bin/sh");
    (["template"; "go.mod"], File 420 "module github.com/rahmatrdn/go-skeleton");
    (["template"; "config"], Dir 493);
    (["template"; "config"; "gorm.go"],
     File 420 "import github.com/rahmatrdn/go-skeleton/config");
    (["template"; "config"; "mysql.go"], File 420 "package config");
    (["template"; "internal"], Dir 493);
    (["template"; "internal"; "repository"], Dir 493);
    (["template"; "internal"; "repository"; "mysql"], Dir 493);
    (["template"; "internal"; "repository"; "mysql"; "user.go"], File 420 "package mysql")
  ].

(** The user answers each question with the return key, then n. *)
Definition demo : World :=
  {| fs := demo_files; cwd := []; umask := 18;
     stdin := [nl; nl; nl; nl; nl; nl; "n" +:+ nl]; readers := [] |}.

Definition demo_config : ProjectConfig :=
  {| ProjectName := "My-App"; ProjectPath := "./out";
     ModulePath := "example.com/my-app"; Database := "mysql";
     UseRedis := true; UseRabbitMQ := false |}.

(** The project once the template is copied. *)
Definition demo_copied : World := (copyTemplate demo_config demo).2.

(** ** The end of the input *)

(** A reader at the end of the input: nothing buffered, nothing to come. *)
Definition at_end (r : nat) (w : World) : Prop :=
  stdin w = [] ∧ default "" (readers w !! r) = "".

(** ** What the pruning removes *)

(** The files [cleanupFiles] removes, relative to the project directory:
    the configuration of each database that is not selected, config/gorm.go
    in every case, and the configuration of each service that is not
    selected. *)
Definition pruned_files (config : ProjectConfig) : list path :=
  (if bool_decide (Database config ≠ "mysql") then [["config"; "mysql.go"]] else [])
  ++ (if bool_decide (Database config ≠ "postgresql") then [["config"; "postgre.go"]] else [])
  ++ (if bool_decide (Database config ≠ "mongodb") then [["config"; "mongodb.go"]] else [])
  ++ [["config"; "gorm.go"]]
  ++ (if UseRedis config then [] else [["config"; "redis.go"]])
  ++ (if UseRabbitMQ config then [] else [["config"; "rabbitmq.go"]]).

(** The directories it removes with all they hold: the repository that
    mysql and postgresql share when neither is selected, the repository of
    mongodb when it is not selected. *)
Definition pruned_dirs (config : ProjectConfig) : list path :=
  (if bool_decide (Database config ∈ ["mysql"; "postgresql"]) then []
   else [["internal"; "repository"; "mysql"]])
  ++ (if bool_decide (Database config ≠ "mongodb")
      then [["internal"; "repository"; "mongodb"]] else []).

(** Nothing, or a file. *)
Definition file_or_none (entry : option node) : Prop :=
  entry = None ∨ ∃ mode data, entry = Some (File mode data).

(** [gone_after c P q m]: run in the working directory [c] on a world
    whose entry at [q] satisfies [P], the step [m] leaves nothing at [q]. *)
Definition gone_after {A} (c : path) (P : option node → Prop) (q : path) (m : IO A)
    : Prop :=
  ∀ w1, cwd w1 = c → P (fs w1 !! q) → cwd (m w1).2 = c ∧ fs (m w1).2 !! q = None.

(** ** The lines of options *)

(** The line names none of the patterns. *)
Definition mentions_none (patterns : list string) (line : string) : bool :=
  forallb (λ pattern, negb (Contains line pattern)) patterns.

(** The option names [updateConfigFiles] looks for, in its order: those of
    the databases that are not selected, then those of the services that
    are not selected. *)
Definition unselected_options (config : ProjectConfig) : list string :=
  (if bool_decide (Database config ≠ "mysql") then ["MysqlOption"] else [])
  ++ (if bool_decide (Database config ≠ "postgresql") then ["PostgreSqlOption"] else [])
  ++ (if bool_decide (Database config ≠ "mongodb") then ["MongodbOption"] else [])
  ++ (if UseRedis config then [] else ["RedisOption"])
  ++ (if UseRabbitMQ config then [] else ["RabbitMQOption"]).

(** ** The rewrite, entry by entry *)

(** What [updateModulePaths] makes of an entry it visits at [q]. *)
Definition rewrite_entry `{Unicode} (config : ProjectConfig) (q : path) (n : node) : node :=
  match n with
  | File mode data =>
      if text_extension (basename q)
      then File mode (ReplaceAll data oldModule (ModulePath config))
      else n
  | Dir _ => n
  end.

(** The callback [updateModulePaths] hands to [filepath.Walk]. *)
Definition rewrite_visit `{Unicode} (config : ProjectConfig) : WalkFunc :=
  λ path info err,
    if bool_decide (err ≠ None) || IsDir info then mret err
    else if negb (HasSuffix (path_text path) ".go")
            && negb (HasSuffix (path_text path) ".mod") then mret None
    else
      '(content, err) ← ReadFile path;
      match err with
      | Some e => mret (Some e)
      | None =>
          let newContent := ReplaceAll content oldModule (ModulePath config) in
          WriteFile path newContent (Mode info)
      end.

(** ** The module file *)

(** What [createGoMod] writes after the module path. *)
Definition go_mod_requirements : string := "

go 1.24.1

require (
	github.com/DATA-DOG/go-sqlmock v1.5.0
	github.com/bxcodec/faker v2.0.1+incompatible
	github.com/go-co-op/gocron/v2 v2.11.0
	github.com/go-playground/locales v0.14.1
	github.com/go-playground/universal-translator v0.18.1
	github.com/go-playground/validator/v10 v10.14.1
	github.com/gofiber/fiber/v2 v2.52.5
	github.com/gofiber/swagger v1.1.0
	github.com/golang-jwt/jwt/v4 v4.5.2
	github.com/google/uuid v1.6.0
	github.com/joeshaw/envdecode v0.0.0-20200121155833-099f1fc765bd
	github.com/pkg/errors v0.9.1
	github.com/rabbitmq/amqp091-go v1.8.1
	github.com/redis/go-redis/v9 v9.3.0
	github.com/stretchr/testify v1.9.0
	github.com/subosito/gotenv v1.4.2
	github.com/swaggo/swag v1.16.3
	github.com/valyala/fasthttp v1.51.0
	go.mongodb.org/mongo-driver v1.11.7
	go.uber.org/zap v1.27.0
	golang.org/x/crypto v0.36.0
	gorm.io/driver/mysql v1.5.1
	gorm.io/driver/postgres v1.5.9
	gorm.io/gorm v1.25.10
)
".

(** The text [createGoMod] writes. *)
Definition goModContent (config : ProjectConfig) : string :=
  "module " +:+ ModulePath config +:+ go_mod_requirements.

(** ** Outside the project *)

(** [w1] is [w] outside the directory [root], but for directories made
    on the way to [root]. *)
Definition outside_kept (root : path) (w w1 : World) : Prop :=
  cwd w1 = cwd w
  ∧ ∀ q, ¬ root `prefix_of` q →
      fs w1 !! q = fs w !! q
      ∨ (fs w !! q = None ∧ q `prefix_of` root ∧ ∃ mode, fs w1 !! q = Some (Dir mode)).

(** ** The steps of the generator *)

(** The messages [createProject] puts before the error of a step. *)
Definition step_messages : list string :=
  ["failed to create directory"; "failed to copy template"; "failed to create go.mod";
   "failed to update module paths"; "failed to cleanup";
   "failed to generate devcontainer"; "failed to update config";
   "failed to update env files"].

(** ** An input at its end *)

(** A world whose input is at its end, with one reader. *)
Definition silent : World :=
  {| fs := ∅; cwd := []; umask := 18; stdin := []; readers := [""] |}.

(** ** A template to make a project of *)

(** The files [createProject] writes itself, whatever the template holds
    in their place. *)
Definition generated_files : list path :=
  [["go.mod"]; [".devcontainer"; "docker-compose.yml"];
   [".devcontainer"; ".env.devcontainer"]; ["config"; "config.go"]].

(** A template with the files [createProject] needs, and no project
    directory yet. *)
Definition starter_files : gmap path node :=
  list_to_map [
    ([], Dir 493);
    (["template"], Dir 493);
    (["template"; ".gitignore"], File 420 "bin/");
    (["template"; "main.go"],
     File 420 "import github.com/rahmatrdn/go-skeleton/config");
    (["template"; ".devcontainer"], Dir 493);
    (["template"; ".devcontainer"; ".env.devcontainer"],
     File 420 "DB_NAME=PROJECT_DB_NAME");
    (["template"; "config"], Dir 493);
    (["template"; "config"; "config.go"],
     File 420 ("MysqlOption" +:+ nl +:+ "MongodbOption" +:+ nl +:+ "RabbitMQOption"));
    (["template"; "config"; "mongodb.go"], File 420 "package config");
    (["template"; "internal"], Dir 493);
    (["template"; "internal"; "repository"], Dir 493);
    (["template"; "internal"; "repository"; "mongodb"], Dir 493);
    (["template"; "internal"; "repository"; "mongodb"; "user.go"],
     File 420 "package mongodb")
  ].

Definition starter : World :=
  {| fs := starter_files; cwd := []; umask := 18; stdin := []; readers := [] |}.

(** The project [createProject] makes of it. *)
Definition starter_made : World :=
  (@createProject bytewise in_order demo_config starter).2.

(** ** Input in one read *)

(** [w1] differs from [w] in what has been read only. *)
Definition only_read (w w1 : World) : Prop :=
  fs w1 = fs w ∧ cwd w1 = cwd w ∧ umask w1 = umask w.

(** The next read of reader [r] takes all that is left of the input:
    nothing is left, or what one read returns while its buffer is empty. *)
Definition one_read_left (r : nat) (w1 : World) : Prop :=
  stdin w1 = [] ∨ (length (stdin w1) ≤ 1 ∧ default "" (readers w1 !! r) = "").

(** The answers of a user who keeps every default and refuses at the end,
    arriving in one read, as from a pipe or a file. *)
Definition piped : World :=
  {| fs := demo_files; cwd := []; umask := 18;
     stdin := [nl +:+ nl +:+ nl +:+ nl +:+ nl +:+ nl +:+ "n" +:+ nl]; readers := [] |}.

(** * Properties *)

(** ** Text *)

Section text.
Context `{Unicode}.

Lemma str_app_nil_r (s : string) : s +:+ "" = s.
Proof. induction s as [|c s IH]; [done|]. unfold String.app in *. simpl. by rewrite IH. Qed.

Lemma str_app_assoc (s t u : string) : (s +:+ t) +:+ u = s +:+ t +:+ u.
Proof.
  induction s as [|c s IH]; [done|]. unfold String.app in *. simpl. by rewrite IH.
Qed.

Lemma str_app_cons (c : ascii) (s t : string) : String c s +:+ t = String c (s +:+ t).
Proof. done. Qed.

Lemma str_length_app (s t : string) :
  String.length (s +:+ t) = String.length s + String.length t.
Proof.
  induction s as [|c s IH]; [done|]. rewrite str_app_cons. simpl. by rewrite IH.
Qed.

Lemma rev_app_spec (s t : string) : String.rev_app s t = String.rev s +:+ t.
Proof.
  revert t. induction s as [|c s IH]; intros t; [done|].
  unfold String.rev. simpl. rewrite !IH. by rewrite str_app_assoc.
Qed.

Lemma str_rev_cons (c : ascii) (s : string) :
  String.rev (String c s) = String.rev s +:+ String c "".
Proof. unfold String.rev at 1. simpl. apply rev_app_spec. Qed.

Lemma str_rev_app_distr (s t : string) :
  String.rev (s +:+ t) = String.rev t +:+ String.rev s.
Proof.
  induction s as [|c s IH]; [by rewrite str_app_nil_r|].
  by rewrite str_app_cons, !str_rev_cons, IH, str_app_assoc.
Qed.

Lemma str_rev_involutive (s : string) : String.rev (String.rev s) = s.
Proof.
  induction s as [|c s IH]; [done|].
  by rewrite str_rev_cons, str_rev_app_distr, IH.
Qed.

Lemma smap_app (f : ascii → ascii) (s t : string) :
  smap f (s +:+ t) = smap f s +:+ smap f t.
Proof. induction s as [|c s IH]; [done|]. rewrite !str_app_cons. simpl. by rewrite IH. Qed.

Lemma smap_rev (f : ascii → ascii) (s : string) :
  smap f (String.rev s) = String.rev (smap f s).
Proof.
  induction s as [|c s IH]; [done|]. simpl.
  by rewrite !str_rev_cons, smap_app, IH.
Qed.

Lemma isASCII_app (s t : string) : isASCII (s +:+ t) = isASCII s && isASCII t.
Proof.
  induction s as [|c s IH]; [done|]. rewrite str_app_cons. simpl.
  by rewrite IH, andb_assoc.
Qed.

Lemma isASCII_rev (s : string) : isASCII (String.rev s) = isASCII s.
Proof.
  induction s as [|c s IH]; [done|].
  rewrite str_rev_cons, isASCII_app, IH. simpl. by rewrite andb_true_r, andb_comm.
Qed.

(** A byte map that keeps high bytes high and white space white commutes
    with [TrimSpace] on ASCII text. *)
Section trim_map.
Variable f : ascii → ascii.
Hypothesis f_high : ∀ c, is_high (f c) = is_high c.
Hypothesis f_space : ∀ c, asciiSpace (f c) = asciiSpace c.

Lemma trim_right_rev_smap (r : string) :
  isASCII r = true → trim_right_rev (smap f r) = smap f (trim_right_rev r).
Proof.
  induction r as [|c r IH]; [done|]. intros [Hc Hr]%andb_true_iff.
  apply negb_true_iff in Hc.
  change (smap f (String c r)) with (String (f c) (smap f r)).
  simpl. rewrite f_high, f_space, Hc.
  destruct (asciiSpace c); [by apply IH|].
  change (String (f c) (smap f r)) with (smap f (String c r)).
  by rewrite smap_rev.
Qed.

Lemma TrimSpace_smap (s : string) :
  isASCII s = true → TrimSpace (smap f s) = smap f (TrimSpace s).
Proof.
  induction s as [|c s IH]; [done|]. intros Hs.
  pose proof Hs as [Hc Hr]%andb_true_iff. apply negb_true_iff in Hc.
  change (smap f (String c s)) with (String (f c) (smap f s)).
  simpl. rewrite f_high, f_space, Hc.
  destruct (asciiSpace c); [by apply IH|].
  change (String (f c) (smap f s)) with (smap f (String c s)).
  rewrite <-smap_rev. apply trim_right_rev_smap. by rewrite isASCII_rev.
Qed.
End trim_map.

Lemma lower_byte_high (c : ascii) : is_high (lower_byte c) = is_high c.
Proof. by destruct c as [[] [] [] [] [] [] [] []]. Qed.

Lemma lower_byte_space (c : ascii) : asciiSpace (lower_byte c) = asciiSpace c.
Proof. by destruct c as [[] [] [] [] [] [] [] []]. Qed.

Lemma TrimSpace_ToLower (s : string) :
  isASCII s = true → TrimSpace (ToLower s) = smap lower_byte (TrimSpace s).
Proof.
  intros Hs. unfold ToLower. rewrite Hs.
  apply TrimSpace_smap; auto using lower_byte_high, lower_byte_space.
Qed.

Lemma lower_byte_y (c : ascii) :
  lower_byte c = "y"%char → c = "y"%char ∨ c = "Y"%char.
Proof.
  destruct c as [[] [] [] [] [] [] [] []]; vm_compute; intros;
    first [discriminate | by left | by right].
Qed.

Lemma lower_byte_e (c : ascii) :
  lower_byte c = "e"%char → c = "e"%char ∨ c = "E"%char.
Proof.
  destruct c as [[] [] [] [] [] [] [] []]; vm_compute; intros;
    first [discriminate | by left | by right].
Qed.

Lemma lower_byte_s (c : ascii) :
  lower_byte c = "s"%char → c = "s"%char ∨ c = "S"%char.
Proof.
  destruct c as [[] [] [] [] [] [] [] []]; vm_compute; intros;
    first [discriminate | by left | by right].
Qed.

Lemma lower_is_yes (t : string) :
  smap lower_byte t = "y" ∨ smap lower_byte t = "yes" ↔ t ∈ yes_answers.
Proof.
  unfold yes_answers. split.
  - intros [Hy|Hyes].
    + destruct t as [|c [|]]; simplify_eq/=.
      destruct (lower_byte_y c) as [-> | ->]; [done|..];
        rewrite ?elem_of_cons, ?elem_of_nil; tauto.
    + destruct t as [|c1 [|c2 [|c3 [|]]]]; simplify_eq/=.
      destruct (lower_byte_y c1) as [-> | ->]; [done|..];
      destruct (lower_byte_e c2) as [-> | ->]; try done;
      destruct (lower_byte_s c3) as [-> | ->]; try done;
      rewrite ?elem_of_cons, ?elem_of_nil; tauto.
  - rewrite !elem_of_cons, elem_of_nil.
    intros H'; repeat destruct H' as [-> | H']; try done; vm_compute; auto.
Qed.

Lemma lower_is_empty (t : string) : smap lower_byte t = "" ↔ t = "".
Proof. by destruct t. Qed.

(** The answers of the two yes-or-no prompts, from the line they read. *)
Lemma promptBool_answer (reader : nat) (prompt : string) (w : World) :
  (promptBool reader prompt w).1
  = bool_decide (TrimSpace (ToLower (ReadString reader w).1.1) = "y")
    || bool_decide (TrimSpace (ToLower (ReadString reader w).1.1) = "yes").
Proof.
  unfold promptBool, mbind, IO_bind, mret, IO_ret.
  by destruct (ReadString reader w) as [[l e] w'].
Qed.

Lemma confirm_answer (prompt : string) (w : World) :
  let line := (ReadString (length (readers w)) (NewReader w).2).1.1 in
  (confirm prompt w).1
  = bool_decide (TrimSpace (ToLower line) = "")
    || bool_decide (TrimSpace (ToLower line) = "y")
    || bool_decide (TrimSpace (ToLower line) = "yes").
Proof.
  unfold confirm, mbind, IO_bind, mret, IO_ret. simpl.
  by destruct (ReadString _ _) as [[l e] w'].
Qed.

End text.

(** C7. [promptBool] answers true exactly when the line it reads,
    lowercased and trimmed, is "y" or "yes"; on an ASCII line that is when
    the trimmed line is one of the spellings of y and yes in either case.
    Every other line gives false, the empty line and the end of input
    included. *)
Theorem promptBool_true_iff_yes `{Unicode} (reader : nat) (prompt : string) (w : World) :
  let line := (ReadString reader w).1.1 in
  let answer := (promptBool reader prompt w).1 in
  (answer = true ↔ TrimSpace (ToLower line) ∈ ["y"; "yes"])
  ∧ (isASCII line = true → (answer = true ↔ TrimSpace line ∈ yes_answers))
  ∧ (line ∈ [""; nl] → answer = false).
Proof.
  intros line answer.
  assert (Hans : answer = bool_decide (TrimSpace (ToLower line) = "y")
                       || bool_decide (TrimSpace (ToLower line) = "yes")).
  { apply promptBool_answer. }
  assert (Hiff : answer = true ↔ TrimSpace (ToLower line) ∈ ["y"; "yes"]).
  { rewrite Hans, orb_true_iff, !bool_decide_eq_true, !elem_of_cons, elem_of_nil.
    tauto. }
  split; [done|]. split.
  - intros Hascii. rewrite Hiff, TrimSpace_ToLower by done.
    rewrite <-lower_is_yes, !elem_of_cons, elem_of_nil. tauto.
  - rewrite Hans, !elem_of_cons, elem_of_nil. by intros [-> | [-> | []]].
Qed.

(** C9. [confirm] makes a new reader and answers true exactly when the
    line it reads, lowercased and trimmed, is empty, "y" or "yes"; so the
    empty line and the end of input accept, where [promptBool] refuses
    them. *)
Theorem confirm_true_iff_empty_or_yes `{Unicode} (prompt : string) (w : World) :
  let line := (ReadString (length (readers w)) (NewReader w).2).1.1 in
  let answer := (confirm prompt w).1 in
  (answer = true ↔ TrimSpace (ToLower line) ∈ [""; "y"; "yes"])
  ∧ (isASCII line = true →
     (answer = true ↔ TrimSpace line = "" ∨ TrimSpace line ∈ yes_answers))
  ∧ (line ∈ [""; nl] → answer = true)
  ∧ (stdin w = [] → line = "" ∧ answer = true)
  ∧ (∀ reader q, (ReadString reader w).1.1 ∈ [""; nl] →
       (promptBool reader q w).1 = false).
Proof.
  intros line answer.
  assert (Hans : answer = bool_decide (TrimSpace (ToLower line) = "")
                       || bool_decide (TrimSpace (ToLower line) = "y")
                       || bool_decide (TrimSpace (ToLower line) = "yes")).
  { apply confirm_answer. }
  assert (Hiff : answer = true ↔ TrimSpace (ToLower line) ∈ [""; "y"; "yes"]).
  { rewrite Hans, !orb_true_iff, !bool_decide_eq_true, !elem_of_cons, elem_of_nil.
    tauto. }
  split; [done|]. split; [|split; [|split]].
  - intros Hascii. rewrite Hiff, TrimSpace_ToLower by done.
    rewrite <-lower_is_yes, <-lower_is_empty, !elem_of_cons, elem_of_nil. tauto.
  - rewrite Hans, !elem_of_cons, elem_of_nil. by intros [-> | [-> | []]].
  - intros Hin.
    assert (Hl : line = "").
    { unfold line, ReadString, NewReader. simpl. rewrite Hin.
      rewrite lookup_app_r by done. rewrite Nat.sub_diag. done. }
    split; [done|]. rewrite Hans, Hl. done.
  - intros reader q. rewrite promptBool_answer, !elem_of_cons, elem_of_nil.
    by intros [-> | [-> | []]].
Qed.

Example confirm_accepts_end_of_input :
  (@confirm bytewise "Create project?"
     {| fs := ∅; cwd := []; umask := 18; stdin := []; readers := [] |}).1 = true.
Proof. reflexivity. Qed.

Section replace.
Context `{Unicode}.

Lemma str_prefix_nil (s : string) : String.prefix "" s = true.
Proof. by destruct s. Qed.

Lemma str_prefix_cons (a b : ascii) (p s : string) :
  String.prefix (String a p) (String b s) = bool_decide (a = b) && String.prefix p s.
Proof.
  simpl. destruct (ascii_dec a b);
    [by rewrite bool_decide_eq_true_2|by rewrite bool_decide_eq_false_2].
Qed.

Lemma str_prefix_split (p s : string) :
  String.prefix p s = true → s = p +:+ sdrop (String.length p) s.
Proof.
  revert s. induction p as [|a p IH]; intros s Hp; [by destruct s|].
  destruct s as [|b s]; [done|]. rewrite str_prefix_cons in Hp.
  apply andb_true_iff in Hp as [->%bool_decide_eq_true Hp].
  rewrite str_app_cons. simpl. f_equal. by apply IH.
Qed.

Lemma str_prefix_length (p s : string) :
  String.prefix p s = true → String.length p ≤ String.length s.
Proof.
  intros Hp%str_prefix_split. rewrite Hp, str_length_app. lia.
Qed.

Lemma str_app_inj_length (a b x y : string) :
  a +:+ x = b +:+ y → String.length a = String.length b → a = b.
Proof.
  revert b. induction a as [|c a IH]; intros [|d b] Heq Hlen; try done.
  rewrite !str_app_cons in Heq. simpl in Hlen. simplify_eq. f_equal. eauto.
Qed.

Lemma replace_scan_0 (old new : string) (c : ascii) (s : string) :
  replace_scan old new 0 (String c s) =
  if HasPrefix (String c s) old
  then new +:+ replace_scan old new (String.length old - 1) s
  else String c (replace_scan old new 0 s).
Proof. done. Qed.

Lemma Contains_cons (c : ascii) (s sub : string) :
  Contains (String c s) sub = HasPrefix (String c s) sub || Contains s sub.
Proof. done. Qed.

Section scan.
Variables old new : string.
Hypothesis old_nonempty : old ≠ "".

Lemma replace_scan_shorter (s : string) (k : nat) :
  String.length new ≤ String.length old →
  String.length (replace_scan old new k s) + k `min` String.length s ≤ String.length s.
Proof.
  intros Hlen. revert k. induction s as [|c s IH]; intros k; [simpl; lia|].
  destruct k as [|k]; [|specialize (IH k); simpl; lia].
  rewrite replace_scan_0. destruct (HasPrefix (String c s) old) eqn:Hp.
  - apply str_prefix_length in Hp. rewrite str_length_app.
    specialize (IH (String.length old - 1)).
    destruct old; [done|]. simpl in *. lia.
  - specialize (IH 0). simpl in *. lia.
Qed.

Lemma replace_scan_longer (s : string) (k : nat) :
  String.length old ≤ String.length new →
  String.length s ≤ String.length (replace_scan old new k s) + k `min` String.length s.
Proof.
  intros Hlen. revert k. induction s as [|c s IH]; intros k; [simpl; lia|].
  destruct k as [|k]; [|specialize (IH k); simpl; lia].
  rewrite replace_scan_0. destruct (HasPrefix (String c s) old) eqn:Hp.
  - apply str_prefix_length in Hp. rewrite str_length_app.
    specialize (IH (String.length old - 1)).
    destruct old; [done|]. simpl in *. lia.
  - specialize (IH 0). simpl in *. lia.
Qed.

(** Without an occurrence the scan copies the text. *)
Lemma replace_scan_absent (s : string) :
  Contains s old = false → replace_scan old new 0 s = s.
Proof.
  induction s as [|c s IH]; [done|]. rewrite Contains_cons, replace_scan_0.
  intros [Hp Hc]%orb_false_iff. rewrite Hp. f_equal. by apply IH.
Qed.

(** The scan changes a text that holds an occurrence, unless it replaces
    the pattern by itself. *)
Lemma replace_scan_fixed (s : string) :
  old ≠ new → replace_scan old new 0 s = s → Contains s old = false.
Proof.
  intros Hne. induction s as [|c s IH].
  - intros _. simpl. unfold HasPrefix. by destruct old.
  - rewrite Contains_cons, replace_scan_0.
    destruct (HasPrefix (String c s) old) eqn:Hp.
    + intros Heq. exfalso. apply Hne. symmetry.
      pose proof (str_prefix_length _ _ Hp) as Hlen. simpl in Hlen.
      pose proof (str_prefix_split _ _ Hp) as Hsplit.
      assert (Hl : String.length (new +:+ replace_scan old new (String.length old - 1) s)
                   = S (String.length s)) by by rewrite Heq.
      rewrite str_length_app in Hl.
      rewrite <-Heq in Hsplit at 1.
      apply str_app_inj_length in Hsplit; [done|].
      destruct (decide (String.length new ≤ String.length old)) as [Hle|Hgt].
      * pose proof (replace_scan_shorter s (String.length old - 1) Hle).
        destruct old; [done|]. simpl in *. lia.
      * pose proof (replace_scan_longer s (String.length old - 1) ltac:(lia)).
        destruct old; [done|]. simpl in *. lia.
    + intros Heq. simplify_eq. rewrite IH by done. done.
Qed.
End scan.

Lemma ReplaceAll_nonempty (s old new : string) :
  old ≠ "" → old ≠ new → ReplaceAll s old new = replace_scan old new 0 s.
Proof. intros Hne Hon. unfold ReplaceAll. rewrite decide_False by done. by destruct old. Qed.

(** [ReplaceAll] leaves a text as it is exactly when the text has no
    occurrence of the pattern, or the pattern is replaced by itself. *)
Lemma ReplaceAll_fixed (s old new : string) :
  old ≠ "" → (ReplaceAll s old new = s ↔ old = new ∨ Contains s old = false).
Proof.
  intros Hne. destruct (decide (old = new)) as [->|Hon].
  - unfold ReplaceAll. rewrite decide_True by done. naive_solver.
  - rewrite ReplaceAll_nonempty by done. split.
    + intros Heq. right. by eapply replace_scan_fixed.
    + intros [?|Hc]; [done|]. by apply replace_scan_absent.
Qed.

End replace.

(** C3, as the code has it.  A second rewrite changes nothing exactly
    when the module path is the default one or the rewritten content
    holds no occurrence of the default module path. *)
Theorem rewrite_twice_unchanged_iff `{Unicode} (content modulePath : string) :
  let once := ReplaceAll content oldModule modulePath in
  ReplaceAll once oldModule modulePath = once
  ↔ modulePath = oldModule ∨ Contains once oldModule = false.
Proof.
  intros once. rewrite ReplaceAll_fixed by done. intuition congruence.
Qed.

(** C3 fails for a module path that holds the default one: the second
    rewrite substitutes inside the first one's result. *)
Lemma rewrite_twice_changes_v2 :
  let modulePath := "github.com/rahmatrdn/go-skeleton/v2" in
  let content := "import github.com/rahmatrdn/go-skeleton/config" in
  let once := @ReplaceAll bytewise content oldModule modulePath in
  once = "import github.com/rahmatrdn/go-skeleton/v2/config"
  ∧ @ReplaceAll bytewise once oldModule modulePath
    = "import github.com/rahmatrdn/go-skeleton/v2/v2/config"
  ∧ @ReplaceAll bytewise once oldModule modulePath ≠ once.
Proof. repeat split; [reflexivity..|discriminate]. Qed.

(** ** The compose document *)

Section compose.
Context `{Unicode}.

Lemma Contains_byte_cons (b c : ascii) (s : string) :
  Contains (String b s) (String c "") = bool_decide (c = b) || Contains s (String c "").
Proof.
  rewrite Contains_cons. unfold HasPrefix. by rewrite str_prefix_cons, str_prefix_nil, andb_true_r.
Qed.

Lemma Contains_byte_app (c : ascii) (s t : string) :
  Contains (s +:+ t) (String c "")
  = Contains s (String c "") || Contains t (String c "").
Proof.
  induction s as [|b s IH].
  - by destruct t.
  - by rewrite str_app_cons, !Contains_byte_cons, IH, orb_assoc.
Qed.

Lemma split_scan_0 (sep cur : string) (c : ascii) (s : string) :
  split_scan sep 0 cur (String c s) =
  if HasPrefix (String c s) sep
  then cur :: split_scan sep (String.length sep - 1) "" s
  else split_scan sep 0 (cur +:+ String c "") s.
Proof. done. Qed.

Lemma HasPrefix_byte (b c : ascii) (s : string) :
  HasPrefix (String b s) (String c "") = bool_decide (c = b).
Proof. unfold HasPrefix. by rewrite str_prefix_cons, str_prefix_nil, andb_true_r. Qed.

Lemma split_scan_line (cur line rest : string) :
  Contains line nl = false →
  split_scan nl 0 cur (line +:+ nl +:+ rest) = (cur +:+ line) :: split_scan nl 0 "" rest.
Proof.
  revert cur. induction line as [|b line IH]; intros cur Hnl.
  - rewrite str_app_nil_r. change ("" +:+ nl +:+ rest) with (String newline rest).
    unfold nl. by rewrite split_scan_0, HasPrefix_byte, bool_decide_eq_true_2.
  - unfold nl in *. rewrite Contains_byte_cons in Hnl.
    apply orb_false_iff in Hnl as [Hb Hnl].
    rewrite str_app_cons, split_scan_0, HasPrefix_byte, Hb.
    rewrite IH by done. by rewrite str_app_assoc.
Qed.

Lemma Split_unlines (lines : list string) :
  Forall (λ line, Contains line nl = false) lines →
  Split (unlines lines) nl = lines ++ [""].
Proof.
  unfold Split. simpl. induction 1 as [|line lines Hline _ IH]; [done|].
  simpl. by rewrite split_scan_line, IH.
Qed.

Lemma str_prefix_app (p s : string) : String.prefix p (p +:+ s) = true.
Proof.
  induction p as [|a p IH]; [apply str_prefix_nil|].
  by rewrite str_app_cons, str_prefix_cons, bool_decide_eq_true_2, IH.
Qed.

Lemma Contains_here (sub s : string) : Contains (sub +:+ s) sub = true.
Proof.
  assert (Hp : HasPrefix (sub +:+ s) sub = true) by apply str_prefix_app.
  destruct (sub +:+ s); simpl; by rewrite Hp.
Qed.

Lemma Contains_later (s t sub : string) :
  Contains t sub = true → Contains (s +:+ t) sub = true.
Proof.
  intros Ht. induction s as [|c s IH]; [done|].
  by rewrite str_app_cons, Contains_cons, IH, orb_true_r.
Qed.

Lemma Contains_unlines (line : string) (lines : list string) :
  line ∈ lines → Contains (unlines lines) (line +:+ nl) = true.
Proof.
  induction 1 as [line lines|line other lines _ IH]; simpl.
  - rewrite <-str_app_assoc. apply Contains_here.
  - rewrite <-str_app_assoc. by apply Contains_later.
Qed.

Lemma unlines_app (l1 l2 : list string) :
  unlines (l1 ++ l2) = unlines l1 +:+ unlines l2.
Proof.
  induction l1 as [|line l1 IH]; [done|].
  simpl. by rewrite IH, !str_app_assoc.
Qed.

(** The generated document is the lines of [compose_lines]. *)
Lemma compose_shape (c : ProjectConfig) :
  Database c ∈ ["mysql"; "postgresql"; "mongodb"] →
  generateDevcontainerDockerCompose c
  = unlines (compose_lines (Database c) (UseRedis c) (UseRabbitMQ c)
               (sanitizeName (ProjectName c))).
Proof.
  destruct c as [name ppath mpath db redis rabbit].
  cbn [ProjectName Database UseRedis UseRabbitMQ].
  rewrite !elem_of_cons, elem_of_nil.
  unfold generateDevcontainerDockerCompose.
  cbn [ProjectName Database UseRedis UseRabbitMQ].
  generalize (sanitizeName name). intros dbName.
  intros [-> | [-> | [-> | []]]]; destruct redis, rabbit;
    match goal with |- _ = ?rhs => set (lines := rhs) end;
    simpl; rewrite ?str_app_assoc; reflexivity.
Qed.

Lemma compose_lines_single (database dbName : string) (redis rabbitmq : bool) :
  Contains dbName nl = false →
  Forall (λ line, Contains line nl = false)
    (compose_lines database redis rabbitmq dbName).
Proof.
  intros Hnl. unfold compose_lines, compose_db, compose_volumes.
  repeat case_decide; destruct redis, rabbitmq; simpl;
    repeat (apply Forall_cons; split;
            [first [reflexivity
                   | unfold nl in *; rewrite Contains_byte_app, Hnl; reflexivity]|]);
    apply Forall_nil_2.
Qed.

Lemma compose_Split (c : ProjectConfig) :
  Database c ∈ ["mysql"; "postgresql"; "mongodb"] →
  Contains (sanitizeName (ProjectName c)) nl = false →
  Split (generateDevcontainerDockerCompose c) nl
  = compose_lines (Database c) (UseRedis c) (UseRabbitMQ c)
      (sanitizeName (ProjectName c)) ++ [""].
Proof.
  intros Hdb Hnl. rewrite compose_shape by done.
  apply Split_unlines. by apply compose_lines_single.
Qed.

End compose.

(** C4. For each of the three databases and a project name whose database
    name is a single line, the services of the generated document are
    app, db, then redis exactly when Redis is selected and rabbitmq exactly
    when RabbitMQ is selected; its volumes are the volume of the selected
    database, then redis-data and rabbitmq-data under the same conditions. *)
Theorem compose_declares_selected_only `{Unicode} (c : ProjectConfig) :
  Database c ∈ ["mysql"; "postgresql"; "mongodb"] →
  Contains (sanitizeName (ProjectName c)) nl = false →
  let doc := generateDevcontainerDockerCompose c in
  services_of doc
  = ["app"; "db"] ++ (if UseRedis c then ["redis"] else [])
    ++ (if UseRabbitMQ c then ["rabbitmq"] else [])
  ∧ volumes_of doc
    = [db_volume (Database c)] ++ (if UseRedis c then ["redis-data"] else [])
      ++ (if UseRabbitMQ c then ["rabbitmq-data"] else [])
  ∧ ("redis" ∈ services_of doc ↔ UseRedis c = true)
  ∧ ("redis-data" ∈ volumes_of doc ↔ UseRedis c = true)
  ∧ ("rabbitmq" ∈ services_of doc ↔ UseRabbitMQ c = true)
  ∧ ("rabbitmq-data" ∈ volumes_of doc ↔ UseRabbitMQ c = true)
  ∧ filter (λ v, v ∈ ["mysql-data"; "postgres-data"; "mongodb-data"]) (volumes_of doc)
    = [db_volume (Database c)].
Proof.
  intros Hdb Hnl doc.
  assert (Hs : services_of doc
    = ["app"; "db"] ++ (if UseRedis c then ["redis"] else [])
      ++ (if UseRabbitMQ c then ["rabbitmq"] else [])).
  { unfold services_of, doc. rewrite compose_Split by done.
    generalize (sanitizeName (ProjectName c)). intros dbName.
    revert Hdb. rewrite !elem_of_cons, elem_of_nil.
    intros [-> | [-> | [-> | []]]]; destruct (UseRedis c), (UseRabbitMQ c); reflexivity. }
  assert (Hv : volumes_of doc
    = [db_volume (Database c)] ++ (if UseRedis c then ["redis-data"] else [])
      ++ (if UseRabbitMQ c then ["rabbitmq-data"] else [])).
  { unfold volumes_of, doc. rewrite compose_Split by done.
    generalize (sanitizeName (ProjectName c)). intros dbName.
    revert Hdb. rewrite !elem_of_cons, elem_of_nil.
    intros [-> | [-> | [-> | []]]]; destruct (UseRedis c), (UseRabbitMQ c); reflexivity. }
  rewrite Hs, Hv. split; [done|]. split; [done|].
  revert Hdb. rewrite !elem_of_cons, elem_of_nil.
  intros [-> | [-> | [-> | []]]]; destruct (UseRedis c), (UseRabbitMQ c);
    repeat split; try done;
    first [ intros _; apply (bool_decide_unpack _); by vm_compute
          | intros Hin%(bool_decide_pack _); by vm_compute in Hin ].
Qed.

(** ** The database name *)

Section sanitize.
Context `{Unicode}.

Lemma replace_hyphens (s : string) :
  ReplaceAll s "-" "_" = smap hyphen_to_underscore s.
Proof.
  rewrite ReplaceAll_nonempty by done.
  induction s as [|c s IH]; [done|].
  rewrite replace_scan_0, HasPrefix_byte. simpl. unfold hyphen_to_underscore at 1.
  rewrite (bool_decide_ext ("-"%char = c) (c = "-"%char)) by done.
  destruct (bool_decide (c = "-"%char)); by rewrite IH.
Qed.

Lemma smap_smap (f g : ascii → ascii) (s : string) :
  smap f (smap g s) = smap (λ c, f (g c)) s.
Proof. induction s as [|c s IH]; [done|]. simpl. by rewrite IH. Qed.

Lemma smap_ext (f g : ascii → ascii) (s : string) :
  (∀ c, f c = g c) → smap f s = smap g s.
Proof. intros Hfg. induction s as [|c s IH]; [done|]. simpl. by rewrite Hfg, IH. Qed.

Lemma all_bytes_smap (P : ascii → bool) (f : ascii → ascii) (s : string) :
  (∀ c, P (f c) = true) → all_bytes P (smap f s) = true.
Proof. intros HP. induction s as [|c s IH]; [done|]. simpl. by rewrite HP, IH. Qed.

Lemma isASCII_smap (f : ascii → ascii) (s : string) :
  (∀ c, is_high (f c) = is_high c) → isASCII (smap f s) = isASCII s.
Proof. intros Hf. induction s as [|c s IH]; [done|]. simpl. by rewrite Hf, IH. Qed.

Lemma sanitize_byte_spec (c : ascii) :
  hyphen_to_underscore (lower_byte c) = sanitize_byte c.
Proof. by destruct c as [[] [] [] [] [] [] [] []]. Qed.

Lemma sanitize_byte_high (c : ascii) : is_high (sanitize_byte c) = is_high c.
Proof. by destruct c as [[] [] [] [] [] [] [] []]. Qed.

Lemma sanitize_byte_idemp (c : ascii) : sanitize_byte (sanitize_byte c) = sanitize_byte c.
Proof. by destruct c as [[] [] [] [] [] [] [] []]. Qed.

Lemma sanitize_byte_plain (c : ascii) :
  negb (is_upper (sanitize_byte c)) && negb (bool_decide (sanitize_byte c = "-"%char)) = true.
Proof. by destruct c as [[] [] [] [] [] [] [] []]. Qed.

Lemma hyphen_to_underscore_plain (c : ascii) :
  negb (bool_decide (hyphen_to_underscore c = "-"%char)) = true.
Proof. by destruct c as [[] [] [] [] [] [] [] []]. Qed.

(** On an ASCII name the code computes the specification's name. *)
Lemma sanitizeName_ascii (name : string) :
  isASCII name = true → sanitizeName name = lowercased_with_underscores name.
Proof.
  intros Hn. unfold sanitizeName, ToLower, lowercased_with_underscores.
  rewrite Hn, replace_hyphens, smap_smap.
  apply smap_ext, sanitize_byte_spec.
Qed.

(** Whatever the name, no hyphen is left. *)
Lemma sanitizeName_no_hyphen (name : string) :
  all_bytes (λ c, negb (bool_decide (c = "-"%char))) (sanitizeName name) = true.
Proof.
  unfold sanitizeName. rewrite replace_hyphens.
  apply all_bytes_smap, hyphen_to_underscore_plain.
Qed.

Lemma WriteFile_existing (p : path) (data : string) (perm mode : Z) (old : string)
    (w : World) :
  fs w !! p = Some (File mode old) →
  WriteFile p data perm w = (None, set_fs <[p := File mode data]> w).
Proof.
  intros Hp. unfold WriteFile, check, create_trunc, write_data, mbind, IO_bind.
  rewrite Hp. simpl. rewrite lookup_insert_eq. unfold set_fs. simpl.
  by rewrite insert_insert_eq.
Qed.

End sanitize.

(** C10. For an ASCII project name and each of the three databases: the
    generated document gives the database its name on the line of the
    database's key, and [updateEnvFiles] puts the same name in place of
    PROJECT_DB_NAME in .devcontainer/.env.devcontainer; that name is the
    project name with capitals made small and hyphens made underscores; it
    holds no hyphen and no capital; sanitizing it again changes nothing. *)
Theorem database_name_sanitized `{Unicode} (c : ProjectConfig) (w : World) :
  isASCII (ProjectName c) = true →
  Database c ∈ ["mysql"; "postgresql"; "mongodb"] →
  let dbName := lowercased_with_underscores (ProjectName c) in
  let env := Join w (ProjectPath c) [".devcontainer"; ".env.devcontainer"] in
  sanitizeName (ProjectName c) = dbName
  ∧ Contains (generateDevcontainerDockerCompose c)
      (db_key (Database c) +:+ dbName +:+ nl) = true
  ∧ (∀ mode content, fs w !! env = Some (File mode content) →
       updateEnvFiles c w
       = (None, set_fs <[env := File mode (ReplaceAll content "PROJECT_DB_NAME" dbName)]> w))
  ∧ all_bytes (λ b, negb (is_upper b) && negb (bool_decide (b = "-"%char))) dbName = true
  ∧ sanitizeName dbName = dbName.
Proof.
  intros Hascii Hdb dbName env.
  assert (Hname : sanitizeName (ProjectName c) = dbName) by by apply sanitizeName_ascii.
  split; [done|]. split; [|split; [|split]].
  - rewrite compose_shape, Hname by done. rewrite <-str_app_assoc.
    apply Contains_unlines.
    unfold compose_lines, compose_db, db_key.
    revert Hdb. rewrite !elem_of_cons, elem_of_nil.
    intros [-> | [-> | [-> | []]]]; destruct (UseRedis c), (UseRabbitMQ c); simpl;
      repeat first [apply list_elem_of_here | apply list_elem_of_further].
  - intros mode content Henv.
    unfold updateEnvFiles, joined, ReadFile, mbind, IO_bind. fold env.
    rewrite Henv, Hname. by eapply WriteFile_existing.
  - apply all_bytes_smap, sanitize_byte_plain.
  - unfold dbName, lowercased_with_underscores.
    rewrite sanitizeName_ascii.
    + unfold lowercased_with_underscores. rewrite smap_smap.
      apply smap_ext, sanitize_byte_idemp.
    + rewrite isASCII_smap by apply sanitize_byte_high. done.
Qed.

(** ** Running the state transformers *)

Lemma run_bind {A B} (m : IO A) (k : A → IO B) (w : World) :
  (m ≫= k) w = k (m w).1 (m w).2.
Proof. unfold mbind, IO_bind. by destruct (m w). Qed.

Lemma run_ret {A} (a : A) (w : World) : (mret a : IO A) w = (a, w).
Proof. done. Qed.

Lemma run_joined (base : string) (rel : path) (w : World) :
  joined base rel w = (Join w base rel, w).
Proof. done. Qed.

Lemma Join_root (w : World) (config : ProjectConfig) (rel : path) :
  Join w (ProjectPath config) rel = project_root w config ++ rel.
Proof.
  unfold project_root, Join. destruct (resolve _ _); by rewrite app_nil_r.
Qed.

Lemma Remove_only_removes (q : path) : only_removes (λ w, (Remove q w).2).
Proof.
  intros w. unfold Remove.
  destruct (fs w !! q) as [[m d|m]|] eqn:Hq; [| destruct (readDirNames _ _) |];
    simpl; (split; [done|]); intros p; auto;
    destruct (decide (q = p)) as [->|];
    [left; apply lookup_delete_eq | right; by apply lookup_delete_ne
    |left; apply lookup_delete_eq | right; by apply lookup_delete_ne].
Qed.

Lemma RemoveAll_only_removes (q : path) : only_removes (λ w, (RemoveAll q w).2).
Proof.
  intros w. unfold RemoveAll. simpl. split; [done|]. intros p.
  destruct (fs w !! p) as [n|] eqn:Hp.
  - destruct (decide (q `prefix_of` p)) as [Hpre|Hpre].
    + left. apply map_lookup_filter_None. right. intros n' _. simpl. tauto.
    + right. apply map_lookup_filter_Some. done.
  - left. apply map_lookup_filter_None. by left.
Qed.

Lemma Remove_leaves (q : path) : leaves (λ p, p ≠ q) (λ w, (Remove q w).2).
Proof.
  intros w. unfold Remove.
  destruct (fs w !! q) as [[m d|m]|] eqn:Hq; [| destruct (readDirNames _ _) |];
    simpl; (split; [done|]); intros p Hp; auto; by apply lookup_delete_ne.
Qed.

Lemma RemoveAll_leaves (q : path) :
  leaves (λ p, ¬ q `prefix_of` p) (λ w, (RemoveAll q w).2).
Proof.
  intros w. unfold RemoveAll. simpl. split; [done|]. intros p Hp.
  destruct (fs w !! p) as [n|] eqn:Hn.
  - by apply map_lookup_filter_Some.
  - apply map_lookup_filter_None. by left.
Qed.

Lemma RemoveAll_gone (q p : path) (w : World) :
  q `prefix_of` p → fs (RemoveAll q w).2 !! p = None.
Proof.
  intros Hpre. unfold RemoveAll. simpl.
  apply map_lookup_filter_None. right. intros n _. simpl. tauto.
Qed.

Lemma Remove_file_gone (q : path) (w : World) (m : Z) (d : string) :
  fs w !! q = Some (File m d) → fs (Remove q w).2 !! q = None.
Proof. intros Hq. unfold Remove. rewrite Hq. simpl. apply lookup_delete_eq. Qed.

(** Loops: a property every round keeps holds at the end; a property
    one round establishes and every round keeps holds at the end. *)
Lemma for_each_keeps {A} (I : World → Prop) (body : A → IO ()) (l : list A) (w : World) :
  (∀ x w, x ∈ l → I w → I (body x w).2) → I w → I (for_each l body w).2.
Proof.
  revert w. induction l as [|x l IH]; intros w Hbody Hw; [done|].
  simpl. rewrite run_bind. apply IH.
  - intros y w' Hy. apply Hbody. by right.
  - apply Hbody; [by left|done].
Qed.

Lemma for_each_reaches {A} (I J : World → Prop) (body : A → IO ()) (l : list A)
    (x0 : A) (w : World) :
  x0 ∈ l →
  (∀ x w, x ∈ l → I w → I (body x w).2) →
  (∀ x w, x ∈ l → J w → J (body x w).2) →
  (∀ w, I w → J (body x0 w).2) →
  I w → J (for_each l body w).2.
Proof.
  intros Hin HI HJ H0. revert w. induction l as [|x l IH]; intros w Hw.
  - by apply elem_of_nil in Hin.
  - simpl. rewrite run_bind. apply elem_of_cons in Hin as [<-|Hin].
    + apply for_each_keeps.
      * intros y w' Hy. apply HJ. by right.
      * by apply H0.
    + apply IH; [done|..].
      * intros y w' Hy. apply HI. by right.
      * intros y w' Hy. apply HJ. by right.
      * apply HI; [by left|done].
Qed.

(** ** Pruning *)

Section frames.

Lemma Join_cwd (w w' : World) (base : string) (rel : path) :
  cwd w' = cwd w → Join w' base rel = Join w base rel.
Proof. intros Hc. unfold Join, resolve. by rewrite Hc. Qed.

Lemma only_removes_bind {A B} (m : IO A) (k : A → IO B) :
  only_removes (λ w, (m w).2) → (∀ a, only_removes (λ w, (k a w).2)) →
  only_removes (λ w, ((m ≫= k) w).2).
Proof.
  intros Hm Hk w. rewrite run_bind.
  destruct (Hm w) as [Hc1 H1], (Hk (m w).1 (m w).2) as [Hc2 H2]. simpl in *.
  split; [congruence|]. intros p.
  destruct (H2 p) as [-> | ->]; [by left|]. apply H1.
Qed.

Lemma only_removes_pure {A} (f : World → A) : only_removes (λ w, (f w, w).2).
Proof. intros w. simpl. auto. Qed.

Lemma only_removes_for_each {A} (body : A → IO ()) (l : list A) :
  (∀ x, only_removes (λ w, (body x w).2)) →
  only_removes (λ w, (for_each l body w).2).
Proof.
  intros Hbody. induction l as [|x l IH]; [apply (only_removes_pure (λ _, ()))|].
  simpl. apply only_removes_bind; auto.
Qed.

Lemma leaves_bind {A B} (keep : path → Prop) (m : IO A) (k : A → IO B) :
  leaves keep (λ w, (m w).2) → (∀ a, leaves keep (λ w, (k a w).2)) →
  leaves keep (λ w, ((m ≫= k) w).2).
Proof.
  intros Hm Hk w. rewrite run_bind.
  destruct (Hm w) as [Hc1 H1], (Hk (m w).1 (m w).2) as [Hc2 H2]. simpl in *.
  split; [congruence|]. intros p Hp. rewrite H2, H1; done.
Qed.

Lemma leaves_pure {A} (keep : path → Prop) (f : World → A) :
  leaves keep (λ w, (f w, w).2).
Proof. intros w. simpl. auto. Qed.

Lemma leaves_for_each {A} (keep : path → Prop) (body : A → IO ()) (l : list A) :
  (∀ x, x ∈ l → leaves keep (λ w, (body x w).2)) →
  leaves keep (λ w, (for_each l body w).2).
Proof.
  induction l as [|x l IH]; intros Hbody; [apply (leaves_pure _ (λ _, ()))|].
  simpl. apply leaves_bind.
  - apply Hbody. by left.
  - intros _. apply IH. intros y Hy. apply Hbody. by right.
Qed.

Lemma leaves_weaken (keep keep' : path → Prop) (step : World → World) :
  (∀ p, keep' p → keep p) → leaves keep step → leaves keep' step.
Proof. intros Hk Hs w. destruct (Hs w) as [? Hp]. split; [done|]. auto. Qed.

End frames.

Ltac io_steps :=
  repeat first
    [ apply only_removes_bind; [|intros ?]
    | apply only_removes_for_each; intros [? ?]
    | apply (only_removes_pure (λ w, _))
    | apply Remove_only_removes
    | apply RemoveAll_only_removes
    | match goal with
      | |- context [if ?b then _ else _] => destruct b
      end ].

Section cleanup.
Context `{RangeOrder}.

Lemma cleanupFiles_only_removes (config : ProjectConfig) :
  only_removes (λ w, (cleanupFiles config w).2).
Proof. unfold cleanupFiles. io_steps. Qed.

Lemma Remove_missing (q : path) (w : World) :
  fs w !! q = None → Remove q w = (Some ENOENT, w).
Proof. intros Hq. unfold Remove. by rewrite Hq. Qed.

Lemma set_fs_same (f : gmap path node → gmap path node) (w : World) :
  f (fs w) = fs w → set_fs f w = w.
Proof. intros Hf. unfold set_fs. rewrite Hf. by destruct w. Qed.

Lemma RemoveAll_missing (q : path) (w : World) :
  (∀ p, q `prefix_of` p → fs w !! p = None) → RemoveAll q w = (None, w).
Proof.
  intros Hq. unfold RemoveAll. f_equal. apply set_fs_same.
  apply map_filter_id. intros p n Hp. simpl. intros Hpre.
  rewrite Hq in Hp; done.
Qed.

Lemma idle_bind {A B} (w : World) (m : IO A) (k : A → IO B) :
  idle w m → idle w (k (m w).1) → idle w (m ≫= k).
Proof. unfold idle. intros Hm Hk. by rewrite run_bind, Hm. Qed.

Lemma idle_for_each {A} (w : World) (body : A → IO ()) (l : list A) :
  (∀ x, x ∈ l → idle w (body x)) → idle w (for_each l body).
Proof.
  induction l as [|x l IH]; intros Hbody; [done|].
  simpl. apply idle_bind; [apply Hbody; by left|].
  apply IH. intros y Hy. apply Hbody. by right.
Qed.

End cleanup.

(** C8. [cleanupFiles] returns no error, whatever the configuration and
    the file system; where nothing exists below the project directory it
    finds nothing to delete and leaves the world as it is. *)
Theorem cleanupFiles_never_fails `{RangeOrder} (config : ProjectConfig) (w : World) :
  (cleanupFiles config w).1 = None
  ∧ ((∀ rel, rel ≠ [] → fs w !! (project_root w config ++ rel) = None) →
     cleanupFiles config w = (None, w)).
Proof.
  split.
  - unfold cleanupFiles. repeat (rewrite run_bind; cbv beta). reflexivity.
  - intros Hnone.
    assert (Hrm : ∀ rel, rel ≠ [] → idle w (Remove (project_root w config ++ rel))).
    { intros rel Hrel. unfold idle. by rewrite Remove_missing by by apply Hnone. }
    assert (Hall : ∀ rel, rel ≠ [] → idle w (RemoveAll (project_root w config ++ rel))).
    { intros rel Hrel. unfold idle. rewrite RemoveAll_missing; [done|].
      intros p [more ->]. rewrite <-(assoc_L (++)). apply Hnone. by destruct rel. }
    assert (Hidle : idle w (cleanupFiles config)).
    { unfold cleanupFiles.
      repeat first
        [ apply idle_bind
        | apply idle_for_each; intros [db file] Hin;
          rewrite range_Permutation, !elem_of_cons, elem_of_nil in Hin;
          destruct Hin as [Hin|[Hin|[Hin|[]]]]; simplify_eq
        | rewrite run_joined, Join_root; cbn [fst]
        | by apply Hrm
        | by apply Hall
        | done
        | match goal with
          | |- context [if ?b then _ else _] => destruct b
          end ]. }
    unfold idle in Hidle. destruct (cleanupFiles config w) as [r w'] eqn:Hrun.
    simpl in *. subst w'. f_equal.
    change r with (r, w).1. rewrite <-Hrun.
    unfold cleanupFiles. repeat (rewrite run_bind; cbv beta). reflexivity.
Qed.

Section shared.
Context `{RangeOrder}.

Lemma in_range (x : string * path) (entries : list (string * path)) :
  x ∈ range entries ↔ x ∈ entries.
Proof. by rewrite range_Permutation. Qed.

End shared.

(** C1, the configuration file: config/gorm.go never survives
    [cleanupFiles], whichever database is selected; the loop over the
    database configurations removes it as soon as it meets mysql or
    postgresql unselected, and one of the two always is.  The loop over
    the repositories, by contrast, keeps the directory the two share. *)
Theorem cleanupFiles_removes_gorm `{RangeOrder} (config : ProjectConfig) (w : World)
    (mode : Z) (data : string) :
  let gorm := project_root w config ++ ["config"; "gorm.go"] in
  fs w !! gorm = Some (File mode data) →
  fs (cleanupFiles config w).2 !! gorm = None.
Proof.
  intros gorm Hgorm.
  pose (I := λ w' : World, cwd w' = cwd w ∧
               (fs w' !! gorm = Some (File mode data) ∨ fs w' !! gorm = None)).
  pose (J := λ w' : World, cwd w' = cwd w ∧ fs w' !! gorm = None).
  assert (Hshrink : ∀ (P : World → Prop) (m : IO ()) w',
            only_removes (λ w, (m w).2) → (P = I ∨ P = J) → P w' → P (m w').2).
  { intros P m w' Hstep [-> | ->] [Hc Hg]; destruct (Hstep w') as [Hc' Hp];
      (split; [congruence|]); destruct (Hp gorm) as [Hn|Hn]; rewrite Hn; auto. }
  unfold cleanupFiles.
  rewrite run_bind, run_joined, run_bind, run_joined, run_bind, run_joined.
  cbn [fst snd]. rewrite run_bind.
  match goal with
  | |- fs (?rest (for_each ?l ?body w).2).2 !! _ = _ =>
      set (w1 := (for_each l body w).2);
      assert (Hrest : only_removes (λ w', (rest w').2)) by (cbv beta; io_steps);
      assert (HJ : J w1); [|destruct (Hrest w1) as [_ Hp];
                             destruct (Hp gorm) as [Hn|Hn]; rewrite Hn; [done|apply HJ]]
  end.
  set (other := if decide (Database config = "mysql") then "postgresql" else "mysql").
  set (file := if decide (Database config = "mysql")
               then Join w (ProjectPath config) ["config"; "postgre.go"]
               else Join w (ProjectPath config) ["config"; "mysql.go"]).
  subst w1. apply (for_each_reaches I J _ _ (other, file)).
  - apply in_range. unfold other, file. rewrite !elem_of_cons.
    destruct (decide (Database config = "mysql")); auto.
  - intros [db f] w' _. apply (Hshrink I); [io_steps|by left].
  - intros [db f] w' _. apply (Hshrink J); [io_steps|by right].
  - intros w' [Hc Hg].
    assert (Hother : other ≠ Database config).
    { unfold other. destruct (decide (Database config = "mysql")) as [Hd|Hd];
        [by rewrite Hd|done]. }
    assert (Hshared : bool_decide (other = "mysql") || bool_decide (other = "postgresql") = true).
    { unfold other. by destruct (decide (Database config = "mysql")). }
    cbv beta iota. rewrite bool_decide_eq_true_2 by done.
    rewrite run_bind, Hshared, run_bind, run_joined, run_bind. cbn [fst snd].
    destruct (Remove_leaves file w') as [Hc1 Hf1].
    assert (Hfile : gorm ≠ file).
    { unfold gorm, file. rewrite !Join_root.
      destruct (decide (Database config = "mysql")); intros ?; simplify_list_eq. }
    rewrite (Join_cwd w) by congruence. rewrite Join_root. fold gorm.
    split.
    + destruct (Remove_only_removes gorm (Remove file w').2) as [Hc2 _].
      simpl in *. congruence.
    + specialize (Hf1 gorm Hfile). simpl in Hf1.
      destruct Hg as [Hg|Hg]; rewrite Hg in Hf1.
      * by eapply Remove_file_gone.
      * destruct (Remove_only_removes gorm (Remove file w').2) as [_ Hp].
        destruct (Hp gorm) as [Hn|Hn]; simpl in *; congruence.
  - split; [done|by left].
Qed.

(** ** Triples for the state transformers *)

Lemma triple_bind {A B} (P : World → Prop) (Q : A → World → Prop)
    (R : B → World → Prop) (m : IO A) (k : A → IO B) :
  triple P m Q → (∀ a, triple (Q a) (k a) R) → triple P (m ≫= k) R.
Proof. intros Hm Hk w Hw. rewrite run_bind. by apply Hk, Hm. Qed.

Lemma triple_ret {A} (Q : A → World → Prop) (a : A) : triple (Q a) (mret a) Q.
Proof. by intros w Hw. Qed.

Lemma triple_weaken {A} (P P' : World → Prop) (Q Q' : A → World → Prop) (m : IO A) :
  triple P m Q → (∀ w, P' w → P w) → (∀ a w, Q a w → Q' a w) → triple P' m Q'.
Proof. intros Hm HP HQ w Hw. by apply HQ, Hm, HP. Qed.

Lemma triple_pure {A} (P : World → Prop) (f : World → A) :
  triple P (λ w, (f w, w)) (λ a w, a = f w ∧ P w).
Proof. by intros w Hw. Qed.

Lemma triple_pull {A} (fact : Prop) (P : World → Prop) (Q : A → World → Prop)
    (m : IO A) :
  (fact → triple P m Q) → triple (λ w, fact ∧ P w) m Q.
Proof. intros Hm w [Hf Hw]. by apply Hm. Qed.

Lemma triple_for_each {A} (I : World → Prop) (body : A → IO ()) (l : list A) :
  (∀ x, x ∈ l → triple I (body x) (λ _, I)) →
  triple I (for_each l body) (λ _, I).
Proof.
  induction l as [|x l IH]; intros Hbody; [by intros w Hw|].
  simpl. eapply triple_bind; [apply Hbody; by left|].
  intros ?. apply IH. intros y Hy. apply Hbody. by right.
Qed.

Lemma triple_joined (P : World → Prop) (base : string) (rel : path) :
  triple P (joined base rel) (λ p w, p = Join w base rel ∧ P w).
Proof. apply triple_pure. Qed.

Lemma triple_if {A} (P : World → Prop) (Q : A → World → Prop) (b : bool)
    (m1 m2 : IO A) :
  (b = true → triple P m1 Q) → (b = false → triple P m2 Q) →
  triple P (if b then m1 else m2) Q.
Proof. destruct b; auto. Qed.

Section repository.
Context `{RangeOrder}.

(** The repository directory internal/repository/mysql, and all below
    it, is as it was when mysql or postgresql is selected, and is gone when
    mongodb is: the loop over the repositories keeps what the two share. *)
Lemma cleanupFiles_shared_repository (config : ProjectConfig) (w : World) :
  let repo := project_root w config ++ ["internal"; "repository"; "mysql"] in
  let w' := (cleanupFiles config w).2 in
  (Database config ∈ ["mysql"; "postgresql"] →
   ∀ p, repo `prefix_of` p → fs w' !! p = fs w !! p)
  ∧ (Database config = "mongodb" →
     ∀ p, repo `prefix_of` p → fs w' !! p = None).
Proof.
  intros repo w'.
  assert (Hjoin : ∀ (I : World → Prop) rel,
            (∀ w1, I w1 → cwd w1 = cwd w) →
            triple I (joined (ProjectPath config) rel)
              (λ p w1, p = project_root w config ++ rel ∧ I w1)).
  { intros I rel HI w1 Hw1. rewrite run_joined. simpl.
    split; [|done]. rewrite (Join_cwd w), Join_root; auto. }
  split.
  - intros Hdb.
    pose (I := λ w1 : World, cwd w1 = cwd w ∧
                 ∀ p, repo `prefix_of` p → fs w1 !! p = fs w !! p).
    assert (Hrm : ∀ name, triple I (Remove (project_root w config ++ ["config"; name]))
                            (λ _, I)).
    { intros name w1 [Hc Hp].
      destruct (Remove_leaves (project_root w config ++ ["config"; name]) w1) as [Hc' Hp'].
      split; [simpl in *; congruence|]. intros p Hpre. rewrite Hp', Hp; [done..|].
      intros ->. destruct Hpre as [more Hpre]. unfold repo in Hpre.
      rewrite <-!(assoc_L (++)) in Hpre. simplify_list_eq. }
    assert (Hmongo : triple I
              (RemoveAll (project_root w config ++ ["internal"; "repository"; "mongodb"]))
              (λ _, I)).
    { intros w1 [Hc Hp].
      destruct (RemoveAll_leaves
                  (project_root w config ++ ["internal"; "repository"; "mongodb"]) w1)
        as [Hc' Hp'].
      split; [simpl in *; congruence|]. intros p Hpre. rewrite Hp', Hp; [done..|].
      intros [more1 ->]. destruct Hpre as [more2 Hpre]. unfold repo in Hpre.
      rewrite <-!(assoc_L (++)) in Hpre. simplify_list_eq. }
    assert (Hall : triple I (cleanupFiles config) (λ _, I)).
    { unfold cleanupFiles.
      repeat match goal with
        | |- triple _ (joined _ _ ≫= _) _ =>
            eapply triple_bind; [apply Hjoin; by intros ? [? ?]|];
            intros ?; apply triple_pull; intros ->
        | |- triple ?P (for_each _ _ ≫= _) _ =>
            eapply (triple_bind P (λ _, P));
            [apply triple_for_each; intros [db f] Hin;
             rewrite range_Permutation, !elem_of_cons, elem_of_nil in Hin;
             destruct Hin as [Hin|[Hin|[Hin|[]]]]; simplify_eq; cbv beta iota
            |intros ?]
        | |- triple ?P ((if _ then _ else _) ≫= _) _ =>
            eapply (triple_bind P (λ _, P)); [|intros ?]
        | |- triple _ (if _ then _ else _) _ =>
            apply triple_if; intros ?
        | |- triple _ (Remove _ ≫= _) _ =>
            eapply triple_bind; [apply Hrm|intros ?]
        | |- triple _ (RemoveAll (_ ++ ["internal"; "repository"; "mongodb"]) ≫= _) _ =>
            eapply triple_bind; [apply Hmongo|intros ?]
        | |- triple _ (mret _) _ => by intros ??
        end.
      all: exfalso; revert Hdb; rewrite !elem_of_cons, elem_of_nil;
        repeat match goal with
        | Hb : _ = true |- _ => first [apply bool_decide_eq_true in Hb
                                      |apply andb_true_iff in Hb as [? ?]]
        | Hb : _ = false |- _ => first [apply bool_decide_eq_false in Hb
                                       |apply andb_false_iff in Hb as [?|?]]
        end; intuition congruence. }
    apply Hall. by split.
  - intros Hdb.
    pose (I := λ w1 : World, cwd w1 = cwd w).
    pose (J := λ w1 : World, cwd w1 = cwd w ∧ ∀ p, repo `prefix_of` p → fs w1 !! p = None).
    assert (HI : ∀ {A} (m : IO A), only_removes (λ w, (m w).2) → triple I m (λ _, I)).
    { intros A m Hm w1 Hw1. destruct (Hm w1) as [Hc _]. unfold I in *. congruence. }
    assert (HJ : ∀ {A} (m : IO A), only_removes (λ w, (m w).2) → triple J m (λ _, J)).
    { intros A m Hm w1 [Hc Hw1]. destruct (Hm w1) as [Hc' Hp].
      split; [congruence|]. intros p Hpre.
      destruct (Hp p) as [Hn|Hn]; rewrite Hn; auto. }
    assert (Hall : triple I (cleanupFiles config) (λ _, J)).
    { unfold cleanupFiles.
      do 3 (eapply triple_bind; [apply Hjoin; by intros ? ?|];
            intros ?; apply triple_pull; intros ->).
      eapply (triple_bind I (λ _, I)); [apply HI; io_steps|intros ?].
      do 3 (eapply triple_bind; [apply Hjoin; by intros ? ?|];
            intros ?; apply triple_pull; intros ->).
      eapply (triple_bind I (λ _, J)); [|intros ?; apply HJ; io_steps].
      intros w1 Hw1. cbn [fst snd]. fold repo.
      apply (for_each_reaches I J _ _ ("mysql", repo)); [| | | |done].
      - apply in_range. by left.
      - intros [db f] w2 _. by apply HI; io_steps.
      - intros [db f] w2 _. by apply HJ; io_steps.
      - intros w2 Hw2. cbv beta iota. rewrite Hdb.
        rewrite bool_decide_eq_true_2 by done.
        rewrite !(bool_decide_eq_false_2 ("mongodb" = _)) by done.
        cbn [andb]. rewrite run_bind. cbn [fst snd mret IO_ret].
        split.
        + destruct (RemoveAll_only_removes repo w2) as [Hc _]. simpl in *.
          unfold I in *. congruence.
        + intros p Hpre. by apply RemoveAll_gone. }
    intros p Hp. by apply (Hall w).
Qed.

End repository.

(** ** The rewrite step touches text files only *)

Section suffix.

Lemma prefix_cut (a b d : string) (c : ascii) :
  all_bytes (λ x, negb (bool_decide (x = c))) a = true →
  String.prefix a (b +:+ String c d) = true → String.prefix a b = true.
Proof.
  revert a. induction b as [|y b IH]; intros [|x a] Ha Hp; try done.
  - simpl in Ha. apply andb_true_iff in Ha as [Hx _].
    change ("" +:+ String c d) with (String c d) in Hp.
    rewrite str_prefix_cons in Hp. apply andb_true_iff in Hp as [Hxc _].
    apply bool_decide_eq_true in Hxc as ->.
    by rewrite bool_decide_eq_true_2 in Hx.
  - simpl in Ha. apply andb_true_iff in Ha as [_ Ha].
    rewrite str_app_cons, str_prefix_cons in Hp.
    apply andb_true_iff in Hp as [Hxy Hp].
    rewrite str_prefix_cons, Hxy. simpl. by eapply IH.
Qed.

Lemma HasSuffix_below (dir rest e : string) :
  all_bytes (λ x, negb (bool_decide (x = "/"%char))) (String.rev e) = true →
  HasSuffix (dir +:+ "/" +:+ rest) e = true → HasSuffix rest e = true.
Proof.
  unfold HasSuffix. intros He.
  rewrite !str_rev_app_distr. change (String.rev "/") with "/".
  rewrite str_app_assoc. change ("/" +:+ String.rev dir) with (String "/" (String.rev dir)).
  by apply prefix_cut.
Qed.

Lemma path_text_cons (x y : string) (l : path) :
  path_text (x :: y :: l) = x +:+ "/" +:+ path_text (y :: l).
Proof. done. Qed.

(** The test on the path of an entry is the test on its name. *)
Lemma HasSuffix_path_text (p : path) (e : string) :
  e ≠ "" →
  all_bytes (λ x, negb (bool_decide (x = "/"%char))) (String.rev e) = true →
  HasSuffix (path_text p) e = true → HasSuffix (basename p) e = true.
Proof.
  intros Hne He. induction p as [|x [|y l] IH]; intros Hs.
  - unfold HasSuffix in Hs. simpl in Hs.
    destruct (String.rev e) eqn:Hr; [|done].
    apply (f_equal String.rev) in Hr. by rewrite str_rev_involutive in Hr.
  - done.
  - rewrite path_text_cons in Hs. apply HasSuffix_below in Hs; [|done].
    apply IH in Hs. by unfold basename in *; rewrite last_cons_cons.
Qed.

Lemma text_extension_path (p : path) :
  text_extension (basename p) = false →
  negb (HasSuffix (path_text p) ".go") && negb (HasSuffix (path_text p) ".mod") = true.
Proof.
  unfold text_extension. intros [Hgo Hmod]%orb_false_iff.
  apply andb_true_iff; split; apply negb_true_iff.
  - destruct (HasSuffix (path_text p) ".go") eqn:Hs; [|done].
    apply HasSuffix_path_text in Hs; [congruence|done..].
  - destruct (HasSuffix (path_text p) ".mod") eqn:Hs; [|done].
    apply HasSuffix_path_text in Hs; [congruence|done..].
Qed.

End suffix.

Section rewrite_frame.
Context `{Unicode}.

Lemma rewritten_from_refl (w : World) : rewritten_from w w.
Proof.
  split; [done|]. intros p. destruct (fs w !! p) as [[mode data|mode]|]; eauto.
Qed.

Lemma rewritten_from_write (w w1 : World) (q : path) (mode : Z) (old new : string) :
  rewritten_from w w1 →
  fs w1 !! q = Some (File mode old) →
  negb (HasSuffix (path_text q) ".go") && negb (HasSuffix (path_text q) ".mod") = false →
  rewritten_from w (set_fs <[q := File mode new]> w1).
Proof.
  intros [Hc Hw1] Hq Hext. split; [done|]. intros p. specialize (Hw1 p).
  simpl. destruct (decide (q = p)) as [<-|Hne].
  - rewrite lookup_insert_eq.
    destruct (fs w !! q) as [[m d|m]|]; [|congruence..].
    destruct Hw1 as [[d' Hd'] _]. split; [|by rewrite Hext].
    exists new. congruence.
  - by rewrite lookup_insert_ne.
Qed.

Lemma updateModulePaths_visit (config : ProjectConfig) (w : World) (q : path)
    (info : FileInfo) (err : option error) :
  triple (rewritten_from w)
    (if bool_decide (err ≠ None) || IsDir info then mret err
     else if negb (HasSuffix (path_text q) ".go")
             && negb (HasSuffix (path_text q) ".mod") then mret None
     else
       '(content, err) ← ReadFile q;
       match err with
       | Some e => mret (Some e)
       | None =>
           let newContent := ReplaceAll content oldModule (ModulePath config) in
           WriteFile q newContent (Mode info)
       end)
    (λ _, rewritten_from w).
Proof.
  intros w1 Hw1.
  destruct (bool_decide (err ≠ None) || IsDir info); [done|].
  destruct (negb (HasSuffix (path_text q) ".go")
            && negb (HasSuffix (path_text q) ".mod")) eqn:Hext; [done|].
  rewrite run_bind. unfold ReadFile.
  destruct (fs w1 !! q) as [[mode data|mode]|] eqn:Hq; [|done..].
  cbn [fst snd]. erewrite WriteFile_existing by done. cbn [snd].
  by eapply rewritten_from_write.
Qed.

Lemma triple_visit_all (I : World → Prop) (fn : WalkFunc)
    (visits : list (path * FileInfo)) :
  (∀ p info, triple I (fn p info None) (λ _, I)) →
  triple I (visit_all fn visits) (λ _, I).
Proof.
  intros Hfn. induction visits as [|[p info] visits IH]; [by intros w Hw|].
  simpl. eapply triple_bind; [apply Hfn|].
  intros [e|]; [by intros w Hw|apply IH].
Qed.

Lemma triple_Walk (I : World → Prop) (root : string) (fn : WalkFunc) :
  (∀ p info err, triple I (fn p info err) (λ _, I)) →
  triple I (Walk root fn) (λ _, I).
Proof.
  intros Hfn w Hw. unfold Walk.
  destruct (resolve w root) as [p|]; [|by apply Hfn].
  destruct (fs w !! p); [|by apply Hfn].
  apply triple_visit_all; [|done]. intros q info. apply Hfn.
Qed.

End rewrite_frame.

(** C6. [updateModulePaths] leaves every entry whose name ends in neither
    .go nor .mod as it was; it makes and removes nothing, and a file it
    rewrites keeps its mode. *)
Theorem updateModulePaths_touches_text_only `{Unicode} (config : ProjectConfig)
    (w : World) (p : path) :
  let w' := (updateModulePaths config w).2 in
  (text_extension (basename p) = false → fs w' !! p = fs w !! p)
  ∧ (fs w !! p = None → fs w' !! p = None)
  ∧ (∀ mode, fs w !! p = Some (Dir mode) → fs w' !! p = Some (Dir mode))
  ∧ (∀ mode data, fs w !! p = Some (File mode data) →
       ∃ data', fs w' !! p = Some (File mode data')).
Proof.
  intros w'.
  assert (Hw' : rewritten_from w w').
  { apply (triple_Walk (rewritten_from w)); [|apply rewritten_from_refl].
    intros q info err. apply updateModulePaths_visit. }
  destruct Hw' as [_ Hp]. specialize (Hp p).
  repeat split.
  - intros Hext%text_extension_path.
    destruct (fs w !! p) as [[mode data|mode]|]; [|done..]. by apply Hp.
  - intros Hn. by rewrite Hn in Hp.
  - intros mode Hd. by rewrite Hd in Hp.
  - intros mode data Hf. rewrite Hf in Hp. apply Hp.
Qed.

(** ** Reading the answers *)

Section reading.
Context `{Unicode}.

Lemma reads_refl (r : nat) (w : World) : reads r w w.
Proof. by repeat split. Qed.

Lemma reads_trans (r : nat) (w1 w2 w3 : World) :
  reads r w1 w2 → reads r w2 w3 → reads r w1 w3.
Proof. unfold reads. intros (?&?&?&?&?) (?&?&?&?&?). repeat split; try congruence. lia. Qed.

Lemma cut_line_spec (s line rest : string) :
  cut_line s = Some (line, rest) → s = line +:+ rest.
Proof.
  revert line rest. induction s as [|c s IH]; intros line rest; [done|].
  simpl. case_decide.
  - intros [= <- <-]. done.
  - destruct (cut_line s) as [[l r]|]; [|done]. intros [= <- <-].
    rewrite str_app_cons. f_equal. by apply IH.
Qed.

Lemma fill_line_spec (buf : string) (chunks : list string) :
  let '((line, _), rest, chunks') := fill_line buf chunks in
  String.length line + (String.length rest + total_length chunks')
  = String.length buf + total_length chunks.
Proof.
  revert buf. induction chunks as [|chunk chunks IH]; intros buf; simpl.
  - destruct (cut_line buf) as [[line rest]|] eqn:Hcut; simpl; [|lia].
    apply cut_line_spec in Hcut as ->. rewrite str_length_app. lia.
  - destruct (cut_line buf) as [[line rest]|] eqn:Hcut.
    + apply cut_line_spec in Hcut as ->. rewrite str_length_app. simpl. lia.
    + specialize (IH (buf +:+ chunk)).
      destruct (fill_line (buf +:+ chunk) chunks) as [[[line e] rest] chunks'].
      rewrite str_length_app in IH. lia.
Qed.

Lemma ReadString_reads (r : nat) (w : World) :
  r < length (readers w) →
  reads r w (ReadString r w).2
  ∧ String.length (ReadString r w).1.1 + pending r (ReadString r w).2 = pending r w.
Proof.
  intros Hr. unfold ReadString, reads, pending.
  pose proof (fill_line_spec (default "" (readers w !! r)) (stdin w)) as Hfill.
  destruct (fill_line _ _) as [[[line e] rest] chunks']. simpl.
  rewrite length_insert, list_lookup_insert_eq by done. simpl.
  repeat split; lia.
Qed.

Lemma TrimSpace_empty : TrimSpace "" = "".
Proof. done. Qed.

(** With a default, [promptString] returns at its first reading. *)
Lemma promptString_returns (fuel r : nat) (prompt defaultValue : string) (w : World) :
  r < length (readers w) → defaultValue ≠ "" →
  ∃ answer w', promptString fuel r prompt defaultValue w = (Some answer, w')
               ∧ reads r w w'.
Proof.
  intros Hr Hd. destruct (ReadString_reads r w Hr) as [Hreads _].
  destruct fuel; simpl; rewrite run_bind;
    destruct (ReadString r w) as [[line e] w']; simpl in *;
    rewrite (bool_decide_eq_false_2 (defaultValue = "")) by done; simpl;
    rewrite andb_true_r; case_bool_decide; eauto.
Qed.

(** [promptChoice] returns once the input is used up, if not before. *)
Lemma promptChoice_returns (fuel r : nat) (prompt : string) (valid : list string)
    (defaultChoice : string) (w : World) :
  r < length (readers w) → pending r w ≤ fuel →
  ∃ choice w', promptChoice fuel r prompt valid defaultChoice w = (Some choice, w')
               ∧ reads r w w'.
Proof.
  revert w. induction fuel as [|fuel IH]; intros w Hr Hfuel;
    destruct (ReadString_reads r w Hr) as [Hreads Hlen];
    simpl; rewrite run_bind;
    destruct (ReadString r w) as [[line e] w1]; simpl in *;
    case_bool_decide as Hempty; eauto;
    destruct (existsb _ valid); eauto.
  - assert (line = "") as -> by (destruct line; [done|simpl in *; lia]).
    by rewrite TrimSpace_empty in Hempty.
  - assert (line ≠ "") by (intros ->; by rewrite TrimSpace_empty in Hempty).
    destruct (IH w1) as (choice & w2 & -> & Hreads2).
    + destruct Hreads as (_&_&_&->&_). done.
    + destruct line; [done|simpl in *; lia].
    + eauto using reads_trans.
Qed.

Lemma promptBool_reads (r : nat) (prompt : string) (w : World) :
  r < length (readers w) → reads r w (promptBool r prompt w).2.
Proof.
  intros Hr. destruct (ReadString_reads r w Hr) as [Hreads _].
  unfold promptBool. rewrite run_bind.
  by destruct (ReadString r w) as [[line e] w'].
Qed.

(** On an input that ends, [collectConfiguration] returns a configuration
    once [fuel] covers the input; it writes to no file. *)
Lemma collectConfiguration_returns (fuel : nat) (w : World) :
  total_length (stdin w) ≤ fuel →
  ∃ config w', collectConfiguration fuel w = (Some config, w') ∧ fs w' = fs w.
Proof.
  intros Hfuel. unfold collectConfiguration, and_then.
  rewrite run_bind. unfold NewReader. cbn [fst snd].
  set (r := length (readers w)).
  set (w0 := set_input (stdin w) (readers w ++ [""]) w).
  assert (Hr0 : r < length (readers w0)).
  { unfold w0, r. simpl. rewrite length_app. simpl. lia. }
  assert (Hp0 : pending r w0 ≤ fuel).
  { unfold pending, w0, r. simpl. rewrite lookup_app_r, Nat.sub_diag by done. done. }
  assert (Hfs0 : fs w0 = fs w) by done.
  clearbody w0 r.
  destruct (promptString_returns fuel r "What is your project name?" "my-go-api" w0)
    as (name & w1 & Hrun1 & Hreads1); [done..|].
  rewrite !run_bind, Hrun1. cbn [fst snd].
  assert (Hr1 : r < length (readers w1)) by (destruct Hreads1 as (_&_&_&->&_); done).
  destruct (promptString_returns fuel r "Where to create the project?" ("./" +:+ name) w1)
    as (ppath & w2 & Hrun2 & Hreads2); [done..|].
  rewrite !run_bind, Hrun2. cbn [fst snd].
  assert (Hr2 : r < length (readers w2)) by (destruct Hreads2 as (_&_&_&->&_); done).
  destruct (promptString_returns fuel r "What is your Go module path?"
              ("github.com/yourusername/" +:+ name) w2)
    as (mpath & w3 & Hrun3 & Hreads3); [done..|].
  rewrite !run_bind, Hrun3. cbn [fst snd].
  assert (Hreads03 : reads r w0 w3) by eauto using reads_trans.
  assert (Hr3 : r < length (readers w3)) by (destruct Hreads03 as (_&_&_&->&_); done).
  destruct (promptChoice_returns fuel r "Select database" ["1"; "2"; "3"] "1" w3)
    as (choice & w4 & Hrun4 & Hreads4); [done|destruct Hreads03 as (_&_&_&_&?); lia|].
  rewrite !run_bind, Hrun4. cbn [fst snd].
  assert (Hr4 : r < length (readers w4)) by (destruct Hreads4 as (_&_&_&->&_); done).
  pose proof (promptBool_reads r "Would you like to use Redis for caching?" w4 Hr4)
    as Hreads5.
  rewrite !run_bind.
  set (w5 := (promptBool r "Would you like to use Redis for caching?" w4).2) in *.
  assert (Hr5 : r < length (readers w5)) by (destruct Hreads5 as (_&_&_&->&_); done).
  pose proof (promptBool_reads r "Would you like to use RabbitMQ for message queuing?"
                w5 Hr5) as Hreads6.
  eexists _, _. split; [reflexivity|]. cbn [snd].
  destruct Hreads03 as (Hfs3&_), Hreads4 as (Hfs4&_), Hreads5 as (Hfs5&_),
    Hreads6 as (Hfs6&_). congruence.
Qed.

Lemma ReadString_same_files (w : World) (r : nat) :
  triple (same_files w) (ReadString r) (λ _, same_files w).
Proof.
  intros w1 Hw1. unfold ReadString.
  by destruct (fill_line _ _) as [[[line e] rest] chunks'].
Qed.

Lemma NewReader_same_files (w : World) :
  triple (same_files w) NewReader (λ _, same_files w).
Proof. by intros w1 Hw1. Qed.

Lemma promptString_same_files (w : World) (fuel r : nat) (prompt defaultValue : string) :
  triple (same_files w) (promptString fuel r prompt defaultValue) (λ _, same_files w).
Proof.
  induction fuel as [|fuel IH]; simpl;
    (eapply triple_bind; [apply ReadString_same_files|]); intros [line e];
    repeat case_bool_decide; simpl; try by intros ??.
  apply IH.
Qed.

Lemma promptChoice_same_files (w : World) (fuel r : nat) (prompt : string)
    (valid : list string) (defaultChoice : string) :
  triple (same_files w) (promptChoice fuel r prompt valid defaultChoice)
    (λ _, same_files w).
Proof.
  induction fuel as [|fuel IH]; simpl;
    (eapply triple_bind; [apply ReadString_same_files|]); intros [line e];
    case_bool_decide; try (by intros ??);
    destruct (existsb _ valid); try (by intros ??).
  apply IH.
Qed.

Lemma promptBool_same_files (w : World) (r : nat) (prompt : string) :
  triple (same_files w) (promptBool r prompt) (λ _, same_files w).
Proof.
  unfold promptBool. eapply triple_bind; [apply ReadString_same_files|].
  intros [line e]. by intros ??.
Qed.

Lemma triple_and_then {A B} (I : World → Prop) (m : IO (option A))
    (k : A → IO (option B)) :
  triple I m (λ _, I) → (∀ a, triple I (k a) (λ _, I)) →
  triple I (and_then m k) (λ _, I).
Proof.
  intros Hm Hk. unfold and_then. eapply triple_bind; [apply Hm|].
  intros [a|]; [apply Hk|by intros ??].
Qed.

Lemma collectConfiguration_same_files (w : World) (fuel : nat) :
  triple (same_files w) (collectConfiguration fuel) (λ _, same_files w).
Proof.
  unfold collectConfiguration.
  eapply triple_bind; [apply NewReader_same_files|]. intros r.
  do 3 (apply triple_and_then; [apply promptString_same_files|]; intros ?).
  apply triple_and_then; [apply promptChoice_same_files|]; intros ?.
  do 2 (eapply triple_bind; [apply promptBool_same_files|]; intros ?).
  by intros ??.
Qed.

End reading.

(** A refusal that the confirmation reads.  On an input that ends, and
    with [fuel] to cover it, the run reaches the confirmation; when the
    line its own reader reads there, lowercased and trimmed, is n, the run
    ends cancelled with every file and directory as it was.  This is a
    condition on what is left to read once [collectConfiguration]
    returns: it holds when the n arrives in a read of its own, as at a
    terminal, and not when it arrived together with an earlier answer. *)
Lemma main_cancelled_writes_nothing `{Unicode, RangeOrder} (fuel : nat) (w : World) :
  total_length (stdin w) ≤ fuel →
  let w1 := (collectConfiguration fuel w).2 in
  TrimSpace (ToLower (ReadString (length (readers w1)) (NewReader w1).2).1.1) = "n" →
  is_Some (collectConfiguration fuel w).1
  ∧ (main fuel w).1 = Some Cancelled
  ∧ fs (main fuel w).2 = fs w.
Proof.
  intros Hfuel w1 Hanswer.
  destruct (collectConfiguration_returns fuel w Hfuel) as (config & w1' & Hcollect & Hfs1).
  assert (w1 = w1') as Hw1 by (unfold w1; by rewrite Hcollect).
  clearbody w1. subst w1'. split; [by rewrite Hcollect|].
  destruct (ReadString (length (readers w1)) (NewReader w1).2) as [[line e] w2] eqn:Hread.
  assert (Hconfirm : confirm "Create project?" w1 = (false, w2)).
  { unfold confirm. rewrite !run_bind. cbn [fst snd NewReader].
    simpl in Hread. rewrite Hread. cbn [fst snd]. simpl in Hanswer.
    by rewrite Hanswer. }
  assert (Hfs2 : fs w2 = fs w1).
  { pose proof (ReadString_same_files w1 (length (readers w1)) (NewReader w1).2 eq_refl)
      as Hsame. by rewrite Hread in Hsame. }
  unfold main, and_then. rewrite run_bind, Hcollect. cbn [fst snd].
  rewrite run_bind, Hconfirm. simpl. split; congruence.
Qed.

(** ** Copying the template *)

Section paths.

Lemma strip_app (p rel : path) : strip p (p ++ rel) = Some rel.
Proof. induction p as [|x p IH]; [done|]. simpl. by rewrite decide_True. Qed.

Lemma strip_Some (p q rel : path) : strip p q = Some rel ↔ q = p ++ rel.
Proof.
  split; [|intros ->; apply strip_app].
  revert q. induction p as [|x p IH]; intros q; simpl; [by intros [= ->]|].
  destruct q as [|y q]; [done|]. case_decide; [|done].
  intros ->%IH. by subst.
Qed.

Lemma strip_None (p q : path) : strip p q = None ↔ ¬ p `prefix_of` q.
Proof.
  split.
  - intros Hs [rel ->]. by rewrite strip_app in Hs.
  - intros Hp. destruct (strip p q) as [rel|] eqn:Hs; [|done].
    apply strip_Some in Hs as ->. destruct Hp. by exists rel.
Qed.

Lemma parent_snoc (p : path) (name : string) : parent (p ++ [name]) = p.
Proof.
  unfold parent. rewrite length_app. simpl.
  replace (length p + 1 - 1) with (length p) by lia. by rewrite take_app_length.
Qed.

Lemma entry_name_spec (p k : path) (n : node) (name : string) :
  entry_name p (k, n) = Some name ↔ k = p ++ [name].
Proof.
  unfold entry_name. simpl. split.
  - destruct (strip p k) as [[|x [|y l]]|] eqn:Hs; try done.
    intros [= ->]. by apply strip_Some.
  - intros ->. by rewrite strip_app.
Qed.

Lemma readDirNames_elem (m : gmap path node) (p : path) (name : string) :
  name ∈ readDirNames m p ↔ is_Some (m !! (p ++ [name])).
Proof.
  unfold readDirNames. rewrite merge_sort_Permutation, list_elem_of_omap. split.
  - intros ([k n] & Hin & Hname). apply entry_name_spec in Hname as ->.
    apply elem_of_map_to_list in Hin. by exists n.
  - intros [n Hn]. exists (p ++ [name], n). split.
    + by apply elem_of_map_to_list.
    + by apply entry_name_spec.
Qed.

Lemma readDirNames_NoDup (m : gmap path node) (p : path) : NoDup (readDirNames m p).
Proof.
  unfold readDirNames. rewrite merge_sort_Permutation.
  pose proof (NoDup_fst_map_to_list m) as Hnd.
  induction (map_to_list m) as [|[k n] l IH]; simpl; [constructor|].
  apply NoDup_cons in Hnd as [Hk Hnd]. specialize (IH Hnd).
  destruct (entry_name p (k, n)) as [name|] eqn:Hname; [|done].
  apply NoDup_cons. split; [|done].
  rewrite list_elem_of_omap. intros ([k' n'] & Hin & Hname').
  apply entry_name_spec in Hname as ->. apply entry_name_spec in Hname' as ->.
  apply Hk. apply list_elem_of_fmap. by exists (p ++ [name], n').
Qed.

Lemma well_formed_ancestor (m : gmap path node) (p rel : path) :
  well_formed m → rel ≠ [] → is_Some (m !! (p ++ rel)) →
  ∃ mode, m !! p = Some (Dir mode).
Proof.
  intros Hwf. induction rel as [|name rel IH] using rev_ind; [done|].
  intros _ Hsome. rewrite (assoc_L (++)) in Hsome.
  apply Hwf in Hsome as [mode Hdir].
  destruct rel as [|x rel]; [by rewrite (right_id_L [] (++)) in Hdir; eauto|].
  apply IH; [done|by eauto].
Qed.

Lemma depth_bound_spec (m : gmap path node) (p : path) :
  is_Some (m !! p) → length p < depth_bound m.
Proof.
  intros [n Hn]. unfold depth_bound.
  assert (Hin : length p ∈ length <$> (map_to_list m).*1).
  { apply list_elem_of_fmap. exists p. split; [done|].
    apply list_elem_of_fmap. exists (p, n). split; [done|].
    by apply elem_of_map_to_list. }
  apply max_list_elem_of_le in Hin. lia.
Qed.

End paths.

Section operations.

Local Arguments Z.ldiff : simpl never.

Lemma mkdir_all_dir (rp : path) (perm mode : Z) (w : World) :
  fs w !! reverse rp = Some (Dir mode) → mkdir_all rp perm w = (None, w).
Proof. intros Hd. destruct rp; simpl in *; by rewrite Hd. Qed.

Lemma MkdirAll_fresh (p : path) (name : string) (perm mode : Z) (w : World) :
  fs w !! (p ++ [name]) = None → fs w !! p = Some (Dir mode) →
  MkdirAll (p ++ [name]) perm w
  = (None, set_fs <[p ++ [name] := Dir (Z.ldiff perm (umask w))]> w).
Proof.
  intros Hnew Hdir. unfold MkdirAll. rewrite reverse_snoc. simpl.
  rewrite reverse_cons, reverse_involutive, Hnew.
  erewrite mkdir_all_dir by by rewrite reverse_involutive.
  unfold Mkdir. by rewrite Hnew, parent_snoc, Hdir.
Qed.

Lemma run_check (step : IO (option error)) (wrap : error → error)
    (k : IO (option error)) (w : World) :
  check step wrap k w =
  match (step w).1 with
  | Some e => (Some (wrap e), (step w).2)
  | None => k (step w).2
  end.
Proof. unfold check. rewrite run_bind. by destruct (step w).1. Qed.

Lemma Open_existing (p : path) (n : node) (w : World) :
  fs w !! p = Some n → Open p w = (None, w).
Proof. intros Hp. unfold Open. by rewrite Hp. Qed.

Lemma Create_fresh (p : path) (name : string) (dmode : Z) (w : World) :
  fs w !! (p ++ [name]) = None → fs w !! p = Some (Dir dmode) →
  Create (p ++ [name]) w
  = (None, set_fs <[p ++ [name] := File (Z.ldiff 438 (umask w)) ""]> w).
Proof.
  intros Hnew Hdir. unfold Create, create_trunc.
  by rewrite Hnew, parent_snoc, Hdir.
Qed.

Lemma Create_existing (p : path) (mode : Z) (old : string) (w : World) :
  fs w !! p = Some (File mode old) →
  Create p w = (None, set_fs <[p := File mode ""]> w).
Proof. intros Hp. unfold Create, create_trunc. by rewrite Hp. Qed.

Lemma Copy_existing (dst src : path) (mode dmode : Z) (data old : string) (w : World) :
  fs w !! src = Some (File mode data) → fs w !! dst = Some (File dmode old) →
  Copy dst src w = (None, set_fs <[dst := File dmode data]> w).
Proof.
  intros Hsrc Hdst. unfold Copy, ReadFile, write_data.
  rewrite run_bind, Hsrc. cbn [fst snd]. by rewrite Hdst.
Qed.

Lemma set_fs_insert_twice (p : path) (n1 n2 : node) (w : World) :
  set_fs <[p := n2]> (set_fs <[p := n1]> w) = set_fs <[p := n2]> w.
Proof. unfold set_fs. simpl. by rewrite insert_insert_eq. Qed.

Lemma copyFile_fresh (src p : path) (name : string) (mode dmode : Z) (data : string)
    (w : World) :
  fs w !! src = Some (File mode data) →
  fs w !! (p ++ [name]) = None → fs w !! p = Some (Dir dmode) →
  copyFile src (p ++ [name]) w
  = (None, set_fs <[p ++ [name] := File (Z.ldiff 438 (umask w)) data]> w).
Proof.
  intros Hsrc Hnew Hdir.
  assert (Hne : p ++ [name] ≠ src) by (intros <-; congruence).
  unfold copyFile. rewrite run_check. erewrite Open_existing by done. cbn [fst snd].
  rewrite run_check. erewrite Create_fresh by done. cbn [fst snd].
  erewrite Copy_existing.
  - by rewrite set_fs_insert_twice.
  - simpl. by rewrite lookup_insert_ne.
  - simpl. by rewrite lookup_insert_eq.
Qed.

Lemma copyFile_again (src dst : path) (mode dmode : Z) (data old : string) (w : World) :
  fs w !! src = Some (File mode data) →
  fs w !! dst = Some (File dmode old) → src ≠ dst →
  copyFile src dst w = (None, set_fs <[dst := File dmode data]> w).
Proof.
  intros Hsrc Hdst Hne.
  unfold copyFile. rewrite run_check. erewrite Open_existing by done. cbn [fst snd].
  rewrite run_check. erewrite Create_existing by done. cbn [fst snd].
  erewrite Copy_existing.
  - by rewrite set_fs_insert_twice.
  - simpl. by rewrite lookup_insert_ne.
  - simpl. by rewrite lookup_insert_eq.
Qed.

Lemma visit_all_app (fn : WalkFunc) (l1 l2 : list (path * FileInfo)) (w : World) :
  visit_all fn (l1 ++ l2) w =
  match (visit_all fn l1 w).1 with
  | Some e => (Some e, (visit_all fn l1 w).2)
  | None => visit_all fn l2 (visit_all fn l1 w).2
  end.
Proof.
  revert w. induction l1 as [|[p info] l1 IH]; intros w; [done|].
  simpl. rewrite !run_bind. destruct (fn p info None w) as [[e|] w1]; [done|].
  simpl. apply IH.
Qed.

End operations.

Section copy.

Local Arguments Z.ldiff : simpl never.

Variables (config : ProjectConfig) (w : World).

Let template : path := cwd w ++ ["template"].
Let dest : path := project_root w config.

Hypothesis tree : well_formed (fs w).
Hypothesis apart : ∀ rel, ¬ dest `prefix_of` template ++ rel.

Lemma strip_sibling (p more : path) (x y : string) :
  strip (p ++ [x]) (p ++ y :: more) = if decide (x = y) then Some more else None.
Proof.
  case_decide as Hxy.
  - subst y. replace (p ++ x :: more) with ((p ++ [x]) ++ more)
      by (by rewrite <-(assoc_L (++))). apply strip_app.
  - apply strip_None. intros [rest Hrest]. rewrite <-(assoc_L (++)) in Hrest.
    simplify_list_eq.
Qed.

Lemma strip_shorter (p : path) (x : string) : strip (p ++ [x]) p = None.
Proof.
  apply strip_None. intros [rest Hrest].
  apply (f_equal length) in Hrest. rewrite !length_app in Hrest. simpl in Hrest. lia.
Qed.

Lemma strip_child (rel more : path) (x y : string) :
  strip (dest ++ rel ++ [x]) (dest ++ rel ++ [y] ++ more)
  = if decide (x = y) then Some more else None.
Proof. rewrite !(assoc_L (++) dest rel). apply strip_sibling. Qed.

Lemma strip_parent (rel : path) (x : string) :
  strip (dest ++ rel ++ [x]) (dest ++ rel) = None.
Proof. rewrite !(assoc_L (++) dest rel). apply strip_shorter. Qed.

Lemma strip_below (rel q more : path) (x : string) :
  strip (dest ++ rel ++ [x]) q = Some more → strip (dest ++ rel) q = Some (x :: more).
Proof. intros ->%strip_Some. apply strip_Some. by rewrite <-!(assoc_L (++)). Qed.

Lemma copying_insert (w1 : World) (rel : path) (n : node) :
  rel ≠ [] → copying dest w w1 → copying dest w (set_fs <[dest ++ rel := n]> w1).
Proof.
  intros Hrel (Hc & Hu & Hq). repeat split; [done..|].
  intros q Hpre. simpl. rewrite lookup_insert_ne; [by apply Hq|].
  intros <-. apply Hpre. by exists rel.
Qed.

(** One call of the callback, on an entry whose place is free. *)
Lemma copy_visit_entry (rel : path) (name : string) (n : node) (dmode : Z) (w1 : World) :
  copying dest w w1 →
  fs w !! (template ++ rel ++ [name]) = Some n →
  fs w1 !! (dest ++ rel) = Some (Dir dmode) →
  fs w1 !! (dest ++ rel ++ [name]) = None →
  ∃ n', copy_of (umask w) (Some n) = Some n'
        ∧ copy_visit config template (template ++ rel ++ [name]) (info_of n) None w1
          = (None, set_fs <[dest ++ rel ++ [name] := n']> w1).
Proof.
  intros (Hc & Hu & Hq) Hn Hdir Hnew. unfold copy_visit.
  rewrite bool_decide_eq_false_2.
  2:{ intros Heq. apply (f_equal length) in Heq. rewrite !length_app in Heq.
      simpl in Heq. lia. }
  unfold Rel. rewrite strip_app. rewrite run_bind, run_joined. cbn [fst snd].
  rewrite (Join_cwd w), Join_root by done. fold dest.
  rewrite !(assoc_L (++) dest) in *.
  destruct n as [mode data|mode]; simpl.
  - eexists. split; [done|]. rewrite <-Hu.
    eapply copyFile_fresh; [|done..].
    rewrite Hq; [done|]. apply apart.
  - eexists. split; [done|]. rewrite <-Hu. by eapply MkdirAll_fresh.
Qed.

(** Copying the entries of a directory, given that each of them can be
    copied. *)
Lemma copy_children (fuel : nat) :
  (∀ rel name w1,
     is_Some (fs w !! (template ++ rel ++ [name])) →
     depth_bound (fs w) ≤ length (template ++ rel ++ [name]) + fuel →
     copying dest w w1 →
     (∃ dmode, fs w1 !! (dest ++ rel) = Some (Dir dmode)) →
     (∀ more, fs w1 !! (dest ++ rel ++ [name] ++ more) = None) →
     ∃ w2, visit_all (copy_visit config template)
             (walk_from fuel (fs w) (template ++ rel ++ [name])) w1 = (None, w2)
           ∧ copying dest w w2 ∧ copied template dest w rel name w1 w2) →
  ∀ names rel w1,
    (∀ x, x ∈ names → is_Some (fs w !! (template ++ rel ++ [x]))) →
    NoDup names →
    depth_bound (fs w) ≤ length (template ++ rel) + 1 + fuel →
    copying dest w w1 →
    (∃ dmode, fs w1 !! (dest ++ rel) = Some (Dir dmode)) →
    (∀ x more, x ∈ names → fs w1 !! (dest ++ rel ++ [x] ++ more) = None) →
    ∃ w2, visit_all (copy_visit config template)
            (names ≫= λ x, walk_from fuel (fs w) ((template ++ rel) ++ [x])) w1
          = (None, w2)
          ∧ copying dest w w2
          ∧ ∀ q, fs w2 !! q =
                 match strip (dest ++ rel) q with
                 | Some (x :: more) =>
                     if decide (x ∈ names)
                     then copy_of (umask w) (fs w !! (template ++ rel ++ [x] ++ more))
                     else fs w1 !! q
                 | _ => fs w1 !! q
                 end.
Proof.
  intros Hsub names rel. induction names as [|x0 names IH];
    intros w1 Hexist Hnd Hdepth Hw1 Hdir Hfree.
  - exists w1. split; [done|]. split; [done|]. intros q.
    by destruct (strip (dest ++ rel) q) as [[|x more]|].
  - apply NoDup_cons in Hnd as [Hx0 Hnd].
    assert (Hx0some : is_Some (fs w !! (template ++ rel ++ [x0]))).
    { apply Hexist. by left. }
    assert (Hx0depth : depth_bound (fs w) ≤ length (template ++ rel ++ [x0]) + fuel).
    { rewrite !length_app in *. simpl in *. lia. }
    assert (Hx0free : ∀ more, fs w1 !! (dest ++ rel ++ [x0] ++ more) = None).
    { intros more. apply Hfree. by left. }
    destruct (Hsub rel x0 w1 Hx0some Hx0depth Hw1 Hdir Hx0free)
      as (wa & Hrun & Hwa & Hcopied).
    assert (Hexist' : ∀ x, x ∈ names → is_Some (fs w !! (template ++ rel ++ [x]))).
    { intros x Hx. apply Hexist. by right. }
    assert (Hdir' : ∃ dmode, fs wa !! (dest ++ rel) = Some (Dir dmode)).
    { destruct Hdir as [dmode Hdir]. exists dmode. by rewrite Hcopied, strip_parent. }
    assert (Hfree' : ∀ x more, x ∈ names → fs wa !! (dest ++ rel ++ [x] ++ more) = None).
    { intros x more Hx. rewrite Hcopied, strip_child, decide_False by (intros ->; done).
      apply Hfree. by right. }
    destruct (IH wa Hexist' Hnd Hdepth Hwa Hdir' Hfree') as (w2 & Hrun2 & Hw2 & Hrest).
    exists w2. split; [|split; [done|]].
    + simpl. rewrite visit_all_app, <-(assoc_L (++)), Hrun. simpl. done.
    + intros q. rewrite Hrest.
      destruct (strip (dest ++ rel) q) as [[|x more]|] eqn:Hq.
      * apply strip_Some in Hq as ->.
        rewrite Hcopied, (right_id_L [] (++)), strip_parent. done.
      * apply strip_Some in Hq as ->.
        rewrite <-(assoc_L (++) dest rel).
        change (x :: more) with ([x] ++ more).
        rewrite Hcopied, strip_child.
        destruct (decide (x0 = x)) as [<-|Hne].
        -- rewrite (decide_False (P := x0 ∈ names)) by done.
           rewrite (decide_True (P := x0 ∈ x0 :: names)) by by left. done.
        -- destruct (decide (x ∈ names)) as [Hin|Hnin].
           ++ rewrite (decide_True (P := x ∈ x0 :: names)); [done|by right].
           ++ rewrite (decide_False (P := x ∈ x0 :: names)); [done|].
              rewrite elem_of_cons. intros [? | ?]; congruence.
      * rewrite Hcopied.
        destruct (strip (dest ++ rel ++ [x0]) q) as [more|] eqn:Hq2; [|done].
        apply strip_below in Hq2. congruence.
Qed.

Lemma template_below (rel q : path) (x : string) :
  is_Some (fs w !! (template ++ rel ++ x :: q)) →
  is_Some (fs w !! (template ++ rel ++ [x])).
Proof.
  intros Hsome. destruct q as [|y q]; [done|].
  destruct (well_formed_ancestor (fs w) (template ++ rel ++ [x]) (y :: q) tree)
    as [mode Hmode]; [done| |by eauto].
  by rewrite <-!(assoc_L (++)).
Qed.

(** The walk of one entry of the template copies it and all below it. *)
Lemma copy_subtree (fuel : nat) (rel : path) (name : string) (w1 : World) :
  is_Some (fs w !! (template ++ rel ++ [name])) →
  depth_bound (fs w) ≤ length (template ++ rel ++ [name]) + fuel →
  copying dest w w1 →
  (∃ dmode, fs w1 !! (dest ++ rel) = Some (Dir dmode)) →
  (∀ more, fs w1 !! (dest ++ rel ++ [name] ++ more) = None) →
  ∃ w2, visit_all (copy_visit config template)
          (walk_from fuel (fs w) (template ++ rel ++ [name])) w1 = (None, w2)
        ∧ copying dest w w2 ∧ copied template dest w rel name w1 w2.
Proof.
  revert rel name w1. induction fuel as [|fuel IH];
    intros rel name w1 [n Hn] Hdepth Hw1 [dmode Hdir] Hfree.
  { assert (Hlt := depth_bound_spec (fs w) _ (mk_is_Some _ _ Hn)). lia. }
  pose proof (Hfree []) as Hnew. rewrite (right_id_L [] (++)) in Hnew.
  destruct (copy_visit_entry rel name n dmode w1 Hw1 Hn Hdir Hnew) as (n' & Hn' & Hvisit).
  assert (Hwa := copying_insert w1 (rel ++ [name]) n' ltac:(by destruct rel) Hw1).
  set (wa := set_fs <[dest ++ rel ++ [name] := n']> w1) in *.
  assert (Hother : ∀ q, q ≠ dest ++ rel ++ [name] → fs wa !! q = fs w1 !! q).
  { intros q Hq. simpl. by rewrite lookup_insert_ne. }
  assert (Hself : fs wa !! (dest ++ rel ++ [name]) = Some n').
  { simpl. by rewrite lookup_insert_eq. }
  cbn [walk_from]. rewrite Hn. cbn [visit_all]. rewrite run_bind, Hvisit. cbn [fst snd].
  destruct n as [mode data|mode].
  - exists wa. split; [done|]. split; [done|]. intros q.
    destruct (strip (dest ++ rel ++ [name]) q) as [more|] eqn:Hq.
    + apply strip_Some in Hq as ->. rewrite <-!(assoc_L (++)).
      destruct more as [|x more].
      * by rewrite !(right_id_L [] (++)), Hself, Hn, Hn'.
      * rewrite Hother, Hfree.
        2:{ intros Heq. apply (f_equal length) in Heq.
            rewrite !length_app in Heq. simpl in Heq. lia. }
        destruct (fs w !! (template ++ rel ++ [name] ++ x :: more)) as [n2|] eqn:Hn2; [|done].
        destruct (well_formed_ancestor (fs w) (template ++ rel ++ [name]) (x :: more) tree)
          as [mode' Hmode']; [done| |congruence].
        rewrite <-!(assoc_L (++)). by rewrite Hn2.
    + apply Hother. intros ->. rewrite (strip_app _ []) in Hq || idtac.
      apply strip_None in Hq. apply Hq. done.
  - set (names := readDirNames (fs w) (template ++ rel ++ [name])).
    destruct (copy_children fuel (λ rel name w1, IH rel name w1) names (rel ++ [name]) wa)
      as (w2 & Hrun & Hw2 & Hfs).
    + intros x Hx. apply readDirNames_elem in Hx.
      rewrite <-!(assoc_L (++)) in Hx. by rewrite <-!(assoc_L (++)).
    + apply readDirNames_NoDup.
    + rewrite !length_app in *. simpl in *. lia.
    + done.
    + exists (Z.ldiff mode (umask w)). rewrite Hself. simpl in Hn'. congruence.
    + intros x more Hx. rewrite <-!(assoc_L (++)). rewrite Hother.
      * apply (Hfree (x :: more)).
      * intros Heq. apply (f_equal length) in Heq.
        rewrite !length_app in Heq. simpl in Heq. lia.
    + exists w2. split; [exact Hrun|]. split; [done|]. intros q.
      rewrite Hfs.
      destruct (strip (dest ++ rel ++ [name]) q) as [[|x more]|] eqn:Hq.
      * apply strip_Some in Hq as ->. rewrite <-?(assoc_L (++)), ?(right_id_L [] (++)).
        by rewrite Hself, Hn, Hn'.
      * apply strip_Some in Hq as ->. rewrite <-?(assoc_L (++)).
        destruct (decide (x ∈ names)) as [Hin|Hnin]; [done|].
        rewrite Hother, (Hfree (x :: more)).
        2:{ intros Heq. apply (f_equal length) in Heq.
            rewrite !length_app in Heq. simpl in Heq. lia. }
        destruct (fs w !! (template ++ rel ++ [name] ++ x :: more)) as [n2|] eqn:Hn2; [|done].
        destruct Hnin. apply readDirNames_elem.
        rewrite <-(assoc_L (++) template).
        apply (template_below (rel ++ [name]) more x).
        rewrite <-(assoc_L (++) rel). by rewrite Hn2.
      * apply Hother. intros ->. apply strip_None in Hq. by apply Hq.
Qed.

Lemma copy_tree (tmode dmode : Z) :
  fs w !! template = Some (Dir tmode) →
  fs w !! dest = Some (Dir dmode) →
  (∀ rel, rel ≠ [] → fs w !! (dest ++ rel) = None) →
  ∃ w2, visit_all (copy_visit config template)
          (walk_from (depth_bound (fs w)) (fs w) template) w = (None, w2)
        ∧ copying dest w w2 ∧ copied_tree template dest w w2.
Proof.
  intros Ht Hd Hempty.
  set (names := readDirNames (fs w) template).
  destruct (copy_children (max_list (length <$> (map_to_list (fs w)).*1))
              (copy_subtree _) names [] w) as (w2 & Hrun & Hw2 & Hfs).
  - intros x Hx. by apply readDirNames_elem in Hx.
  - apply readDirNames_NoDup.
  - unfold depth_bound. rewrite length_app. lia.
  - done.
  - exists dmode. by rewrite (right_id_L [] (++)).
  - intros x more _. by apply Hempty.
  - rewrite (right_id_L [] (++) template) in Hrun.
    rewrite (right_id_L [] (++) dest) in Hfs.
    exists w2. split; [|split; [done|]].
    + unfold depth_bound. cbn [walk_from]. rewrite Ht. cbn [visit_all].
      assert (Hroot : copy_visit config template template (info_of (Dir tmode)) None w
                      = (None, w)).
      { unfold copy_visit. by rewrite bool_decide_eq_true_2. }
      rewrite run_bind, Hroot. exact Hrun.
    + intros q. rewrite Hfs. destruct (strip dest q) as [[|x more]|] eqn:Hq; [done| |done].
      destruct (decide (x ∈ names)) as [Hin|Hnin]; [done|].
      apply strip_Some in Hq as ->. rewrite Hempty by done.
      destruct (fs w !! (template ++ x :: more)) as [n|] eqn:Hn; [|done].
      destruct Hnin. apply readDirNames_elem.
      apply (template_below [] more x). simpl. by rewrite Hn.
Qed.

Lemma copyTemplate_run (tmode dmode : Z) :
  fs w !! template = Some (Dir tmode) →
  fs w !! dest = Some (Dir dmode) →
  (∀ rel, rel ≠ [] → fs w !! (dest ++ rel) = None) →
  (∀ mode, fs w !! (template ++ [".gitignore"]) ≠ Some (Dir mode)) →
  (copyTemplate config w).1 = None ∧ copied_tree template dest w (copyTemplate config w).2.
Proof.
  intros Ht Hd Hempty Hignore.
  destruct (copy_tree tmode dmode Ht Hd Hempty) as (w2 & Hrun & (Hc & Hu & Hq) & Hfs).
  change (copyTemplate config) with (
    template ← joined "" ["template"];
    err ← Walk "template" (copy_visit config template);
    match err with
    | Some e => mret (Some e)
    | None =>
        gitignoreSrc ← joined "template" [".gitignore"];
        gitignoreDst ← joined (ProjectPath config) [".gitignore"];
        st ← Stat gitignoreSrc;
        match st with
        | Some _ => copyFile gitignoreSrc gitignoreDst
        | None => mret None
        end
    end).
  rewrite run_bind, run_joined. cbn [fst snd].
  change (Join w "" ["template"]) with template.
  assert (Hwalk : Walk "template" (copy_visit config template) w = (None, w2)).
  { unfold Walk. change (resolve w "template") with (Some template).
    cbv beta iota. by rewrite Ht. }
  rewrite run_bind, Hwalk. cbn [fst snd].
  rewrite !run_bind, !run_joined. cbn [fst snd].
  rewrite !(Join_cwd w w2) by done. rewrite Join_root.
  change (Join w "template" [".gitignore"]) with (template ++ [".gitignore"]).
  fold dest. unfold Stat. cbn [fst snd]. rewrite Hq by apply apart.
  destruct (fs w !! (template ++ [".gitignore"])) as [[mode data|mode]|] eqn:Hsrc;
    [|by destruct (Hignore mode)|done].
  cbn [fmap option_fmap option_map].
  assert (Hdst : fs w2 !! (dest ++ [".gitignore"])
                 = Some (File (Z.ldiff 438 (umask w)) data)).
  { by rewrite Hfs, strip_app, Hsrc. }
  erewrite copyFile_again; [| |done|].
  - split; [done|]. intros q. cbn [fst snd]. simpl.
    destruct (decide (dest ++ [".gitignore"] = q)) as [<-|Hne].
    + by rewrite lookup_insert_eq, <-Hdst, Hfs.
    + by rewrite lookup_insert_ne.
  - by rewrite Hq by apply apart.
  - intros Heq. apply (apart [".gitignore"]). rewrite Heq. by eexists.
Qed.

End copy.

(** C2, as the code has it.  In a file system that is a tree, with the
    template directory beside an empty project directory and no directory
    named .gitignore at the top of the template, [copyTemplate] returns no
    error.  It leaves below the project directory, at the place of every
    entry of the template, a copy of the entry and nothing else: a
    directory with the mode of the source less the umask, a file with the
    content of the source and the mode 0666 less the umask, whatever the
    mode of the source.  Outside the project directory nothing changes. *)
Theorem copyTemplate_copies (config : ProjectConfig) (w : World) (tmode dmode : Z) :
  well_formed (fs w) →
  fs w !! (cwd w ++ ["template"]) = Some (Dir tmode) →
  fs w !! project_root w config = Some (Dir dmode) →
  (∀ rel, rel ≠ [] → fs w !! (project_root w config ++ rel) = None) →
  ¬ project_root w config `prefix_of` cwd w ++ ["template"] →
  ¬ cwd w ++ ["template"] `prefix_of` project_root w config →
  (∀ mode, fs w !! (cwd w ++ ["template"; ".gitignore"]) ≠ Some (Dir mode)) →
  (copyTemplate config w).1 = None
  ∧ (∀ rel, rel ≠ [] →
       fs (copyTemplate config w).2 !! (project_root w config ++ rel)
       = copy_of (umask w) (fs w !! (cwd w ++ ["template"] ++ rel)))
  ∧ (∀ q, ¬ project_root w config `prefix_of` q →
       fs (copyTemplate config w).2 !! q = fs w !! q).
Proof.
  intros Htree Ht Hd Hempty Hout Hin Hignore.
  assert (Hapart : ∀ rel, ¬ project_root w config `prefix_of` (cwd w ++ ["template"]) ++ rel).
  { intros rel Hpre.
    destruct (prefix_weak_total _ _ _ Hpre (prefix_app_r _ _ rel (reflexivity _)));
      contradiction. }
  destruct (copyTemplate_run config w Htree Hapart tmode dmode Ht Hd Hempty) as [Hrun Hfs].
  { intros mode. rewrite <-(assoc_L (++)). apply Hignore. }
  split; [done|]. split.
  - intros rel Hrel. rewrite Hfs, strip_app. destruct rel as [|x more]; [done|].
    by rewrite <-(assoc_L (++)).
  - intros q Hq. rewrite Hfs. apply strip_None in Hq. by rewrite Hq.
Qed.

(** ** The small project *)

(** The two checks decide what they are named after. *)
Lemma well_formedb_spec (m : gmap path node) : well_formedb m = true → well_formed m.
Proof.
  intros Hall p name [n Hn]. unfold well_formedb in Hall.
  rewrite forallb_forall in Hall.
  specialize (Hall (p ++ [name], n)). simpl in Hall.
  rewrite <-list_elem_of_In, elem_of_map_to_list in Hall. specialize (Hall Hn).
  unfold in_directory in Hall. rewrite parent_snoc in Hall.
  destruct (p ++ [name]) eqn:Hp; [by destruct p|].
  destruct (m !! p) as [[mode data|mode]|]; [done|by eauto|done].
Qed.

Lemma empty_below_spec (m : gmap path node) (p : path) :
  empty_below m p = true → ∀ rel, rel ≠ [] → m !! (p ++ rel) = None.
Proof.
  intros Hall rel Hrel. unfold empty_below in Hall. rewrite forallb_forall in Hall.
  destruct (m !! (p ++ rel)) as [n|] eqn:Hn; [|done].
  specialize (Hall (p ++ rel, n)). simpl in Hall.
  rewrite <-list_elem_of_In, elem_of_map_to_list, strip_app in Hall.
  specialize (Hall Hn). by destruct rel.
Qed.

(** The copy of the small project: the file of the template arrives with
    its content, and the template stays as it was. *)
Lemma copyTemplate_copies_demo :
  (copyTemplate demo_config demo).1 = None
  ∧ fs demo_copied !! ["out"; "config"; "gorm.go"]
    = Some (File 420 "import github.com/rahmatrdn/go-skeleton/config")
  ∧ fs demo_copied !! ["template"; "run.sh"] = fs demo !! ["template"; "run.sh"].
Proof.
  destruct (copyTemplate_copies demo_config demo 493 493) as (Hrun & Hin & Hout).
  - apply well_formedb_spec. vm_compute. reflexivity.
  - vm_compute. reflexivity.
  - vm_compute. reflexivity.
  - apply empty_below_spec. vm_compute. reflexivity.
  - intros [k Hk]. vm_compute in Hk. discriminate.
  - intros [k Hk]. vm_compute in Hk. discriminate.
  - intros mode Hm. vm_compute in Hm. discriminate.
  - split; [exact Hrun|]. split.
    + exact (Hin ["config"; "gorm.go"] ltac:(discriminate)).
    + apply Hout. intros [k Hk]. vm_compute in Hk. discriminate.
Defined.

(** C2 fails for the mode of a file: the script of the template, mode
    0755, is copied with mode 0644, which is 0666 less the umask 022. *)
Lemma copyTemplate_drops_file_mode :
  fs demo !! ["template"; "run.sh"] = Some (File 493 "#!/bin/sh")
  ∧ (copyTemplate demo_config demo).1 = None
  ∧ fs (copyTemplate demo_config demo).2 !! ["out"; "run.sh"]
    = Some (File 420 "#!/bin/sh").
Proof. vm_compute. repeat split; reflexivity. Qed.

(** With mysql selected, config/gorm.go of the copied project is removed. *)
Lemma cleanupFiles_removes_gorm_demo :
  Database demo_config = "mysql"
  ∧ fs demo_copied !! ["out"; "config"; "gorm.go"]
    = Some (File 420 "import github.com/rahmatrdn/go-skeleton/config")
  ∧ fs (@cleanupFiles in_order demo_config demo_copied).2 !! ["out"; "config"; "gorm.go"]
    = None.
Proof.
  split; [reflexivity|]. split; [vm_compute; reflexivity|].
  apply (@cleanupFiles_removes_gorm in_order demo_config demo_copied 420
           "import github.com/rahmatrdn/go-skeleton/config").
  vm_compute. reflexivity.
Defined.

(** The document of the small project: mysql and Redis, no RabbitMQ. *)
Lemma compose_declares_selected_only_demo :
  @services_of bytewise (@generateDevcontainerDockerCompose bytewise demo_config)
  = ["app"; "db"; "redis"]
  ∧ @volumes_of bytewise (@generateDevcontainerDockerCompose bytewise demo_config)
    = ["mysql-data"; "redis-data"].
Proof.
  destruct (@compose_declares_selected_only bytewise demo_config) as (Hs & Hv & _).
  - vm_compute. by left.
  - vm_compute. reflexivity.
  - split; [exact Hs|exact Hv].
Defined.

(** The database name of the project My-App. *)
Lemma database_name_sanitized_demo :
  @sanitizeName bytewise "My-App" = "my_app"
  ∧ @sanitizeName bytewise "my_app" = "my_app".
Proof.
  destruct (@database_name_sanitized bytewise demo_config demo) as (Hn & _ & _ & _ & Hi).
  - vm_compute. reflexivity.
  - vm_compute. by left.
  - split; [exact Hn|exact Hi].
Defined.

(** The user keeps every default and answers n at the end, every line
    arriving in a read of its own: the run is cancelled. *)
Lemma main_cancelled_writes_nothing_demo :
  (@main bytewise in_order 8 demo).1 = Some Cancelled
  ∧ fs (@main bytewise in_order 8 demo).2 = fs demo.
Proof.
  apply (@main_cancelled_writes_nothing bytewise in_order 8 demo).
  - vm_compute. lia.
  - vm_compute. reflexivity.
Defined.

(** ** What the prompts return *)

Section answers.
Context `{Unicode}.

Lemma promptString_nonempty (fuel r : nat) (prompt defaultValue answer : string)
    (w w' : World) :
  promptString fuel r prompt defaultValue w = (Some answer, w') → answer ≠ "".
Proof.
  revert w. induction fuel as [|fuel IH]; intros w; simpl; rewrite run_bind;
    destruct (ReadString r w) as [[line e] w1]; simpl;
    destruct (bool_decide (TrimSpace line = "")) eqn:Hline; simpl;
    destruct (bool_decide (defaultValue = "")) eqn:Hd; simpl;
    repeat match goal with
    | Hb : bool_decide _ = false |- _ => apply bool_decide_eq_false in Hb
    | Hb : bool_decide _ = true |- _ => apply bool_decide_eq_true in Hb
    end;
    first [apply IH | intros [= <- <-]; done | intros [=]].
Qed.

Lemma ReadString_at_end (r : nat) (w : World) :
  at_end r w →
  (ReadString r w).1 = ("", Some EOF) ∧ at_end r (ReadString r w).2.
Proof.
  intros [Hin Hbuf]. unfold ReadString, at_end. rewrite Hin, Hbuf. simpl.
  split; [done|]. split; [done|].
  destruct (decide (r < length (readers w))) as [Hlt|Hge].
  - by rewrite list_lookup_insert_eq.
  - rewrite list_insert_ge by lia. done.
Qed.

Lemma promptChoice_choice (fuel r : nat) (prompt : string) (validChoices : list string)
    (defaultChoice choice : string) (w w' : World) :
  promptChoice fuel r prompt validChoices defaultChoice w = (Some choice, w') →
  choice = defaultChoice ∨ choice ∈ validChoices.
Proof.
  revert w. induction fuel as [|fuel IH]; intros w; simpl; rewrite run_bind;
    destruct (ReadString r w) as [[line e] w1]; simpl;
    destruct (bool_decide (TrimSpace line = "")); simpl;
    try (intros [= <- <-]; by left);
    destruct (existsb _ validChoices) eqn:Hvalid; try done;
    try (intros [= <- <-]; right;
         apply existsb_exists in Hvalid as (c & Hc%list_elem_of_In & ->%bool_decide_eq_true);
         done).
  apply IH.
Qed.

End answers.

(** X1. [promptString] never returns the empty string; with a default it
    returns at its first reading, whatever the bound on asking again: the
    default when the trimmed line is empty, the trimmed line otherwise. *)
Theorem promptString_answers `{Unicode} (fuel r : nat) (prompt defaultValue : string)
    (w : World) :
  (promptString fuel r prompt defaultValue w).1 ≠ Some ""
  ∧ (defaultValue ≠ "" →
     let line := TrimSpace (ReadString r w).1.1 in
     promptString fuel r prompt defaultValue w
     = (Some (if bool_decide (line = "") then defaultValue else line),
        (ReadString r w).2)).
Proof.
  split.
  - destruct (promptString fuel r prompt defaultValue w) as [[answer|] w'] eqn:Hrun;
      [|done].
    apply promptString_nonempty in Hrun. simpl. congruence.
  - intros Hd line. unfold line.
    destruct fuel; simpl; rewrite run_bind;
      destruct (ReadString r w) as [[l e] w1]; simpl;
      rewrite (bool_decide_eq_false_2 (defaultValue = "")) by done; simpl;
      rewrite andb_true_r; by case_bool_decide.
Qed.

(** X2. Without a default, [promptString] asks again on an empty answer;
    at the end of the input every answer is empty, so it asks without
    end: no bound on the number of questions is enough. *)
Theorem promptString_no_default_at_end `{Unicode} (r : nat) (prompt : string)
    (w : World) :
  at_end r w → ∀ fuel, (promptString fuel r prompt "" w).1 = None.
Proof.
  intros Hend fuel. revert w Hend. induction fuel as [|fuel IH]; intros w Hend;
    destruct (ReadString_at_end r w Hend) as [Hread Hend'];
    simpl; rewrite run_bind;
    destruct (ReadString r w) as [[line e] w1]; simpl in *;
    injection Hread as -> ->; simpl; [done|].
  by apply IH.
Qed.

(** X3. [promptChoice] answers with the default or with one of the valid
    choices, and with nothing else; it returns once the input is used up,
    if not before, and at the end of the input it returns the default. *)
Theorem promptChoice_valid `{Unicode} (fuel r : nat) (prompt : string)
    (validChoices : list string) (defaultChoice : string) (w : World) :
  (∀ choice, (promptChoice fuel r prompt validChoices defaultChoice w).1 = Some choice →
     choice = defaultChoice ∨ choice ∈ validChoices)
  ∧ (r < length (readers w) → pending r w ≤ fuel →
     is_Some (promptChoice fuel r prompt validChoices defaultChoice w).1)
  ∧ (at_end r w →
     (promptChoice fuel r prompt validChoices defaultChoice w).1 = Some defaultChoice).
Proof.
  split; [|split].
  - intros choice Hrun.
    destruct (promptChoice fuel r prompt validChoices defaultChoice w) as [res w'] eqn:Hp.
    simpl in Hrun. subst res. by eapply promptChoice_choice.
  - intros Hr Hfuel.
    destruct (promptChoice_returns fuel r prompt validChoices defaultChoice w Hr Hfuel)
      as (choice & w' & -> & _). by eexists.
  - intros Hend. destruct (ReadString_at_end r w Hend) as [Hread _].
    destruct fuel; simpl; rewrite run_bind;
      destruct (ReadString r w) as [[line e] w1]; simpl in *;
      by injection Hread as -> ->.
Qed.

Section collected.
Context `{Unicode}.

Lemma collectConfiguration_fields (fuel : nat) (w w' : World) (config : ProjectConfig) :
  collectConfiguration fuel w = (Some config, w') →
  ProjectName config ≠ "" ∧ ProjectPath config ≠ "" ∧ ModulePath config ≠ ""
  ∧ Database config ∈ ["mysql"; "postgresql"; "mongodb"].
Proof.
  unfold collectConfiguration, and_then. rewrite run_bind.
  destruct (NewReader w) as [r w0]. cbn [fst snd]. rewrite run_bind.
  destruct (promptString fuel r _ _ w0) as [[name|] w1] eqn:Hname; [|done].
  cbn [fst snd]. rewrite run_bind.
  destruct (promptString fuel r _ _ w1) as [[ppath|] w2] eqn:Hpath; [|done].
  cbn [fst snd]. rewrite run_bind.
  destruct (promptString fuel r _ _ w2) as [[mpath|] w3] eqn:Hmodule; [|done].
  cbn [fst snd]. rewrite run_bind.
  destruct (promptChoice fuel r _ _ _ w3) as [[choice|] w4] eqn:Hchoice; [|done].
  cbn [fst snd]. rewrite !run_bind. cbn [fst snd mret IO_ret].
  intros [= <- _]. cbn [ProjectName ProjectPath ModulePath Database].
  apply promptString_nonempty in Hname, Hpath, Hmodule.
  apply promptChoice_choice in Hchoice.
  repeat split; [done..|].
  rewrite !elem_of_cons, elem_of_nil in Hchoice. rewrite !elem_of_cons.
  destruct Hchoice as [-> | [-> | [-> | [-> | []]]]]; simpl; auto.
Qed.

End collected.

(** X4. On an input that ends, with the bound on asking again no less than
    the length of the input, [collectConfiguration] returns a configuration
    and writes to no file; the project name, the project path and the
    module path it holds are not empty, and the database is one of mysql,
    postgresql and mongodb. *)
Theorem collectConfiguration_well_formed `{Unicode} (fuel : nat) (w : World) :
  total_length (stdin w) ≤ fuel →
  ∃ config w',
    collectConfiguration fuel w = (Some config, w') ∧ fs w' = fs w
    ∧ ProjectName config ≠ "" ∧ ProjectPath config ≠ "" ∧ ModulePath config ≠ ""
    ∧ Database config ∈ ["mysql"; "postgresql"; "mongodb"].
Proof.
  intros Hfuel.
  destruct (collectConfiguration_returns fuel w Hfuel) as (config & w' & Hrun & Hfs).
  exists config, w'. split; [done|]. split; [done|].
  by eapply collectConfiguration_fields.
Qed.

(** ** Copying one file *)

Section one_file.

Local Arguments Z.ldiff : simpl never.

Lemma copyFile_run (src dst : path) (w : World) :
  copyFile src dst w =
  match fs w !! src with
  | None => (Some ENOENT, w)
  | Some source =>
      match (Create dst w).1 with
      | Some e => (Some e, (Create dst w).2)
      | None => Copy dst src (Create dst w).2
      end
  end.
Proof.
  unfold copyFile. rewrite run_check. unfold Open.
  destruct (fs w !! src) as [n|]; cbn [fst snd]; [|done]. by rewrite run_check.
Qed.

End one_file.

(** X5. [copyFile] at its edges.  A missing source is an error before the
    destination is touched.  Copying a file onto itself empties it, and
    reports no error.  A source that is a directory is an error after the
    destination was created or emptied.  A copy that reports no error
    leaves at the destination the content of the source, and changes
    nothing else. *)
Theorem copyFile_edges (src dst : path) (w : World) :
  (fs w !! src = None → copyFile src dst w = (Some ENOENT, w))
  ∧ (∀ mode data, fs w !! src = Some (File mode data) →
       copyFile src src w = (None, set_fs <[src := File mode ""]> w))
  ∧ (∀ mode dmode old, fs w !! src = Some (Dir mode) →
       fs w !! dst = Some (File dmode old) →
       copyFile src dst w = (Some EISDIR, set_fs <[dst := File dmode ""]> w))
  ∧ (∀ mode data, fs w !! src = Some (File mode data) → src ≠ dst →
       (copyFile src dst w).1 = None →
       ∃ dmode, fs (copyFile src dst w).2 = <[dst := File dmode data]> (fs w)).
Proof.
  split; [|split; [|split]].
  - intros Hsrc. by rewrite copyFile_run, Hsrc.
  - intros mode data Hsrc. rewrite copyFile_run, Hsrc.
    erewrite Create_existing by done. cbn [fst snd].
    erewrite Copy_existing; [by rewrite set_fs_insert_twice|..];
      simpl; by rewrite lookup_insert_eq.
  - intros mode dmode old Hsrc Hdst. rewrite copyFile_run, Hsrc.
    erewrite Create_existing by done. cbn [fst snd].
    unfold Copy, ReadFile. rewrite run_bind. simpl.
    rewrite lookup_insert_ne by congruence. by rewrite Hsrc.
  - intros mode data Hsrc Hne. rewrite copyFile_run, Hsrc.
    unfold Create, create_trunc.
    destruct (fs w !! dst) as [[dmode old|dmode]|] eqn:Hdst; cbn [fst snd].
    + intros _. exists dmode. erewrite Copy_existing.
      * simpl. by rewrite insert_insert_eq.
      * simpl. by rewrite lookup_insert_ne.
      * simpl. by rewrite lookup_insert_eq.
    + done.
    + destruct (fs w !! parent dst) as [[pmode pdata|pmode]|]; cbn [fst snd]; try done.
      intros _. eexists. erewrite Copy_existing.
      * simpl. by rewrite insert_insert_eq.
      * simpl. by rewrite lookup_insert_ne.
      * simpl. by rewrite lookup_insert_eq.
Qed.

(** ** What pruning removes and what it keeps *)

Section gone.

Context {c : path} {P : option node → Prop} {q : path}.
Hypothesis P_None : P None.

Lemma only_removes_keeps {A} (m : IO A) (w1 : World) :
  only_removes (λ w, (m w).2) → cwd w1 = c → P (fs w1 !! q) →
  cwd (m w1).2 = c ∧ P (fs (m w1).2 !! q).
Proof.
  intros Hm Hc HP. destruct (Hm w1) as [Hc' Hfs]. split; [congruence|].
  destruct (Hfs q) as [-> | ->]; done.
Qed.

Lemma only_removes_gone {A} (m : IO A) (w1 : World) :
  only_removes (λ w, (m w).2) → cwd w1 = c → fs w1 !! q = None →
  cwd (m w1).2 = c ∧ fs (m w1).2 !! q = None.
Proof.
  intros Hm Hc Hq. destruct (Hm w1) as [Hc' Hfs]. split; [congruence|].
  destruct (Hfs q) as [-> | ->]; done.
Qed.

Lemma gone_bind_l {A B} (m : IO A) (k : A → IO B) :
  gone_after c P q m → (∀ a, only_removes (λ w, (k a w).2)) →
  gone_after c P q (m ≫= k).
Proof.
  intros Hm Hk w1 Hc HP. rewrite run_bind.
  destruct (Hm w1 Hc HP) as [Hc' Hq]. by apply only_removes_gone.
Qed.

Lemma gone_bind_r {A B} (m : IO A) (k : A → IO B) :
  only_removes (λ w, (m w).2) → (∀ a, gone_after c P q (k a)) →
  gone_after c P q (m ≫= k).
Proof.
  intros Hm Hk w1 Hc HP. rewrite run_bind.
  destruct (only_removes_keeps m w1 Hm Hc HP) as [Hc' HP']. by apply Hk.
Qed.

Lemma gone_joined {B} (w0 : World) (base : string) (rel : path) (k : path → IO B) :
  cwd w0 = c → gone_after c P q (k (Join w0 base rel)) →
  gone_after c P q (joined base rel ≫= k).
Proof.
  intros Hc0 Hk w1 Hc HP. rewrite run_bind, run_joined. cbn [fst snd].
  rewrite (Join_cwd w0) by congruence. by apply Hk.
Qed.

Lemma gone_for_each {A} (body : A → IO ()) (l : list A) (x0 : A) :
  x0 ∈ l → (∀ x, only_removes (λ w, (body x w).2)) →
  gone_after c P q (body x0) → gone_after c P q (for_each l body).
Proof.
  intros Hin Hbody H0. induction l as [|x l IH]; [by apply elem_of_nil in Hin|].
  simpl. apply elem_of_cons in Hin as [<-|Hin].
  - apply gone_bind_l; [done|]. intros _. by apply only_removes_for_each.
  - apply gone_bind_r; [done|]. intros _. by apply IH.
Qed.

Lemma gone_RemoveAll (p : path) : p `prefix_of` q → gone_after c P q (RemoveAll p).
Proof. intros Hp w1 Hc _. split; [done|]. by apply RemoveAll_gone. Qed.

End gone.

Lemma gone_Remove (c q : path) : gone_after c file_or_none q (Remove q).
Proof.
  intros w1 Hc [Hq|(mode & data & Hq)].
  - destruct (only_removes_gone (c := c) (q := q) (Remove q) w1); auto.
    apply Remove_only_removes.
  - split.
    + destruct (Remove_only_removes q w1) as [Hc' _]. simpl in *. congruence.
    + by eapply Remove_file_gone.
Qed.

Ltac bool_facts :=
  repeat match goal with
  | Hb : bool_decide _ = true |- _ => apply bool_decide_eq_true in Hb
  | Hb : bool_decide _ = false |- _ => apply bool_decide_eq_false in Hb
  | Hb : _ && _ = true |- _ => apply andb_true_iff in Hb as [? ?]
  | Hb : _ || _ = false |- _ => apply orb_false_iff in Hb as [? ?]
  | Hb : _ && _ = false |- _ => apply andb_false_iff in Hb as [? | ?]
  | Hb : negb _ = true |- _ => apply negb_true_iff in Hb
  | Hb : negb _ = false |- _ => apply negb_false_iff in Hb
  | Hn : ¬ (_ ≠ _) |- _ => apply dec_stable in Hn
  end.

Ltac absurd_branch := exfalso; bool_facts; solve [congruence | tauto | done].

Ltac gone w :=
  cbv zeta;
  lazymatch goal with
  | |- gone_after _ _ _ (Remove _) => apply gone_Remove
  | |- gone_after _ _ _ (RemoveAll _) => apply gone_RemoveAll; done
  | |- gone_after _ _ _ (joined _ _ ≫= _) =>
      eapply (gone_joined w); [done|]; rewrite Join_root; gone w
  | |- gone_after _ _ _ (for_each (range _) _) =>
      first
        [ solve [eapply gone_for_each with (x0 := ("mysql", _));
                 [first [by left | done]
                 |apply in_range; rewrite !elem_of_cons; auto
                 |intros [? ?]; io_steps
                 |cbv beta iota; gone w]]
        | solve [eapply gone_for_each with (x0 := ("postgresql", _));
                 [first [by left | done]
                 |apply in_range; rewrite !elem_of_cons; auto
                 |intros [? ?]; io_steps
                 |cbv beta iota; gone w]]
        | solve [eapply gone_for_each with (x0 := ("mongodb", _));
                 [first [by left | done]
                 |apply in_range; rewrite !elem_of_cons; auto
                 |intros [? ?]; io_steps
                 |cbv beta iota; gone w]] ]
  | |- gone_after _ _ _ (if ?b then _ else _) =>
      destruct b eqn:?; first [absurd_branch | gone w]
  | |- gone_after _ _ _ (_ ≫= _) =>
      first
        [ solve [apply gone_bind_l; [gone w | intros; io_steps]]
        | apply gone_bind_r;
          [first [by left | done] | io_steps | intros ?; gone w] ]
  end.

Section pruning.
Context `{RangeOrder}.

Lemma elem_of_pruned_files (config : ProjectConfig) (rel : path) :
  rel ∈ pruned_files config ↔
  (rel = ["config"; "mysql.go"] ∧ Database config ≠ "mysql")
  ∨ (rel = ["config"; "postgre.go"] ∧ Database config ≠ "postgresql")
  ∨ (rel = ["config"; "mongodb.go"] ∧ Database config ≠ "mongodb")
  ∨ rel = ["config"; "gorm.go"]
  ∨ (rel = ["config"; "redis.go"] ∧ UseRedis config = false)
  ∨ (rel = ["config"; "rabbitmq.go"] ∧ UseRabbitMQ config = false).
Proof.
  unfold pruned_files. rewrite !elem_of_app.
  repeat case_bool_decide; destruct (UseRedis config), (UseRabbitMQ config);
    rewrite ?elem_of_cons, ?elem_of_nil; intuition congruence.
Qed.

Lemma elem_of_pruned_dirs (config : ProjectConfig) (rel : path) :
  rel ∈ pruned_dirs config ↔
  (rel = ["internal"; "repository"; "mysql"]
   ∧ Database config ≠ "mysql" ∧ Database config ≠ "postgresql")
  ∨ (rel = ["internal"; "repository"; "mongodb"] ∧ Database config ≠ "mongodb").
Proof.
  unfold pruned_dirs. rewrite !elem_of_app.
  repeat case_bool_decide;
    rewrite ?elem_of_cons, ?elem_of_nil in *; intuition congruence.
Qed.

Lemma cleanupFiles_file_gone (config : ProjectConfig) (w : World) (rel : path) :
  rel ∈ pruned_files config →
  gone_after (cwd w) file_or_none (project_root w config ++ rel) (cleanupFiles config).
Proof.
  rewrite elem_of_pruned_files. unfold cleanupFiles.
  intros [[-> Hdb]|[[-> Hdb]|[[-> Hdb]|[->|[[-> Hs]|[-> Hs]]]]]].
  - gone w.
  - gone w.
  - gone w.
  - destruct (decide (Database config = "mysql")) as [Hdb|Hdb]; gone w.
  - gone w.
  - gone w.
Qed.

Lemma cleanupFiles_dir_gone (config : ProjectConfig) (w : World) (dir q : path) :
  dir ∈ pruned_dirs config → (project_root w config ++ dir) `prefix_of` q →
  gone_after (cwd w) (λ _, True) q (cleanupFiles config).
Proof.
  rewrite elem_of_pruned_dirs. unfold cleanupFiles.
  intros [(-> & Hdb1 & Hdb2)|[-> Hdb]] Hpre; gone w.
Qed.

Lemma cleanupFiles_keeps (config : ProjectConfig) (w : World) (q : path) :
  (∀ rel, rel ∈ pruned_files config → q ≠ project_root w config ++ rel) →
  (∀ dir, dir ∈ pruned_dirs config → ¬ (project_root w config ++ dir) `prefix_of` q) →
  fs (cleanupFiles config w).2 !! q = fs w !! q.
Proof.
  intros Hfiles Hdirs.
  pose (I := λ w1 : World, cwd w1 = cwd w ∧ fs w1 !! q = fs w !! q).
  assert (Hjoin : ∀ rel,
            triple I (joined (ProjectPath config) rel)
              (λ p w1, p = project_root w config ++ rel ∧ I w1)).
  { intros rel w1 Hw1. rewrite run_joined. simpl.
    split; [|done]. destruct Hw1 as [Hc _]. by rewrite (Join_cwd w), Join_root. }
  assert (Hrm : ∀ rel, rel ∈ pruned_files config →
            triple I (Remove (project_root w config ++ rel)) (λ _, I)).
  { intros rel Hrel w1 [Hc Hq].
    destruct (Remove_leaves (project_root w config ++ rel) w1) as [Hc' Hp].
    split; [simpl in *; congruence|]. rewrite Hp; [done|]. by apply Hfiles. }
  assert (Hall : ∀ dir, dir ∈ pruned_dirs config →
            triple I (RemoveAll (project_root w config ++ dir)) (λ _, I)).
  { intros dir Hdir w1 [Hc Hq].
    destruct (RemoveAll_leaves (project_root w config ++ dir) w1) as [Hc' Hp].
    split; [simpl in *; congruence|]. rewrite Hp; [done|]. by apply Hdirs. }
  assert (Hrun : triple I (cleanupFiles config) (λ _, I)).
  { unfold cleanupFiles.
    repeat match goal with
      | |- triple _ (joined _ _ ≫= _) _ =>
          eapply triple_bind; [apply Hjoin|];
          intros ?; apply triple_pull; intros ->
      | |- triple ?P (for_each _ _ ≫= _) _ =>
          eapply (triple_bind P (λ _, P));
          [apply triple_for_each; intros [db f] Hin;
           rewrite range_Permutation, !elem_of_cons, elem_of_nil in Hin;
           destruct Hin as [Hin|[Hin|[Hin|[]]]]; simplify_eq; cbv beta iota
          |intros ?]
      | |- triple ?P ((if _ then _ else _) ≫= _) _ =>
          eapply (triple_bind P (λ _, P)); [|intros ?]
      | |- triple _ (if _ then _ else _) _ =>
          apply triple_if; intros ?
      | |- triple ?P (Remove _ ≫= _) _ =>
          eapply (triple_bind P (λ _, P)); [apply Hrm|intros ?]
      | |- triple ?P (RemoveAll _ ≫= _) _ =>
          eapply (triple_bind P (λ _, P)); [apply Hall|intros ?]
      | |- triple _ (mret _) _ => by intros ??
      end.
    all: bool_facts.
    all: first [ rewrite elem_of_pruned_files; intuition congruence
               | rewrite elem_of_pruned_dirs; intuition congruence ]. }
  by apply (Hrun w).
Qed.

End pruning.

(** X6. What [cleanupFiles] removes and what it keeps, whatever the order
    in which Go ranges over its two maps.  Each of [pruned_files] that is
    a file is gone afterwards; each of [pruned_dirs] is gone with all it
    holds; every other entry, inside the project or outside, is as it
    was. *)
Theorem cleanupFiles_prunes `{RangeOrder} (config : ProjectConfig) (w : World) :
  let root := project_root w config in
  let w' := (cleanupFiles config w).2 in
  (∀ rel mode data, rel ∈ pruned_files config →
     fs w !! (root ++ rel) = Some (File mode data) → fs w' !! (root ++ rel) = None)
  ∧ (∀ dir q, dir ∈ pruned_dirs config → (root ++ dir) `prefix_of` q →
       fs w' !! q = None)
  ∧ (∀ q, (∀ rel, rel ∈ pruned_files config → q ≠ root ++ rel) →
       (∀ dir, dir ∈ pruned_dirs config → ¬ (root ++ dir) `prefix_of` q) →
       fs w' !! q = fs w !! q).
Proof.
  intros root w'. split; [|split].
  - intros rel mode data Hrel Hfile.
    apply (cleanupFiles_file_gone config w rel Hrel w); [done|].
    right. by exists mode, data.
  - intros dir q Hdir Hpre.
    by apply (cleanupFiles_dir_gone config w dir q Hdir Hpre w).
  - intros q Hfiles Hdirs. by apply cleanupFiles_keeps.
Qed.

(** X7. [cleanupFiles] makes nothing and changes nothing: every entry is
    afterwards as it was, or gone; the working directory is as it was. *)
Theorem cleanupFiles_creates_nothing `{RangeOrder} (config : ProjectConfig) (w : World)
    (p : path) :
  let w' := (cleanupFiles config w).2 in
  cwd w' = cwd w ∧ (fs w' !! p = None ∨ fs w' !! p = fs w !! p).
Proof.
  intros w'.
  assert (Hstep : only_removes (λ w, (cleanupFiles config w).2)).
  { unfold cleanupFiles. io_steps. }
  destruct (Hstep w) as [Hc Hfs]. split; [done|apply Hfs].
Qed.

(** ** Removing the lines of unselected options *)

Section lines.
Context `{Unicode}.

Lemma newline_free_bytes (s : string) :
  Contains s nl = false ↔ all_bytes (λ x, negb (bool_decide (x = newline))) s = true.
Proof.
  unfold nl. induction s as [|b s IH]; [done|].
  rewrite Contains_byte_cons. simpl.
  rewrite orb_false_iff, andb_true_iff, IH, negb_true_iff.
  rewrite (bool_decide_ext (newline = b) (b = newline)) by done. done.
Qed.

Lemma str_prefix_app_r (p a b : string) :
  String.prefix p a = true → String.prefix p (a +:+ b) = true.
Proof.
  revert a. induction p as [|x p IH]; intros a Hp; [apply str_prefix_nil|].
  destruct a as [|y a]; [done|]. rewrite str_app_cons, str_prefix_cons in *.
  apply andb_true_iff in Hp as [-> Hp]. simpl. by apply IH.
Qed.

(** A pattern without a newline lies in a text exactly when it lies in
    one of the two parts a newline separates. *)
Lemma HasPrefix_sep (a b p : string) :
  Contains p nl = false →
  HasPrefix (a +:+ nl +:+ b) p = HasPrefix a p.
Proof.
  intros Hp%newline_free_bytes. unfold HasPrefix.
  destruct (String.prefix p a) eqn:Ha.
  - by apply str_prefix_app_r.
  - destruct (String.prefix p (a +:+ nl +:+ b)) eqn:Hab; [|done].
    apply prefix_cut in Hab; [congruence|done].
Qed.

Lemma Contains_sep (a b p : string) :
  Contains p nl = false →
  Contains (a +:+ nl +:+ b) p = Contains a p || Contains b p.
Proof.
  intros Hp. induction a as [|c a IH].
  - change ("" +:+ nl +:+ b) with (String newline b).
    rewrite Contains_cons. simpl. rewrite orb_false_r. f_equal.
    apply (HasPrefix_sep "" b p Hp).
  - rewrite str_app_cons, !Contains_cons, IH, orb_assoc. f_equal. f_equal.
    apply (HasPrefix_sep (String c a) b p Hp).
Qed.

Lemma concat_cons (sep x : string) (l : list string) :
  l ≠ [] → String.concat sep (x :: l) = x +:+ sep +:+ String.concat sep l.
Proof. by destruct l. Qed.

Lemma split_scan_nonempty (cur s : string) : split_scan nl 0 cur s ≠ [].
Proof.
  revert cur. induction s as [|c s IH]; intros cur; [done|].
  rewrite split_scan_0. by destruct (HasPrefix _ _).
Qed.

Lemma HasPrefix_nl (c : ascii) (s : string) :
  HasPrefix (String c s) nl = bool_decide (newline = c).
Proof. apply HasPrefix_byte. Qed.

(** Joining the lines of a text gives the text back. *)
Lemma Join_split_scan (cur s : string) :
  Strings.Join (split_scan nl 0 cur s) nl = cur +:+ s.
Proof.
  unfold Strings.Join. revert cur. induction s as [|c s IH]; intros cur.
  - simpl. by rewrite str_app_nil_r.
  - rewrite split_scan_0, HasPrefix_nl.
    case_bool_decide as Hc.
    + subst c. simpl String.length. simpl Nat.sub.
      rewrite concat_cons by apply split_scan_nonempty. by rewrite IH.
    + rewrite IH. by rewrite str_app_assoc.
Qed.

Lemma Join_Split (s : string) : Strings.Join (Split s nl) nl = s.
Proof. apply (Join_split_scan "" s). Qed.

Lemma split_scan_newline_free (cur s : string) :
  Contains cur nl = false →
  Forall (λ line, Contains line nl = false) (split_scan nl 0 cur s).
Proof.
  revert cur. induction s as [|c s IH]; intros cur Hcur.
  - by apply Forall_singleton.
  - rewrite split_scan_0, HasPrefix_nl.
    case_bool_decide as Hc.
    + apply Forall_cons. split; [done|]. by apply IH.
    + apply IH. unfold nl in *. rewrite Contains_byte_app, Hcur.
      rewrite Contains_byte_cons. by rewrite bool_decide_eq_false_2.
Qed.

Lemma Split_newline_free (s : string) :
  Forall (λ line, Contains line nl = false) (Split s nl).
Proof. by apply (split_scan_newline_free "" s). Qed.

Lemma split_scan_single (cur line : string) :
  Contains line nl = false → split_scan nl 0 cur line = [cur +:+ line].
Proof.
  revert cur. induction line as [|b line IH]; intros cur Hline.
  - by rewrite str_app_nil_r.
  - unfold nl in *. rewrite Contains_byte_cons in Hline.
    apply orb_false_iff in Hline as [Hb Hline].
    rewrite split_scan_0, HasPrefix_byte, Hb, IH by done.
    by rewrite str_app_assoc.
Qed.

(** Splitting the join of lines gives the lines back, when there is a
    line at all. *)
Lemma Split_Join (lines : list string) :
  lines ≠ [] → Forall (λ line, Contains line nl = false) lines →
  Split (Strings.Join lines nl) nl = lines.
Proof.
  unfold Split, Strings.Join. simpl. intros Hne Hlines.
  induction Hlines as [|line lines Hline Hlines IH]; [done|].
  destruct lines as [|line' lines].
  - by apply (split_scan_single "").
  - rewrite concat_cons by done. rewrite split_scan_line by done.
    by rewrite IH.
Qed.

(** A pattern without a newline lies in the join of lines exactly when
    it lies in one of the lines. *)
Lemma Contains_Join (lines : list string) (p : string) :
  p ≠ "" → Contains p nl = false →
  Contains (Strings.Join lines nl) p = existsb (λ line, Contains line p) lines.
Proof.
  intros Hne Hp. unfold Strings.Join. induction lines as [|line lines IH].
  - simpl. unfold HasPrefix. by destruct p.
  - destruct lines as [|line' lines].
    + simpl. by rewrite orb_false_r.
    + rewrite concat_cons by done. rewrite Contains_sep, IH by done. done.
Qed.

Lemma filter_all {A} (P : A → Prop) `{!∀ x, Decision (P x)} (l : list A) :
  Forall P l → filter P l = l.
Proof.
  induction 1 as [|x l Hx _ IH]; [done|]. by rewrite filter_cons_True, IH.
Qed.

Lemma Forall_filter_keeps {A} (P Q : A → Prop) `{!∀ x, Decision (P x)} (l : list A) :
  Forall Q l → Forall Q (filter P l).
Proof.
  rewrite !Forall_forall. intros HQ x [_ Hx]%list_elem_of_filter. by apply HQ.
Qed.

Lemma removeLines_Join (lines : list string) (pattern : string) :
  pattern ≠ "" → Forall (λ line, Contains line nl = false) lines →
  removeLines (Strings.Join lines nl) pattern
  = Strings.Join (filter (λ line, ¬ Contains line pattern) lines) nl.
Proof.
  intros Hne Hlines. unfold removeLines. destruct lines as [|line lines].
  - simpl. rewrite filter_cons_True; [rewrite filter_nil; reflexivity|].
    unfold Contains, HasPrefix. destruct pattern as [|c p]; [done|]. by intros [].
  - by rewrite Split_Join.
Qed.

Lemma removeLines_lines (content pattern : string) :
  removeLines content pattern
  = Strings.Join (filter (λ line, ¬ Contains line pattern) (Split content nl)) nl.
Proof. done. Qed.

Lemma Contains_filtered (P : string → Prop) `{!∀ x, Decision (P x)}
    (lines : list string) (p : string) :
  p ≠ "" → Contains p nl = false →
  (∀ line, line ∈ lines → P line → Contains line p = false) →
  Contains (Strings.Join (filter P lines) nl) p = false.
Proof.
  intros Hne Hp Hlines. rewrite Contains_Join by done.
  apply not_true_is_false. intros (line & Hin & Hc)%existsb_exists.
  apply list_elem_of_In, list_elem_of_filter in Hin as [HP Hin].
  rewrite Hlines in Hc; done.
Qed.

Lemma Contains_line (content line p : string) :
  p ≠ "" → Contains p nl = false →
  Contains content p = false → line ∈ Split content nl → Contains line p = false.
Proof.
  intros Hne Hp Hc Hin. rewrite <-(Join_Split content), Contains_Join in Hc by done.
  apply not_true_iff_false. intros Hline. apply not_true_iff_false in Hc.
  apply Hc, existsb_exists. exists line. split; [|done]. by apply list_elem_of_In.
Qed.

End lines.

(** X8. [removeLines] for a pattern that is not empty and holds no
    newline.  The pattern does not occur in the result.  A text in which
    it does not occur is returned as it is.  Of a text given as lines
    joined by newlines, the result is the lines that do not hold the
    pattern, in their order, joined by newlines.  Removing again changes
    nothing.  Another such pattern that did not occur before does not
    occur afterwards. *)
Theorem removeLines_removes `{Unicode} (content pattern : string) :
  pattern ≠ "" → Contains pattern nl = false →
  Contains (removeLines content pattern) pattern = false
  ∧ (Contains content pattern = false → removeLines content pattern = content)
  ∧ (∀ lines, Forall (λ line, Contains line nl = false) lines →
       removeLines (Strings.Join lines nl) pattern
       = Strings.Join (filter (λ line, ¬ Contains line pattern) lines) nl)
  ∧ removeLines (removeLines content pattern) pattern = removeLines content pattern
  ∧ (∀ other, other ≠ "" → Contains other nl = false →
       Contains content other = false →
       Contains (removeLines content pattern) other = false).
Proof.
  intros Hne Hp.
  assert (Hclean : Contains (removeLines content pattern) pattern = false).
  { rewrite removeLines_lines. apply Contains_filtered; [done..|].
    intros line _ Hline. by apply Is_true_false_1. }
  assert (Hsame : ∀ text, Contains text pattern = false → removeLines text pattern = text).
  { intros text Htext. rewrite removeLines_lines, filter_all; [apply Join_Split|].
    apply Forall_forall. intros line Hline.
    apply Is_true_false_2. by eapply Contains_line. }
  split; [done|]. split; [apply Hsame|]. split; [|split].
  - intros lines Hlines. by apply removeLines_Join.
  - by apply Hsame.
  - intros other Hother Hnl Hc. rewrite removeLines_lines.
    apply Contains_filtered; [done..|].
    intros line Hline _. by eapply Contains_line.
Qed.

Section options.
Context `{Unicode}.

Lemma mentions_none_cons (p : string) (ps : list string) (line : string) :
  mentions_none (p :: ps) line ↔ ¬ Contains line p ∧ mentions_none ps line.
Proof.
  unfold mentions_none. simpl. by rewrite andb_True, negb_True.
Qed.

Lemma foldl_removeLines_Join (patterns : list string) (lines : list string) :
  Forall (λ p, p ≠ "") patterns →
  Forall (λ line, Contains line nl = false) lines →
  foldl removeLines (Strings.Join lines nl) patterns
  = Strings.Join (filter (λ line, mentions_none patterns line) lines) nl.
Proof.
  intros Hps. revert lines. induction Hps as [|p ps Hp Hps IH]; intros lines Hlines.
  - simpl. by rewrite filter_all by by apply Forall_forall.
  - simpl. rewrite removeLines_Join by done.
    rewrite IH by by apply Forall_filter_keeps.
    rewrite list_filter_filter. f_equal. apply list_filter_iff.
    intros line. pose proof (mentions_none_cons p ps line). tauto.
Qed.

Lemma unselected_options_plain (config : ProjectConfig) (option : string) :
  option ∈ unselected_options config → option ≠ "" ∧ Contains option nl = false.
Proof.
  unfold unselected_options. rewrite !elem_of_app.
  repeat case_bool_decide; destruct (UseRedis config), (UseRabbitMQ config);
    rewrite ?elem_of_cons, ?elem_of_nil;
    intros Hin; decompose [or] Hin; try done; by subst.
Qed.

(** What [updateConfigFiles] writes to the file it finds. *)
Lemma updateConfigFiles_run (config : ProjectConfig) (w : World) (mode : Z)
    (content : string) :
  let configPath := project_root w config ++ ["config"; "config.go"] in
  fs w !! configPath = Some (File mode content) →
  updateConfigFiles config w
  = (None,
     set_fs <[configPath :=
                File mode
                  (Strings.Join
                     (filter (λ line, mentions_none (unselected_options config) line)
                        (Split content nl)) nl)]> w).
Proof.
  intros configPath Hfile. unfold updateConfigFiles.
  rewrite run_bind, run_joined, Join_root. cbn [fst snd]. fold configPath.
  rewrite run_bind. unfold ReadFile. rewrite Hfile. cbn [fst snd].
  erewrite WriteFile_existing by done.
  apply (f_equal (λ text, (None, set_fs <[configPath := File mode text]> w))).
  transitivity (foldl removeLines content (unselected_options config)).
  { unfold unselected_options.
    repeat case_bool_decide; destruct (UseRedis config), (UseRabbitMQ config);
      reflexivity. }
  rewrite <-(Join_Split content) at 1.
  apply foldl_removeLines_Join.
  - apply Forall_forall. intros option Hin.
    by apply (unselected_options_plain config).
  - apply Split_newline_free.
Qed.

End options.

(** X9. [updateConfigFiles] on config/config.go of the project.  When the
    file is missing it returns the error and writes nothing.  Otherwise it
    leaves in the file, with its mode, the lines that name none of the
    unselected options, in their order; no unselected option is named in
    what it leaves. *)
Theorem updateConfigFiles_prunes_options `{Unicode} (config : ProjectConfig) (w : World) :
  let configPath := project_root w config ++ ["config"; "config.go"] in
  (fs w !! configPath = None → updateConfigFiles config w = (Some ENOENT, w))
  ∧ (∀ mode content, fs w !! configPath = Some (File mode content) →
       let kept := filter (λ line, mentions_none (unselected_options config) line)
                     (Split content nl) in
       updateConfigFiles config w
       = (None, set_fs <[configPath := File mode (Strings.Join kept nl)]> w)
       ∧ ∀ option, option ∈ unselected_options config →
           Contains (Strings.Join kept nl) option = false).
Proof.
  intros configPath. split.
  - intros Hnone. unfold updateConfigFiles.
    rewrite run_bind, run_joined, Join_root. cbn [fst snd]. fold configPath.
    rewrite run_bind. unfold ReadFile. by rewrite Hnone.
  - intros mode content Hfile kept. split.
    + by apply updateConfigFiles_run.
    + intros option Hin.
      destruct (unselected_options_plain config option Hin) as [Hne Hnl].
      apply Contains_filtered; [done..|].
      intros line _ Hline. unfold mentions_none in Hline.
      apply Is_true_true, forallb_forall with (x := option) in Hline;
        [|by apply list_elem_of_In].
      by apply negb_true_iff in Hline.
Qed.

(** ** The walk, and what the rewrite step leaves *)

Section walk.

Variable m : gmap path node.

(** Every visit of a walk is of an entry at or below the root, with
    what the map holds of it. *)
Lemma walk_from_sound (fuel : nat) (p q : path) (info : FileInfo) :
  (q, info) ∈ walk_from fuel m p →
  p `prefix_of` q ∧ ∃ n, m !! q = Some n ∧ info = info_of n.
Proof.
  revert p. induction fuel as [|fuel IH]; intros p; simpl;
    destruct (m !! p) as [n|] eqn:Hp; try by intros ?%elem_of_nil.
  - destruct n; rewrite elem_of_cons, elem_of_nil; intros [[= -> ->]|[]]; eauto.
  - rewrite elem_of_cons. intros [[= -> ->]|Hin]; [by eauto|].
    destruct n as [mode data|mode]; [by apply elem_of_nil in Hin|].
    apply list_elem_of_bind in Hin as (name & Hin & _).
    apply IH in Hin as [Hpre Hq]. split; [|done].
    etrans; [|done]. by apply prefix_app_r.
Qed.

Lemma walk_from_NoDup (fuel : nat) (p : path) : NoDup (walk_from fuel m p).*1.
Proof.
  apply NoDup_fmap_fst.
  { intros q i1 i2 (_ & n1 & Hn1 & ->)%walk_from_sound (_ & n2 & Hn2 & ->)%walk_from_sound.
    congruence. }
  revert p. induction fuel as [|fuel IH]; intros p; simpl;
    destruct (m !! p) as [n|] eqn:Hp; try apply NoDup_nil_2.
  - destruct n; apply NoDup_singleton.
  - apply NoDup_cons. split.
    + destruct n as [mode data|mode]; [by intros ?%elem_of_nil|].
      intros (name & Hin & _)%list_elem_of_bind.
      apply walk_from_sound in Hin as [[rest Hrest] _].
      apply (f_equal length) in Hrest. rewrite !length_app in Hrest. simpl in Hrest. lia.
    + destruct n as [mode data|mode]; [apply NoDup_nil_2|].
      apply NoDup_bind; [|by intros; apply IH|apply readDirNames_NoDup].
      intros x1 x2 [q info] _ _ [[r1 Hr1] _]%walk_from_sound [[r2 Hr2] _]%walk_from_sound.
      rewrite Hr1, <-!(assoc_L (++)) in Hr2. by simplify_list_eq.
Qed.

Hypothesis tree : well_formed m.

(** With fuel for the depth, a walk visits every entry at or below a
    root that exists. *)
Lemma walk_from_complete (fuel : nat) (p rel : path) (n : node) :
  m !! (p ++ rel) = Some n → length rel ≤ fuel →
  (p ++ rel, info_of n) ∈ walk_from fuel m p.
Proof.
  revert p rel. induction fuel as [|fuel IH]; intros p rel Hn Hfuel.
  - destruct rel; [|simpl in Hfuel; lia]. rewrite (right_id_L [] (++)) in *.
    simpl. rewrite Hn. destruct n; by left.
  - destruct rel as [|x rel].
    + rewrite (right_id_L [] (++)) in *. simpl. rewrite Hn. by left.
    + destruct (well_formed_ancestor m p (x :: rel) tree) as [mode Hp]; [done|by eauto|].
      simpl. rewrite Hp. right. apply list_elem_of_bind. exists x. split.
      * assert (Heq : p ++ x :: rel = (p ++ [x]) ++ rel)
          by (by rewrite <-(assoc_L (++))).
        rewrite Heq in *. apply IH; [done|simpl in Hfuel; lia].
      * apply readDirNames_elem. destruct rel as [|y rel]; [by eauto|].
        destruct (well_formed_ancestor m (p ++ [x]) (y :: rel) tree) as [mode' Hx];
          [done| |by eauto].
        rewrite <-(assoc_L (++)). by eauto.
Qed.

Lemma walk_from_paths (p q : path) :
  q ∈ (walk_from (depth_bound m) m p).*1 ↔ p `prefix_of` q ∧ is_Some (m !! q).
Proof.
  rewrite list_elem_of_fmap. split.
  - intros ([q' info] & -> & (Hpre & n & Hn & _)%walk_from_sound). by eauto.
  - intros [[rel ->] [n Hn]]. exists (p ++ rel, info_of n). split; [done|].
    apply walk_from_complete; [done|].
    pose proof (depth_bound_spec m (p ++ rel) (mk_is_Some _ _ Hn)) as Hlt.
    rewrite length_app in Hlt. lia.
Qed.

End walk.

Section rewrite.
Context `{Unicode}.

Lemma HasSuffix_app (a b e : string) :
  HasSuffix b e = true → HasSuffix (a +:+ b) e = true.
Proof.
  unfold HasSuffix. intros Hb. rewrite str_rev_app_distr. by apply str_prefix_app_r.
Qed.

Lemma HasSuffix_basename (p : path) (e : string) :
  HasSuffix (basename p) e = true → HasSuffix (path_text p) e = true.
Proof.
  induction p as [|x [|y l] IH]; [done..|].
  unfold basename in *. rewrite last_cons_cons. intros Hs%IH.
  rewrite path_text_cons. by do 2 apply HasSuffix_app.
Qed.

(** The test of the code, on the path, is the test on the name. *)
Lemma text_extension_test (p : path) :
  negb (HasSuffix (path_text p) ".go") && negb (HasSuffix (path_text p) ".mod")
  = negb (text_extension (basename p)).
Proof.
  destruct (text_extension (basename p)) eqn:Hext.
  - unfold text_extension in Hext. apply orb_true_iff in Hext as [Hs|Hs];
      apply HasSuffix_basename in Hs; rewrite Hs; simpl; [done|apply andb_false_r].
  - by apply text_extension_path.
Qed.

Lemma rewrite_visit_run (config : ProjectConfig) (q : path) (n : node) (w1 : World) :
  fs w1 !! q = Some n →
  ∃ w2, rewrite_visit config q (info_of n) None w1 = (None, w2)
        ∧ cwd w2 = cwd w1 ∧ fs w2 = <[q := rewrite_entry config q n]> (fs w1).
Proof.
  intros Hq. unfold rewrite_visit, rewrite_entry.
  rewrite bool_decide_eq_false_2 by (by intros []). rewrite text_extension_test.
  destruct n as [mode data|mode]; simpl.
  - destruct (text_extension (basename q)); simpl.
    + rewrite run_bind. unfold ReadFile. rewrite Hq. cbn [fst snd].
      erewrite WriteFile_existing by done. by eexists.
    + exists w1. by rewrite insert_id.
  - exists w1. by rewrite insert_id.
Qed.

Lemma rewrite_visits (config : ProjectConfig) (visits : list (path * FileInfo))
    (w1 : World) :
  NoDup visits.*1 →
  (∀ q info, (q, info) ∈ visits → ∃ n, fs w1 !! q = Some n ∧ info = info_of n) →
  ∃ w2, visit_all (rewrite_visit config) visits w1 = (None, w2)
        ∧ cwd w2 = cwd w1
        ∧ ∀ q, fs w2 !! q = if decide (q ∈ visits.*1)
                             then rewrite_entry config q <$> fs w1 !! q
                             else fs w1 !! q.
Proof.
  revert w1. induction visits as [|[q info] visits IH]; intros w1 Hnd Hvisits.
  - exists w1. split; [done|]. split; [done|]. intros q.
    rewrite decide_False; [done|]. by intros ?%elem_of_nil.
  - rewrite fmap_cons in Hnd. apply NoDup_cons in Hnd as [Hq Hnd]. simpl in Hq.
    destruct (Hvisits q info) as (n & Hn & ->); [by left|].
    destruct (rewrite_visit_run config q n w1 Hn) as (wa & Hrun & Hc & Hfs).
    destruct (IH wa Hnd) as (w2 & Hrest & Hc2 & Hfs2).
    { intros q' info' Hin. destruct (Hvisits q' info') as (n' & Hn' & ->); [by right|].
      exists n'. split; [|done]. rewrite Hfs, lookup_insert_ne; [done|].
      intros ->. apply Hq, list_elem_of_fmap. by exists (q', info_of n'). }
    exists w2. simpl. rewrite run_bind, Hrun. cbn [fst snd].
    split; [done|]. split; [congruence|]. intros q'. rewrite Hfs2, Hfs.
    destruct (decide (q' = q)) as [->|Hne].
    + rewrite decide_False by done. rewrite lookup_insert_eq, Hn.
      rewrite decide_True by by left. done.
    + rewrite lookup_insert_ne by done.
      destruct (decide (q' ∈ visits.*1)) as [Hin|Hnin].
      * rewrite decide_True by by right. done.
      * rewrite decide_False; [done|]. simpl. rewrite elem_of_cons. tauto.
Qed.

Lemma resolve_project (config : ProjectConfig) (w : World) :
  ProjectPath config ≠ "" →
  resolve w (ProjectPath config) = Some (project_root w config).
Proof.
  intros Hne. unfold project_root, Join, resolve.
  rewrite decide_False by done. by rewrite (right_id_L [] (++)).
Qed.

End rewrite.

Section rewrite_run.
Context `{Unicode}.

Lemma updateModulePaths_walk (config : ProjectConfig) (w : World) :
  ProjectPath config ≠ "" → well_formed (fs w) →
  is_Some (fs w !! project_root w config) →
  (updateModulePaths config w).1 = None
  ∧ cwd (updateModulePaths config w).2 = cwd w
  ∧ ∀ q, fs (updateModulePaths config w).2 !! q
         = if decide (project_root w config `prefix_of` q)
           then rewrite_entry config q <$> fs w !! q
           else fs w !! q.
Proof.
  intros Hpath Htree [n Hroot].
  change (updateModulePaths config) with (Walk (ProjectPath config) (rewrite_visit config)).
  unfold Walk. rewrite resolve_project, Hroot by done.
  set (root := project_root w config) in *.
  destruct (rewrite_visits config (walk_from (depth_bound (fs w)) (fs w) root) w)
    as (w2 & Hrun & Hc & Hfs).
  { apply walk_from_NoDup. }
  { intros q info (_ & n' & Hn' & ->)%walk_from_sound. by eauto. }
  rewrite Hrun. split; [done|]. split; [done|]. intros q. cbn [snd]. rewrite Hfs.
  destruct (decide (root `prefix_of` q)) as [Hpre|Hpre].
  - destruct (fs w !! q) as [n'|] eqn:Hq.
    + rewrite decide_True; [done|]. apply walk_from_paths; [done|]. by rewrite Hq.
    + by destruct (decide _).
  - rewrite decide_False; [done|]. rewrite walk_from_paths by done. tauto.
Qed.

End rewrite_run.

(** X10. [updateModulePaths] in full, on a file system that is a tree.
    When the project directory is missing it returns the error and
    changes nothing.  Otherwise it returns no error; every file at or
    below the project directory whose name ends in .go or .mod holds
    afterwards its content with every occurrence of the template's module
    path replaced, once, and has its mode; every other entry is as it
    was. *)
Theorem updateModulePaths_rewrites `{Unicode} (config : ProjectConfig) (w : World) :
  ProjectPath config ≠ "" → well_formed (fs w) →
  let root := project_root w config in
  (fs w !! root = None → updateModulePaths config w = (Some ENOENT, w))
  ∧ (is_Some (fs w !! root) →
     (updateModulePaths config w).1 = None
     ∧ ∀ q, fs (updateModulePaths config w).2 !! q
            = if decide (root `prefix_of` q)
              then rewrite_entry config q <$> fs w !! q
              else fs w !! q).
Proof.
  intros Hpath Htree root. split.
  - intros Hroot.
    change (updateModulePaths config)
      with (Walk (ProjectPath config) (rewrite_visit config)).
    unfold Walk. rewrite resolve_project by done. fold root. by rewrite Hroot.
  - intros Hroot.
    destruct (updateModulePaths_walk config w Hpath Htree Hroot) as (Hrun & _ & Hfs).
    by split.
Qed.

(** ** The module file *)

Section module_file.
Context `{Unicode}.

Lemma createGoMod_run (config : ProjectConfig) :
  createGoMod config
  = (goModPath ← joined (ProjectPath config) ["go.mod"];
     WriteFile goModPath (goModContent config) 420).
Proof. reflexivity. Qed.

(** A pattern without the byte [c] lies in a text exactly when it lies
    in one of the two parts a [c] separates. *)
Lemma Contains_split (c : ascii) (a b p : string) :
  all_bytes (λ x, negb (bool_decide (x = c))) p = true →
  Contains (a +:+ String c b) p = Contains a p || Contains b p.
Proof.
  intros Hp.
  assert (Hprefix : ∀ a, HasPrefix (a +:+ String c b) p = HasPrefix a p).
  { intros a'. unfold HasPrefix. destruct (String.prefix p a') eqn:Ha.
    - by apply str_prefix_app_r.
    - destruct (String.prefix p (a' +:+ String c b)) eqn:Hab; [|done].
      apply prefix_cut in Hab; [congruence|done]. }
  induction a as [|x a IH].
  - change ("" +:+ String c b) with (String c b).
    rewrite Contains_cons. simpl. rewrite orb_false_r. f_equal. apply (Hprefix "").
  - rewrite str_app_cons, !Contains_cons, IH, orb_assoc. f_equal. f_equal.
    apply (Hprefix (String x a)).
Qed.

Lemma goModContent_Contains (config : ProjectConfig) :
  Contains (goModContent config) oldModule = Contains (ModulePath config) oldModule.
Proof.
  unfold goModContent.
  change ("module " +:+ ModulePath config +:+ go_mod_requirements)
    with ("module" +:+ String " " (ModulePath config +:+ go_mod_requirements)).
  rewrite (Contains_split " ") by reflexivity.
  replace go_mod_requirements
    with (String newline (sdrop 1 go_mod_requirements)) by reflexivity.
  rewrite (Contains_split newline) by reflexivity.
  replace (Contains "module" oldModule) with false by reflexivity.
  replace (Contains (sdrop 1 go_mod_requirements) oldModule) with false
    by (by vm_compute).
  by rewrite orb_false_r.
Qed.

Lemma WriteFile_fresh (p : path) (name data : string) (perm dmode : Z) (w : World) :
  fs w !! (p ++ [name]) = None → fs w !! p = Some (Dir dmode) →
  WriteFile (p ++ [name]) data perm w
  = (None, set_fs <[p ++ [name] := File (Z.ldiff perm (umask w)) data]> w).
Proof.
  intros Hnew Hdir. unfold WriteFile, check, create_trunc, write_data, mbind, IO_bind.
  rewrite Hnew, parent_snoc, Hdir. simpl. rewrite lookup_insert_eq.
  unfold set_fs. simpl. by rewrite insert_insert_eq.
Qed.

(** A file made or replaced in a directory leaves the tree a tree. *)
Lemma well_formed_insert_file (m : gmap path node) (p : path) (name : string)
    (mode dmode : Z) (data : string) :
  well_formed m → m !! p = Some (Dir dmode) →
  (∀ mode', m !! (p ++ [name]) ≠ Some (Dir mode')) →
  well_formed (<[p ++ [name] := File mode data]> m).
Proof.
  intros Htree Hdir Hfile q x [n Hn].
  destruct (decide (p ++ [name] = q ++ [x])) as [Heq|Hne].
  - apply app_inj_tail in Heq as [<- <-]. exists dmode.
    rewrite lookup_insert_ne; [done|].
    intros Heq. apply (f_equal length) in Heq. rewrite length_app in Heq.
    simpl in Heq. lia.
  - rewrite lookup_insert_ne in Hn by done.
    destruct (Htree q x (mk_is_Some _ _ Hn)) as [mode' Hq].
    exists mode'. rewrite lookup_insert_ne; [done|].
    intros <-. by destruct (Hfile mode').
Qed.

End module_file.

(** X11. The module file of a new project.  In a file system that is a
    tree, with the project directory in place, [createGoMod] and then
    [updateModulePaths] return no error.  The first writes go.mod with
    the module path of the configuration; the second rewrites that file
    as any other.  It leaves go.mod as it was written exactly when the
    module path is the template's own or holds no occurrence of it: a
    module path that holds the template's, such as one that extends it,
    is substituted in the file a second time. *)
Theorem go_mod_after_rewrite `{Unicode} (config : ProjectConfig) (w : World)
    (dmode : Z) :
  ProjectPath config ≠ "" → well_formed (fs w) →
  let goMod := project_root w config ++ ["go.mod"] in
  fs w !! project_root w config = Some (Dir dmode) →
  (∀ mode, fs w !! goMod ≠ Some (Dir mode)) →
  let w1 := (createGoMod config w).2 in
  let w2 := (updateModulePaths config w1).2 in
  (createGoMod config w).1 = None
  ∧ (updateModulePaths config w1).1 = None
  ∧ (∃ mode, fs w1 !! goMod = Some (File mode (goModContent config))
       ∧ fs w2 !! goMod
         = Some (File mode (ReplaceAll (goModContent config) oldModule
                              (ModulePath config))))
  ∧ (fs w2 !! goMod = fs w1 !! goMod
     ↔ ModulePath config = oldModule ∨ Contains (ModulePath config) oldModule = false).
Proof.
  intros Hpath Htree goMod Hroot Hfile w1 w2.
  assert (Hwrite : ∃ mode, createGoMod config w
                           = (None, set_fs <[goMod := File mode (goModContent config)]> w)).
  { rewrite createGoMod_run, run_bind, run_joined, Join_root. cbn [fst snd]. fold goMod.
    destruct (fs w !! goMod) as [[mode old|mode]|] eqn:Hgo.
    - exists mode. by eapply WriteFile_existing.
    - by destruct (Hfile mode).
    - eexists. by eapply WriteFile_fresh. }
  destruct Hwrite as [mode Hwrite].
  assert (Hw1 : w1 = set_fs <[goMod := File mode (goModContent config)]> w)
    by (unfold w1; by rewrite Hwrite).
  assert (Hroot1 : project_root w1 config = project_root w config) by by rewrite Hw1.
  destruct (updateModulePaths_walk config w1) as (Hrun & _ & Hfs); [done|..].
  { rewrite Hw1. by eapply well_formed_insert_file. }
  { rewrite Hroot1, Hw1. simpl. rewrite lookup_insert_ne; [by rewrite Hroot|].
    unfold goMod. intros Heq. apply (f_equal length) in Heq.
    rewrite length_app in Heq. simpl in Heq. lia. }
  assert (Hgo1 : fs w1 !! goMod = Some (File mode (goModContent config))).
  { rewrite Hw1. simpl. by rewrite lookup_insert_eq. }
  assert (Hgo2 : fs w2 !! goMod
                 = Some (File mode (ReplaceAll (goModContent config) oldModule
                                      (ModulePath config)))).
  { unfold w2. rewrite Hfs, Hroot1, decide_True by by eexists.
    rewrite Hgo1. simpl. unfold goMod, basename. by rewrite last_snoc. }
  split; [by rewrite Hwrite|]. split; [done|]. split; [by eauto|].
  rewrite Hgo1, Hgo2, <-goModContent_Contains. split.
  - intros [= Hsame]. apply ReplaceAll_fixed in Hsame; [|done].
    destruct Hsame as [Hsame|Hsame]; [by left|by right].
  - intros Hcases. do 2 f_equal. apply ReplaceAll_fixed; [done|].
    destruct Hcases as [Hsame|Hsame]; [by left|by right].
Qed.

(** A module path that extends the template's: go.mod names it twice
    over. *)
Example go_mod_of_extended_path :
  let config := {| ProjectName := "v2"; ProjectPath := "./out";
                   ModulePath := "github.com/rahmatrdn/go-skeleton/v2";
                   Database := "mysql"; UseRedis := false; UseRabbitMQ := false |} in
  let w1 := (createGoMod config demo).2 in
  let w2 := (@updateModulePaths bytewise config w1).2 in
  ∃ mode rest,
    fs w2 !! ["out"; "go.mod"]
    = Some (File mode ("module github.com/rahmatrdn/go-skeleton/v2/v2" +:+ rest)).
Proof. eexists _, _. vm_compute. reflexivity. Qed.

(** ** What lies outside the project *)

Section frame.

Local Arguments Z.ldiff : simpl never.

Lemma create_trunc_leaves (p : path) (perm : Z) :
  leaves (λ q, q ≠ p) (λ w, (create_trunc p perm w).2).
Proof.
  intros w. unfold create_trunc.
  destruct (fs w !! p) as [[mode data|mode]|]; [| |destruct (fs w !! parent p) as [[]|]];
    simpl; (split; [done|]); intros q Hq; try done; by rewrite lookup_insert_ne.
Qed.

Lemma write_data_leaves (p : path) (data : string) :
  leaves (λ q, q ≠ p) (λ w, (write_data p data w).2).
Proof.
  intros w. unfold write_data. destruct (fs w !! p) as [[mode old|mode]|];
    simpl; (split; [done|]); intros q Hq; try done; by rewrite lookup_insert_ne.
Qed.

Lemma ReadFile_same (p : path) (w : World) : (ReadFile p w).2 = w.
Proof. unfold ReadFile. by destruct (fs w !! p) as [[]|]. Qed.

Lemma Open_same (p : path) (w : World) : (Open p w).2 = w.
Proof. unfold Open. by destruct (fs w !! p). Qed.

Lemma leaves_check (keep : path → Prop) (step k : IO (option error))
    (wrap : error → error) :
  leaves keep (λ w, (step w).2) → leaves keep (λ w, (k w).2) →
  leaves keep (λ w, (check step wrap k w).2).
Proof.
  intros Hstep Hk. unfold check. apply leaves_bind; [done|].
  intros [e|]; [apply (leaves_pure _ (λ _, Some (wrap e)))|done].
Qed.

Lemma leaves_same {A} (keep : path → Prop) (m : IO A) :
  (∀ w, (m w).2 = w) → leaves keep (λ w, (m w).2).
Proof. intros Hm w. by rewrite Hm. Qed.

Lemma WriteFile_leaves (p : path) (data : string) (perm : Z) :
  leaves (λ q, q ≠ p) (λ w, (WriteFile p data perm w).2).
Proof.
  unfold WriteFile. apply leaves_check; [apply create_trunc_leaves|apply write_data_leaves].
Qed.

Lemma Copy_leaves (dst src : path) : leaves (λ q, q ≠ dst) (λ w, (Copy dst src w).2).
Proof.
  unfold Copy. apply leaves_bind; [apply leaves_same, ReadFile_same|].
  intros [data [e|]]; [apply (leaves_pure _ (λ _, Some e))|apply write_data_leaves].
Qed.

Lemma copyFile_leaves (src dst : path) :
  leaves (λ q, q ≠ dst) (λ w, (copyFile src dst w).2).
Proof.
  unfold copyFile. apply leaves_check; [apply leaves_same, Open_same|].
  apply leaves_check; [apply create_trunc_leaves|apply Copy_leaves].
Qed.

Lemma Mkdir_makes (p : path) (perm : Z) (w : World) :
  cwd (Mkdir p perm w).2 = cwd w
  ∧ ∀ q, fs (Mkdir p perm w).2 !! q = fs w !! q
         ∨ (fs w !! q = None ∧ q = p
            ∧ ∃ mode, fs (Mkdir p perm w).2 !! q = Some (Dir mode)).
Proof.
  unfold Mkdir. destruct (fs w !! p) as [n|] eqn:Hp; [by auto|].
  destruct (fs w !! parent p) as [[mode data|mode]|]; simpl; try by auto.
  split; [done|]. intros q. destruct (decide (q = p)) as [->|Hne].
  - right. rewrite lookup_insert_eq. by eauto.
  - left. by rewrite lookup_insert_ne.
Qed.

(** [os.MkdirAll] makes directories on the way to its path, and nothing
    else. *)
Lemma mkdir_all_makes (rp : path) (perm : Z) (w : World) :
  cwd (mkdir_all rp perm w).2 = cwd w
  ∧ ∀ q, fs (mkdir_all rp perm w).2 !! q = fs w !! q
         ∨ (fs w !! q = None ∧ q `prefix_of` reverse rp
            ∧ ∃ mode, fs (mkdir_all rp perm w).2 !! q = Some (Dir mode)).
Proof.
  revert w. induction rp as [|x rp IH]; intros w; simpl.
  - destruct (fs w !! reverse []) as [[mode data|mode]|] eqn:Hp; try by auto.
    destruct (Mkdir_makes [] perm w) as [Hc Hq]. split; [done|]. intros q.
    destruct (Hq q) as [?|(? & -> & ?)]; [by left|right]. by eauto.
  - destruct (fs w !! reverse (x :: rp)) as [[mode data|mode]|] eqn:Hp; try by auto.
    destruct (IH w) as [Hc Hq].
    destruct (mkdir_all rp perm w) as [[e|] w1]; simpl in *.
    + split; [done|]. intros q. destruct (Hq q) as [?|(? & Hpre & ?)]; [by left|right].
      split; [done|]. split; [|done]. rewrite reverse_cons. by apply prefix_app_r.
    + destruct (Mkdir_makes (reverse (x :: rp)) perm w1) as [Hc' Hq'].
      split; [congruence|]. intros q.
      destruct (Hq' q) as [Hsame|(Hnone & -> & Hdir)].
      * rewrite Hsame. destruct (Hq q) as [?|(? & Hpre & ?)]; [by left|right].
        split; [done|]. split; [|done]. rewrite reverse_cons. by apply prefix_app_r.
      * right. split; [|by split].
        destruct (Hq (reverse (x :: rp))) as [<-|(_ & _ & mode & Hdir')]; [done|].
        congruence.
Qed.

End frame.

Section project_frame.
Context `{Unicode, RangeOrder}.

Local Arguments Z.ldiff : simpl never.

Variables (config : ProjectConfig) (w : World).

Let root : path := project_root w config.
Let I : World → Prop := outside_kept root w.

Lemma outside_kept_step (w1 w2 : World) :
  I w1 → cwd w2 = cwd w1 →
  (∀ q, ¬ root `prefix_of` q →
     fs w2 !! q = fs w1 !! q
     ∨ (fs w1 !! q = None ∧ q `prefix_of` root ∧ ∃ mode, fs w2 !! q = Some (Dir mode))) →
  I w2.
Proof.
  intros [Hc Hq] Hc2 Hq2. split; [congruence|]. intros q Hout.
  destruct (Hq2 q Hout) as [Hsame|(Hnone & Hpre & Hdir)].
  - rewrite Hsame. by apply Hq.
  - right. split; [|done].
    destruct (Hq q Hout) as [<-|(_ & _ & mode & Hdir')]; [done|congruence].
Qed.

Lemma triple_below {A} (p : path) (m : IO A) :
  leaves (λ q, ¬ p `prefix_of` q) (λ w, (m w).2) → root `prefix_of` p →
  triple I m (λ _, I).
Proof.
  intros Hm Hp w1 Hw1. destruct (Hm w1) as [Hc Hq].
  apply (outside_kept_step w1); [done..|]. intros q Hout. left. apply Hq.
  intros Hpre. apply Hout. by etrans.
Qed.

Lemma triple_within {A} (p : path) (m : IO A) :
  leaves (λ q, q ≠ p) (λ w, (m w).2) → root `prefix_of` p →
  triple I m (λ _, I).
Proof.
  intros Hm Hp. apply (triple_below p); [|done].
  eapply leaves_weaken; [|done]. intros q Hq ->. by apply Hq.
Qed.

Lemma triple_same {A} (m : IO A) : (∀ w, (m w).2 = w) → triple I m (λ _, I).
Proof. intros Hm w1 Hw1. by rewrite Hm. Qed.

Lemma triple_check (step k : IO (option error)) (wrap : error → error) :
  triple I step (λ _, I) → triple I k (λ _, I) →
  triple I (check step wrap k) (λ _, I).
Proof.
  intros Hstep Hk. unfold check. eapply triple_bind; [done|].
  intros [e|]; [by intros ??|done].
Qed.

Lemma triple_MkdirAll (p : path) (perm : Z) :
  root `prefix_of` p → triple I (MkdirAll p perm) (λ _, I).
Proof.
  intros Hp w1 Hw1. unfold MkdirAll.
  destruct (mkdir_all_makes (reverse p) perm w1) as [Hc Hq].
  apply (outside_kept_step w1); [done..|]. intros q Hout.
  destruct (Hq q) as [?|(Hnone & Hpre & Hdir)]; [by left|right].
  split; [done|]. split; [|done]. rewrite reverse_involutive in Hpre.
  destruct (prefix_weak_total _ _ _ Hpre Hp); done.
Qed.

Lemma triple_joined_root (rel : path) :
  triple I (joined (ProjectPath config) rel) (λ p w1, p = root ++ rel ∧ I w1).
Proof.
  intros w1 Hw1. rewrite run_joined. simpl. split; [|done].
  destruct Hw1 as [Hc _]. by rewrite (Join_cwd w), Join_root.
Qed.

Lemma triple_visits (fn : WalkFunc) (visits : list (path * FileInfo)) :
  (∀ p info, (p, info) ∈ visits → triple I (fn p info None) (λ _, I)) →
  triple I (visit_all fn visits) (λ _, I).
Proof.
  induction visits as [|[p info] visits IH]; intros Hfn; [by intros ??|].
  simpl. eapply triple_bind; [apply Hfn; by left|].
  intros [e|]; [by intros ??|]. apply IH. intros p' info' Hin. apply Hfn. by right.
Qed.

Lemma MkdirAll_name_frame (perm : Z) :
  triple I (MkdirAll_name (ProjectPath config) perm) (λ _, I).
Proof.
  intros w1 Hw1. unfold MkdirAll_name.
  assert (Hroot : ∀ p, resolve w1 (ProjectPath config) = Some p → p = root).
  { intros p Hp. unfold root, project_root. rewrite (Join_cwd w1 w) by by destruct Hw1.
    unfold Join. by rewrite Hp, (right_id_L [] (++)). }
  destruct (resolve w1 (ProjectPath config)) as [p|]; [|done].
  rewrite (Hroot p eq_refl). by apply triple_MkdirAll.
Qed.

Lemma copyTemplate_frame : triple I (copyTemplate config) (λ _, I).
Proof.
  unfold copyTemplate.
  eapply (triple_bind I (λ _, I)); [by intros ??|]. intros template.
  eapply (triple_bind I (λ _, I)).
  - apply triple_Walk. intros p info [e|]; [by intros ??|].
    case_bool_decide; [by intros ??|].
    destruct (Rel template p) as [rel [e|]]; [by intros ??|].
    eapply triple_bind; [apply triple_joined_root|].
    intros dst. apply triple_pull. intros ->.
    destruct (IsDir info).
    + apply triple_MkdirAll. by eexists.
    + apply (triple_within (root ++ rel)); [apply copyFile_leaves|by eexists].
  - intros [e|]; [by intros ??|].
    eapply (triple_bind I (λ _, I)); [by intros ??|]. intros src.
    eapply triple_bind; [apply triple_joined_root|].
    intros dst. apply triple_pull. intros ->.
    eapply (triple_bind I (λ _, I)); [by intros ??|].
    intros [info|]; [|by intros ??].
    apply (triple_within (root ++ [".gitignore"])); [apply copyFile_leaves|by eexists].
Qed.

Lemma createGoMod_frame : triple I (createGoMod config) (λ _, I).
Proof.
  unfold createGoMod. cbv zeta.
  eapply triple_bind; [apply triple_joined_root|].
  intros p. apply triple_pull. intros ->.
  apply (triple_within (root ++ ["go.mod"])); [apply WriteFile_leaves|by eexists].
Qed.

Lemma rewrite_visit_frame (p : path) (info : FileInfo) (err : option error) :
  err ≠ None ∨ root `prefix_of` p →
  triple I (rewrite_visit config p info err) (λ _, I).
Proof.
  intros Hp. unfold rewrite_visit.
  destruct (bool_decide (err ≠ None) || IsDir info) eqn:Herr; [by intros ??|].
  apply orb_false_iff in Herr as [Herr%bool_decide_eq_false _].
  destruct Hp as [Hp|Hp]; [done|].
  destruct (_ && _); [by intros ??|].
  eapply (triple_bind I (λ _, I)); [apply triple_same, ReadFile_same|].
  intros [content [e|]]; [by intros ??|].
  apply (triple_within p); [apply WriteFile_leaves|done].
Qed.

Lemma updateModulePaths_frame : triple I (updateModulePaths config) (λ _, I).
Proof.
  change (updateModulePaths config) with (Walk (ProjectPath config) (rewrite_visit config)).
  intros w1 Hw1. unfold Walk.
  assert (Hroot : ∀ p, resolve w1 (ProjectPath config) = Some p → p = root).
  { intros p Hp. unfold root, project_root. rewrite (Join_cwd w1 w) by by destruct Hw1.
    unfold Join. by rewrite Hp, (right_id_L [] (++)). }
  destruct (resolve w1 (ProjectPath config)) as [p|].
  - rewrite (Hroot p eq_refl). destruct (fs w1 !! root).
    + apply triple_visits; [|done]. intros q info [Hpre _]%walk_from_sound.
      apply rewrite_visit_frame. by right.
    + apply rewrite_visit_frame; [|done]. by left.
  - apply rewrite_visit_frame; [|done]. by left.
Qed.

Lemma cleanupFiles_frame : triple I (cleanupFiles config) (λ _, I).
Proof.
  intros w1 Hw1.
  assert (Hroot : project_root w1 config = root).
  { unfold root, project_root. apply Join_cwd. by destruct Hw1. }
  apply (outside_kept_step w1); [done|..].
  - apply (cleanupFiles_only_removes config w1).
  - intros q Hout. left. apply cleanupFiles_keeps.
    + intros rel _ ->. apply Hout. rewrite Hroot. by eexists.
    + intros dir _ [more ->]. apply Hout. rewrite Hroot, <-(assoc_L (++)). by eexists.
Qed.

Lemma generateDevcontainer_frame : triple I (generateDevcontainer config) (λ _, I).
Proof.
  unfold generateDevcontainer. cbv zeta.
  eapply triple_bind; [apply triple_joined_root|].
  intros p. apply triple_pull. intros ->.
  apply (triple_within ((root ++ [".devcontainer"]) ++ ["docker-compose.yml"]));
    [apply WriteFile_leaves|]. rewrite <-(assoc_L (++)). by eexists.
Qed.

Lemma updateConfigFiles_frame : triple I (updateConfigFiles config) (λ _, I).
Proof.
  unfold updateConfigFiles.
  eapply triple_bind; [apply triple_joined_root|].
  intros p. apply triple_pull. intros ->.
  eapply (triple_bind I (λ _, I)); [apply triple_same, ReadFile_same|].
  intros [content [e|]]; [by intros ??|]. cbv zeta.
  apply (triple_within (root ++ ["config"; "config.go"])); [apply WriteFile_leaves|by eexists].
Qed.

Lemma updateEnvFiles_frame : triple I (updateEnvFiles config) (λ _, I).
Proof.
  unfold updateEnvFiles.
  eapply triple_bind; [apply triple_joined_root|].
  intros p. apply triple_pull. intros ->.
  eapply (triple_bind I (λ _, I)); [apply triple_same, ReadFile_same|].
  intros [content [e|]]; [by intros ??|]. cbv zeta.
  apply (triple_within (root ++ [".devcontainer"; ".env.devcontainer"]));
    [apply WriteFile_leaves|by eexists].
Qed.

Lemma createProject_frame : triple I (createProject config) (λ _, I).
Proof.
  unfold createProject.
  apply triple_check; [apply MkdirAll_name_frame|].
  apply triple_check; [apply copyTemplate_frame|].
  apply triple_check; [apply createGoMod_frame|].
  apply triple_check; [apply updateModulePaths_frame|].
  apply triple_check; [apply cleanupFiles_frame|].
  apply triple_check; [apply generateDevcontainer_frame|].
  apply triple_check; [apply updateConfigFiles_frame|].
  apply triple_check; [apply updateEnvFiles_frame|].
  by intros ??.
Qed.

End project_frame.

(** X12. [createProject] keeps to the project directory, whether it ends
    well or with an error, and in whatever order Go ranges over the maps
    of [cleanupFiles].  An entry that exists outside the project
    directory, the template among them, is afterwards as it was.  Nothing
    is made outside the project directory, but for the directories on the
    way to it that were missing.  The working directory is as it was. *)
Theorem createProject_keeps_to_project `{Unicode, RangeOrder} (config : ProjectConfig)
    (w : World) :
  let root := project_root w config in
  let w' := (createProject config w).2 in
  cwd w' = cwd w
  ∧ (∀ q n, ¬ root `prefix_of` q → fs w !! q = Some n → fs w' !! q = Some n)
  ∧ (∀ q, ¬ root `prefix_of` q → ¬ q `prefix_of` root → fs w' !! q = fs w !! q)
  ∧ (∀ q n, ¬ root `prefix_of` q → fs w !! q = None → fs w' !! q = Some n →
       q `prefix_of` root ∧ ∃ mode, n = Dir mode).
Proof.
  intros root w'.
  assert (Hstart : outside_kept root w w) by (split; [done|by left]).
  destruct (createProject_frame config w w Hstart) as [Hc Hq]. fold w' in Hc, Hq.
  split; [done|]. split; [|split].
  - intros q n Hout Hn. destruct (Hq q Hout) as [->|(Hnone & _)]; [done|congruence].
  - intros q Hout Hside. by destruct (Hq q Hout) as [->|(_ & Hpre & _)].
  - intros q n Hout Hnone Hn.
    destruct (Hq q Hout) as [Hsame|(_ & Hpre & mode & Hdir)]; [congruence|].
    split; [done|]. exists mode. congruence.
Qed.

(** ** Errors of the steps *)

Section errors.
Context `{Unicode, RangeOrder}.

Local Arguments Z.ldiff : simpl never.

Lemma check_error (step k : IO (option error)) (msg : string) (w : World) (e : error)
    (P : error → Prop) :
  (∀ cause, P (Wrapped msg cause)) →
  (∀ w1 e1, (k w1).1 = Some e1 → P e1) →
  (check step (Wrapped msg) k w).1 = Some e → P e.
Proof.
  intros Hmsg Hk. rewrite run_check. destruct (step w).1 as [cause|].
  - intros [= <-]. apply Hmsg.
  - apply Hk.
Qed.

Lemma WriteFile_missing_parent (p : path) (data : string) (perm : Z) (w : World) :
  fs w !! p = None → (∀ mode, fs w !! parent p ≠ Some (Dir mode)) →
  (WriteFile p data perm w).1 ≠ None ∧ (WriteFile p data perm w).2 = w.
Proof.
  intros Hp Hparent. unfold WriteFile. rewrite run_check. unfold create_trunc.
  rewrite Hp. destruct (fs w !! parent p) as [[mode old|mode]|] eqn:Hdir; try done.
  by destruct (Hparent mode).
Qed.

End errors.

(** X13. [generateDevcontainer] writes the compose document to
    .devcontainer/docker-compose.yml of the project and does not make the
    directory: where .devcontainer is missing, or is no directory, it
    returns an error and writes nothing.  In the directory it makes the
    file with mode 0644 less the umask, or replaces the content of the
    file that is there and keeps its mode. *)
Theorem generateDevcontainer_writes `{Unicode} (config : ProjectConfig) (w : World) :
  let dir := project_root w config ++ [".devcontainer"] in
  let file := dir ++ ["docker-compose.yml"] in
  let doc := generateDevcontainerDockerCompose config in
  (fs w !! file = None → (∀ mode, fs w !! dir ≠ Some (Dir mode)) →
   (generateDevcontainer config w).1 ≠ None ∧ (generateDevcontainer config w).2 = w)
  ∧ (∀ mode, fs w !! file = None → fs w !! dir = Some (Dir mode) →
       generateDevcontainer config w
       = (None, set_fs <[file := File (Z.ldiff 420 (umask w)) doc]> w))
  ∧ (∀ mode old, fs w !! file = Some (File mode old) →
       generateDevcontainer config w = (None, set_fs <[file := File mode doc]> w)).
Proof.
  intros dir file doc.
  assert (Hrun : generateDevcontainer config w = WriteFile file doc 420 w).
  { unfold generateDevcontainer. by rewrite run_bind, run_joined, Join_root. }
  rewrite Hrun. split; [|split].
  - intros Hfile Hdir. apply WriteFile_missing_parent; [done|].
    unfold file. by rewrite parent_snoc.
  - intros mode Hfile Hdir. by eapply WriteFile_fresh.
  - intros mode old Hfile. by eapply WriteFile_existing.
Qed.

(** X14. How [createProject] fails.  Every error it returns is the error
    of a step under the message of that step.  Where the project path
    names a file it fails at the first step and changes nothing.  Where
    the template is missing it fails at the copy, after the project
    directory was made: the directory stays, there is no undoing. *)
Theorem createProject_errors `{Unicode, RangeOrder} (config : ProjectConfig) (w : World) :
  let root := project_root w config in
  let template := cwd w ++ ["template"] in
  (∀ e, (createProject config w).1 = Some e →
     ∃ msg cause, e = Wrapped msg cause ∧ msg ∈ step_messages)
  ∧ (∀ mode data, ProjectPath config ≠ "" → fs w !! root = Some (File mode data) →
       createProject config w = (Some (Wrapped "failed to create directory" ENOTDIR), w))
  ∧ (fs w !! template = None → ¬ template `prefix_of` root →
     (MkdirAll_name (ProjectPath config) 493 w).1 = None →
     createProject config w
     = (Some (Wrapped "failed to copy template" ENOENT),
        (MkdirAll_name (ProjectPath config) 493 w).2)).
Proof.
  intros root template. split; [|split].
  - intros e. unfold createProject.
    set (P := λ e : error, ∃ msg cause, e = Wrapped msg cause ∧ msg ∈ step_messages).
    change (∃ msg cause, e = Wrapped msg cause ∧ msg ∈ step_messages) with (P e).
    repeat (apply (check_error _ _ _ _ _ P);
            [intros cause; eexists _, _; split; [done|];
             unfold step_messages; rewrite !elem_of_cons; tauto
            |intros ? ?]).
    by intros [=].
  - intros mode data Hpath Hroot. unfold createProject. rewrite run_check.
    unfold MkdirAll_name. rewrite resolve_project by done. fold root.
    unfold MkdirAll. destruct (reverse root) as [|x rp] eqn:Hrev; simpl;
      rewrite <-Hrev, reverse_involutive, Hroot; done.
  - intros Htemplate Hside Hmkdir. unfold createProject. rewrite run_check, Hmkdir.
    set (w1 := (MkdirAll_name (ProjectPath config) 493 w).2).
    assert (Hw1 : cwd w1 = cwd w ∧ fs w1 !! template = None).
    { unfold w1, MkdirAll_name.
      destruct (resolve w (ProjectPath config)) as [p|] eqn:Hp; [|done].
      assert (p = root) as ->.
      { unfold root, project_root, Join. by rewrite Hp, (right_id_L [] (++)). }
      destruct (mkdir_all_makes (reverse root) 493 w) as [Hc Hq].
      split; [done|]. unfold MkdirAll.
      destruct (Hq template) as [->|(_ & Hpre & _)]; [done|].
      rewrite reverse_involutive in Hpre. done. }
    destruct Hw1 as [Hc Htemplate1].
    rewrite run_check.
    assert (Hcopy : copyTemplate config w1 = (Some ENOENT, w1)).
    { unfold copyTemplate. rewrite run_bind, run_joined. cbn [fst snd].
      rewrite run_bind. unfold Walk.
      change (resolve w1 "template") with (Some (cwd w1 ++ ["template"])).
      cbv beta iota. rewrite Hc. fold template. by rewrite Htemplate1. }
    by rewrite Hcopy.
Qed.

(** ** The small project, again *)

(** At the end of the input a question without default is never
    answered. *)
Lemma promptString_no_default_at_end_silent :
  (@promptString bytewise 100 0 "What is your project name?" "" silent).1 = None.
Proof.
  apply (@promptString_no_default_at_end bytewise 0 "What is your project name?" silent).
  split; reflexivity.
Defined.

(** The configuration of the user who keeps every default. *)
Lemma collectConfiguration_well_formed_demo :
  ∃ config w',
    @collectConfiguration bytewise 8 demo = (Some config, w') ∧ fs w' = fs demo
    ∧ ProjectName config ≠ "" ∧ ProjectPath config ≠ "" ∧ ModulePath config ≠ ""
    ∧ Database config ∈ ["mysql"; "postgresql"; "mongodb"].
Proof.
  apply (@collectConfiguration_well_formed bytewise 8 demo). vm_compute. lia.
Defined.

(** A configuration text of three lines, one of them naming the option of
    mysql. *)
Lemma removeLines_removes_option :
  Contains
    (@removeLines bytewise ("type Config" +:+ nl +:+ "  MysqlOption" +:+ nl +:+ "end")
       "MysqlOption")
    "MysqlOption" = false.
Proof.
  destruct (@removeLines_removes bytewise
              ("type Config" +:+ nl +:+ "  MysqlOption" +:+ nl +:+ "end") "MysqlOption")
    as [Hclean _]; [discriminate|reflexivity|exact Hclean].
Defined.

(** The copied project, rewritten for the module path example.com/my-app. *)
Lemma updateModulePaths_rewrites_demo :
  (@updateModulePaths bytewise demo_config demo_copied).1 = None
  ∧ fs (@updateModulePaths bytewise demo_config demo_copied).2
      !! ["out"; "config"; "gorm.go"]
    = Some (File 420 "import example.com/my-app/config").
Proof.
  destruct (@updateModulePaths_rewrites bytewise demo_config demo_copied) as [_ Hrun].
  - discriminate.
  - apply well_formedb_spec. vm_compute. reflexivity.
  - destruct Hrun as [Hnone Hfs]; [vm_compute; by eexists|].
    split; [exact Hnone|]. rewrite Hfs. vm_compute. reflexivity.
Defined.

(** The module file of the small project. *)
Lemma go_mod_after_rewrite_demo :
  (createGoMod demo_config demo).1 = None
  ∧ (@updateModulePaths bytewise demo_config (createGoMod demo_config demo).2).1 = None.
Proof.
  destruct (@go_mod_after_rewrite bytewise demo_config demo 493) as (Hwrite & Hrun & _).
  - discriminate.
  - apply well_formedb_spec. vm_compute. reflexivity.
  - vm_compute. reflexivity.
  - intros mode Hdir. vm_compute in Hdir. discriminate.
  - split; [exact Hwrite|exact Hrun].
Defined.

(** ** A project made *)

Section trees.

Local Arguments Z.ldiff : simpl never.

(** A new entry in a directory leaves the tree a tree. *)
Lemma well_formed_insert_new (m : gmap path node) (p : path) (name : string)
    (n : node) (dmode : Z) :
  well_formed m → m !! p = Some (Dir dmode) → m !! (p ++ [name]) = None →
  well_formed (<[p ++ [name] := n]> m).
Proof.
  intros Htree Hdir Hnew q x [n' Hn'].
  destruct (decide (p ++ [name] = q ++ [x])) as [Heq|Hne].
  - apply app_inj_tail in Heq as [<- <-]. exists dmode.
    rewrite lookup_insert_ne; [done|].
    intros Heq. apply (f_equal length) in Heq. rewrite length_app in Heq.
    simpl in Heq. lia.
  - rewrite lookup_insert_ne in Hn' by done.
    destruct (Htree q x (mk_is_Some _ _ Hn')) as [mode' Hq].
    exists mode'. rewrite lookup_insert_ne; [done|].
    intros <-. congruence.
Qed.

(** The copy of a tree into an empty directory of a tree gives a tree. *)
Lemma well_formed_copied (template dest : path) (w w2 : World) (dmode : Z) :
  well_formed (fs w) → fs w !! dest = Some (Dir dmode) →
  copied_tree template dest w w2 → well_formed (fs w2).
Proof.
  intros Htree Hdest Hcopied q y Hsome. rewrite Hcopied in Hsome. rewrite Hcopied.
  destruct (strip dest (q ++ [y])) as [[|x more]|] eqn:Hs.
  - apply strip_Some in Hs. rewrite (right_id_L [] (++)) in Hs.
    assert (Hq : strip dest q = None).
    { apply strip_None. intros [rest ->]. rewrite <-(assoc_L (++)) in Hs.
      apply (f_equal length) in Hs. rewrite !length_app in Hs. simpl in Hs. lia. }
    rewrite Hq. by apply Htree in Hsome.
  - apply strip_Some in Hs.
    destruct (decide (more = [])) as [->|Hmore].
    + apply app_inj_tail in Hs as [-> ->].
      replace (strip dest dest) with (Some (@nil string))
        by (symmetry; apply strip_Some; by rewrite (right_id_L [] (++))).
      by eauto.
    + destruct (exists_last Hmore) as (more' & y' & ->).
      rewrite app_comm_cons, (assoc_L (++)) in Hs. apply app_inj_tail in Hs as [-> ->].
      rewrite strip_app.
      destruct (fs w !! (template ++ x :: more' ++ [y'])) as [n|] eqn:Hn; [|by destruct Hsome].
      destruct (Htree (template ++ x :: more') y') as [mode Hdir].
      { rewrite <-(assoc_L (++)). simpl. by rewrite Hn. }
      rewrite Hdir. by eauto.
  - apply strip_None in Hs.
    assert (Hq : match strip dest q with Some (_ :: _) => False | _ => True end).
    { destruct (strip dest q) as [[|x more]|] eqn:Hq; [done| |done].
      apply strip_Some in Hq as ->. apply Hs. rewrite <-(assoc_L (++)). by eexists. }
    apply Htree in Hsome. by destruct (strip dest q) as [[|x more]|].
Qed.

End trees.

Lemma pruned_files_names (config : ProjectConfig) (rel : path) :
  rel ∈ pruned_files config → ∃ name, rel = ["config"; name] ∧ name ≠ "config.go".
Proof.
  intros [[-> ?]|[[-> ?]|[[-> ?]|[->|[[-> ?]|[-> ?]]]]]]%elem_of_pruned_files;
    by eexists.
Qed.

Lemma pruned_dirs_names (config : ProjectConfig) (dir : path) :
  dir ∈ pruned_dirs config → ∃ name, dir = ["internal"; "repository"; name].
Proof. intros [(-> & ? & ?)|[-> ?]]%elem_of_pruned_dirs; by eexists. Qed.

(** Side conditions on the names the steps keep. *)
Ltac kept :=
  first
    [ discriminate
    | done
    | let name := fresh "name" in
      let Heq := fresh "Heq" in
      let Hne := fresh "Hne" in
      intros (name & Heq & Hne)%pruned_files_names; simplify_eq
    | let dir := fresh "dir" in
      let name := fresh "name" in
      let k := fresh "k" in
      let Hk := fresh "Hk" in
      intros dir (name & ->)%pruned_dirs_names [k Hk]; simplify_eq ].

Section steps.
Context `{Unicode}.

Local Arguments Z.ldiff : simpl never.

Lemma basename_app (p rel : path) : rel ≠ [] → basename (p ++ rel) = basename rel.
Proof.
  intros Hrel. unfold basename. rewrite last_app.
  destruct (last rel) eqn:Hlast; [done|]. by apply last_None in Hlast.
Qed.

Lemma rewrite_entry_app (config : ProjectConfig) (p rel : path) (n : node) :
  rel ≠ [] → rewrite_entry config (p ++ rel) n = rewrite_entry config rel n.
Proof. intros Hrel. unfold rewrite_entry. by rewrite basename_app. Qed.

(** Writing a file in a directory, over a file or in a free place. *)
Lemma WriteFile_in_dir (p : path) (name data : string) (perm dmode : Z) (w : World) :
  fs w !! p = Some (Dir dmode) →
  (∀ mode, fs w !! (p ++ [name]) ≠ Some (Dir mode)) →
  ∃ mode, WriteFile (p ++ [name]) data perm w
          = (None, set_fs <[p ++ [name] := File mode data]> w).
Proof.
  intros Hdir Hfile. destruct (fs w !! (p ++ [name])) as [[mode old|mode]|] eqn:Hp.
  - exists mode. by eapply WriteFile_existing.
  - by destruct (Hfile mode).
  - eexists. by eapply WriteFile_fresh.
Qed.

(** What [updateEnvFiles] writes to the file it finds. *)
Lemma updateEnvFiles_run (config : ProjectConfig) (w : World) (mode : Z)
    (content : string) :
  let env := project_root w config ++ [".devcontainer"; ".env.devcontainer"] in
  fs w !! env = Some (File mode content) →
  updateEnvFiles config w
  = (None,
     set_fs <[env := File mode (ReplaceAll content "PROJECT_DB_NAME"
                                  (sanitizeName (ProjectName config)))]> w).
Proof.
  intros env Hfile. unfold updateEnvFiles.
  rewrite run_bind, run_joined, Join_root. cbn [fst snd]. fold env.
  rewrite run_bind. unfold ReadFile. rewrite Hfile. cbn [fst snd].
  by erewrite WriteFile_existing.
Qed.

End steps.

Section made.
Context `{Unicode, RangeOrder}.

Local Arguments Z.ldiff : simpl never.

Variables (config : ProjectConfig) (w : World).

Let template : path := cwd w ++ ["template"].
Let root : path := project_root w config.

Hypothesis path_given : ProjectPath config ≠ "".
Hypothesis tree : well_formed (fs w).
Hypothesis template_dir : ∃ mode, fs w !! template = Some (Dir mode).
Hypothesis root_free :
  (∃ mode, fs w !! root = Some (Dir mode))
  ∨ (fs w !! root = None ∧ ∃ mode, fs w !! parent root = Some (Dir mode)).
Hypothesis root_empty : ∀ rel, rel ≠ [] → fs w !! (root ++ rel) = None.
Hypothesis apart : ¬ root `prefix_of` template ∧ ¬ template `prefix_of` root.

Lemma apart_below (rel : path) : template ++ rel ≠ root.
Proof. intros Heq. apply apart. rewrite <-Heq. by eexists. Qed.

Lemma apart_above (rel : path) : ¬ root `prefix_of` template ++ rel.
Proof.
  intros Hpre.
  destruct (prefix_weak_total _ _ _ Hpre (prefix_app_r _ _ rel (reflexivity _)));
    by destruct apart.
Qed.

(** The first step: the project directory is there afterwards. *)
Lemma MkdirAll_project :
  ∃ w1 mode,
    MkdirAll_name (ProjectPath config) 493 w = (None, w1)
    ∧ cwd w1 = cwd w ∧ umask w1 = umask w
    ∧ fs w1 !! root = Some (Dir mode)
    ∧ (∀ q, q ≠ root → fs w1 !! q = fs w !! q)
    ∧ well_formed (fs w1).
Proof.
  unfold MkdirAll_name. rewrite resolve_project by done. fold root.
  destruct root_free as [[mode Hroot]|[Hroot [mode Hparent]]].
  - exists w, mode. unfold MkdirAll.
    rewrite (mkdir_all_dir _ 493 mode) by by rewrite reverse_involutive. done.
  - destruct (decide (root = [])) as [Hnil|Hne].
    { rewrite Hnil in *. unfold parent in Hparent. simpl in Hparent. congruence. }
    destruct (exists_last Hne) as (p & name & Heq). rewrite Heq in *.
    rewrite parent_snoc in Hparent.
    rewrite (MkdirAll_fresh p name 493 mode) by done.
    eexists _, _. split; [done|]. split; [done|]. split; [done|]. simpl.
    split; [by rewrite lookup_insert_eq|]. split.
    + intros q Hq. by rewrite lookup_insert_ne.
    + by eapply well_formed_insert_new.
Qed.

(** The second step: the template is copied. *)
Lemma copyTemplate_project (w1 : World) (mode : Z) :
  cwd w1 = cwd w → umask w1 = umask w →
  fs w1 !! root = Some (Dir mode) →
  (∀ q, q ≠ root → fs w1 !! q = fs w !! q) →
  well_formed (fs w1) →
  (∀ mode, fs w !! (template ++ [".gitignore"]) ≠ Some (Dir mode)) →
  ∃ w2,
    copyTemplate config w1 = (None, w2)
    ∧ cwd w2 = cwd w
    ∧ fs w2 !! root = Some (Dir mode)
    ∧ (∀ rel, rel ≠ [] →
         fs w2 !! (root ++ rel) = copy_of (umask w) (fs w !! (template ++ rel)))
    ∧ well_formed (fs w2).
Proof.
  intros Hc Hu Hroot Hsame Htree1 Hignore.
  assert (Hroot1 : project_root w1 config = root).
  { unfold root, project_root. by apply Join_cwd. }
  assert (Htemplate1 : ∀ rel, fs w1 !! (template ++ rel) = fs w !! (template ++ rel)).
  { intros rel. apply Hsame, apart_below. }
  destruct template_dir as [tmode Htemplate].
  destruct (copyTemplate_run config w1) with (tmode := tmode) (dmode := mode)
    as [Hrun Hcopied].
  - done.
  - rewrite Hroot1, Hc. apply apart_above.
  - rewrite Hc. fold template. rewrite <-(right_id_L [] (++) template).
    by rewrite Htemplate1, (right_id_L [] (++)).
  - by rewrite Hroot1.
  - intros rel Hrel. rewrite Hroot1, Hsame; [by apply root_empty|].
    intros Heq. apply (f_equal length) in Heq. rewrite length_app in Heq.
    destruct rel; [done|simpl in Heq; lia].
  - intros mode'. rewrite Hc. fold template. rewrite Htemplate1. apply Hignore.
  - rewrite Hroot1, Hc in Hcopied. fold template in Hcopied.
    exists (copyTemplate config w1).2. split; [by apply injective_projections|].
    split; [|split; [|split]].
    + destruct (copyTemplate_frame config w1 w1) as [Hc2 _]; [by split; [|left]|].
      congruence.
    + rewrite Hcopied.
      replace (strip root root) with (Some (@nil string))
        by (symmetry; apply strip_Some; by rewrite (right_id_L [] (++))).
      done.
    + intros rel Hrel. rewrite Hcopied, strip_app.
      destruct rel as [|x more]; [done|]. by rewrite Htemplate1, Hu.
    + by eapply well_formed_copied.
Qed.

Hypothesis no_gitignore_dir :
  ∀ mode, fs w !! (template ++ [".gitignore"]) ≠ Some (Dir mode).
Hypothesis go_mod_file : ∀ mode, fs w !! (template ++ ["go.mod"]) ≠ Some (Dir mode).
Hypothesis compose_file :
  ∀ mode, fs w !! (template ++ [".devcontainer"; "docker-compose.yml"]) ≠ Some (Dir mode).

Variables (emode cmode : Z) (edata cdata : string).

Hypothesis env_file :
  fs w !! (template ++ [".devcontainer"; ".env.devcontainer"]) = Some (File emode edata).
Hypothesis config_file :
  fs w !! (template ++ ["config"; "config.go"]) = Some (File cmode cdata).

Lemma createProject_made :
  ∃ w',
    createProject config w = (None, w') ∧ cwd w' = cwd w
    ∧ (∃ mode, fs w' !! (root ++ ["go.mod"])
               = Some (File mode (ReplaceAll (goModContent config) oldModule
                                    (ModulePath config))))
    ∧ (∃ mode, fs w' !! (root ++ [".devcontainer"; "docker-compose.yml"])
               = Some (File mode (generateDevcontainerDockerCompose config)))
    ∧ fs w' !! (root ++ [".devcontainer"; ".env.devcontainer"])
      = Some (File (Z.ldiff 438 (umask w))
                (ReplaceAll edata "PROJECT_DB_NAME" (sanitizeName (ProjectName config))))
    ∧ fs w' !! (root ++ ["config"; "config.go"])
      = Some (File (Z.ldiff 438 (umask w))
                (Strings.Join
                   (filter (λ line, mentions_none (unselected_options config) line)
                      (Split (ReplaceAll cdata oldModule (ModulePath config)) nl)) nl))
    ∧ (∀ rel, rel ∈ pruned_files config →
         (∀ mode, fs w !! (template ++ rel) ≠ Some (Dir mode)) →
         fs w' !! (root ++ rel) = None)
    ∧ (∀ dir rel, dir ∈ pruned_dirs config → dir `prefix_of` rel →
         fs w' !! (root ++ rel) = None)
    ∧ (∀ rel, rel ≠ [] → rel ∉ generated_files → rel ∉ pruned_files config →
         (∀ dir, dir ∈ pruned_dirs config → ¬ dir `prefix_of` rel) →
         fs w' !! (root ++ rel)
         = rewrite_entry config rel <$> copy_of (umask w) (fs w !! (template ++ rel))).
Proof.
  destruct MkdirAll_project as (w1 & mode & Hmk & Hc1 & Hu1 & Hroot1 & Hsame1 & Htree1).
  destruct (copyTemplate_project w1 mode Hc1 Hu1 Hroot1 Hsame1 Htree1 no_gitignore_dir)
    as (w2 & Hcp & Hc2 & Hroot2 & Hcopy2 & Htree2).
  assert (Hr : ∀ w', cwd w' = cwd w → project_root w' config = root).
  { intros w' Hc. unfold root, project_root. by apply Join_cwd. }
  (* go.mod *)
  assert (Hgo2 : ∀ m, fs w2 !! (root ++ ["go.mod"]) ≠ Some (Dir m)).
  { intros m. rewrite Hcopy2 by done.
    destruct (fs w !! (template ++ ["go.mod"])) as [[fm fd|dm]|] eqn:Hg;
      [done|by destruct (go_mod_file dm)|done]. }
  destruct (WriteFile_in_dir root "go.mod" (goModContent config) 420 mode w2 Hroot2 Hgo2)
    as [gm Hwrite].
  set (w3 := set_fs <[root ++ ["go.mod"] := File gm (goModContent config)]> w2) in *.
  assert (Hmod : createGoMod config w2 = (None, w3)).
  { rewrite createGoMod_run, run_bind, run_joined, Join_root, (Hr w2 Hc2). done. }
  assert (Hc3 : cwd w3 = cwd w) by done.
  assert (Htree3 : well_formed (fs w3)).
  { simpl. by eapply well_formed_insert_file. }
  destruct (updateModulePaths_walk config w3 path_given Htree3) as (Hup & Hc4 & Hfs4).
  { rewrite (Hr w3 Hc3). simpl. rewrite lookup_insert_ne; [by rewrite Hroot2|].
    intros Heq. apply (f_equal length) in Heq. rewrite length_app in Heq.
    simpl in Heq. lia. }
  rewrite (Hr w3 Hc3) in Hfs4. rewrite Hc3 in Hc4.
  set (w4 := (updateModulePaths config w3).2) in *.
  assert (Hgo4 : fs w4 !! (root ++ ["go.mod"])
                 = Some (File gm (ReplaceAll (goModContent config) oldModule
                                    (ModulePath config)))).
  { rewrite Hfs4, decide_True by by eexists. simpl. rewrite lookup_insert_eq. simpl.
    unfold basename. by rewrite last_snoc. }
  assert (Hcopy4 : ∀ rel, rel ≠ [] → rel ≠ ["go.mod"] →
            fs w4 !! (root ++ rel)
            = rewrite_entry config rel <$> copy_of (umask w) (fs w !! (template ++ rel))).
  { intros rel Hrel Hne. rewrite Hfs4, decide_True by by eexists. simpl.
    rewrite lookup_insert_ne by (by intros Heq%app_inv_head).
    rewrite Hcopy2 by done.
    destruct (copy_of _ _) as [n|]; [|done]. simpl. by rewrite rewrite_entry_app. }
  (* cleanup *)
  set (w5 := (cleanupFiles config w4).2).
  assert (Hclean : cleanupFiles config w4 = (None, w5)).
  { apply injective_projections; [|done].
    unfold cleanupFiles. repeat (rewrite run_bind; cbv beta). reflexivity. }
  assert (Hc5 : cwd w5 = cwd w).
  { destruct (cleanupFiles_only_removes config w4) as [Hc _]. simpl in Hc.
    unfold w5. congruence. }
  assert (Hkeep5 : ∀ rel, rel ∉ pruned_files config →
            (∀ dir, dir ∈ pruned_dirs config → ¬ dir `prefix_of` rel) →
            fs w5 !! (root ++ rel) = fs w4 !! (root ++ rel)).
  { intros rel Hf Hd. apply cleanupFiles_keeps; rewrite (Hr w4 Hc4).
    - intros f Hin Heq%app_inv_head. by subst.
    - intros dir Hin Hpre%prefix_app_inv. by eapply Hd. }
  assert (Hfile5 : ∀ rel, rel ∈ pruned_files config →
            (∀ m, fs w !! (template ++ rel) ≠ Some (Dir m)) →
            fs w5 !! (root ++ rel) = None).
  { intros rel Hin Hnd.
    destruct (cleanupFiles_file_gone config w rel Hin w4 Hc4) as [_ Hgone]; [|done].
    destruct (pruned_files_names config rel Hin) as (name & -> & Hname).
    fold root. rewrite Hcopy4 by done.
    destruct (fs w !! (template ++ ["config"; name])) as [[fm fd|dm]|] eqn:Hentry.
    - right. simpl. destruct (text_extension _); by eauto.
    - by destruct (Hnd dm).
    - by left. }
  assert (Hdir5 : ∀ dir rel, dir ∈ pruned_dirs config → dir `prefix_of` rel →
            fs w5 !! (root ++ rel) = None).
  { intros dir rel Hin Hpre.
    destruct (cleanupFiles_dir_gone config w dir (root ++ rel) Hin) with (w1 := w4)
      as [_ Hgone]; [by apply prefix_app|done|done|done]. }
  (* the devcontainer *)
  destruct (tree (template ++ [".devcontainer"]) ".env.devcontainer") as [dm Hdev].
  { rewrite <-(assoc_L (++)). simpl. by rewrite env_file. }
  assert (Hdev5 : fs w5 !! (root ++ [".devcontainer"]) = Some (Dir (Z.ldiff dm (umask w)))).
  { rewrite Hkeep5, Hcopy4, Hdev by kept. done. }
  assert (Hcompose5 : ∀ m, fs w5 !! ((root ++ [".devcontainer"]) ++ ["docker-compose.yml"])
                           ≠ Some (Dir m)).
  { intros m. rewrite <-(assoc_L (++)).
    change ([".devcontainer"] ++ ["docker-compose.yml"])
      with [".devcontainer"; "docker-compose.yml"].
    rewrite Hkeep5, Hcopy4 by kept.
    destruct (fs w !! (template ++ [".devcontainer"; "docker-compose.yml"]))
      as [[fm fd|dm']|] eqn:Hcmp; [done|by destruct (compose_file dm')|done]. }
  destruct (WriteFile_in_dir (root ++ [".devcontainer"]) "docker-compose.yml"
              (generateDevcontainerDockerCompose config) 420 _ w5 Hdev5 Hcompose5)
    as [m6 Hwrite6].
  rewrite <-(assoc_L (++)) in Hwrite6.
  change ([".devcontainer"] ++ ["docker-compose.yml"])
    with [".devcontainer"; "docker-compose.yml"] in Hwrite6.
  set (w6 := set_fs <[root ++ [".devcontainer"; "docker-compose.yml"]
                      := File m6 (generateDevcontainerDockerCompose config)]> w5) in *.
  assert (Hgen : generateDevcontainer config w5 = (None, w6)).
  { unfold generateDevcontainer. rewrite run_bind, run_joined, Join_root, (Hr w5 Hc5).
    cbn [fst snd]. rewrite <-(assoc_L (++)). exact Hwrite6. }
  assert (Hc6 : cwd w6 = cwd w) by done.
  (* the configuration file *)
  assert (Hconfig6 : fs w6 !! (root ++ ["config"; "config.go"])
                     = Some (File (Z.ldiff 438 (umask w))
                               (ReplaceAll cdata oldModule (ModulePath config)))).
  { simpl. rewrite lookup_insert_ne by (by intros Heq%app_inv_head).
    rewrite Hkeep5, Hcopy4, config_file by kept. done. }
  pose proof (updateConfigFiles_run config w6 (Z.ldiff 438 (umask w))
                (ReplaceAll cdata oldModule (ModulePath config))) as Hcfg.
  cbv zeta in Hcfg. rewrite (Hr w6 Hc6) in Hcfg. specialize (Hcfg Hconfig6).
  match type of Hcfg with _ = (None, ?x) => set (w7 := x) in * end.
  assert (Hc7 : cwd w7 = cwd w) by done.
  (* the environment file *)
  assert (Henv7 : fs w7 !! (root ++ [".devcontainer"; ".env.devcontainer"])
                  = Some (File (Z.ldiff 438 (umask w)) edata)).
  { simpl. rewrite !lookup_insert_ne by (by intros Heq%app_inv_head).
    rewrite Hkeep5, Hcopy4, env_file by kept. done. }
  pose proof (updateEnvFiles_run config w7 (Z.ldiff 438 (umask w)) edata) as Henv.
  cbv zeta in Henv. rewrite (Hr w7 Hc7) in Henv. specialize (Henv Henv7).
  match type of Henv with _ = (None, ?x) => set (w8 := x) in * end.
  assert (Hlast : ∀ rel, rel ≠ [".devcontainer"; "docker-compose.yml"] →
            rel ≠ ["config"; "config.go"] →
            rel ≠ [".devcontainer"; ".env.devcontainer"] →
            fs w8 !! (root ++ rel) = fs w5 !! (root ++ rel)).
  { intros rel ? ? ?. simpl.
    by rewrite !lookup_insert_ne by (by intros Heq%app_inv_head). }
  exists w8. split.
  { unfold createProject.
    rewrite run_check, Hmk. cbn [fst snd].
    rewrite run_check, Hcp. cbn [fst snd].
    rewrite run_check, Hmod. cbn [fst snd].
    rewrite run_check, Hup. fold w4.
    rewrite run_check, Hclean. cbn [fst snd].
    rewrite run_check, Hgen. cbn [fst snd].
    rewrite run_check, Hcfg. cbn [fst snd].
    rewrite run_check, Henv. done. }
  split; [done|]. split; [|split; [|split; [|split; [|split; [|split]]]]].
  - exists gm. by rewrite Hlast, Hkeep5 by kept.
  - exists m6. simpl. rewrite !lookup_insert_ne by (by intros Heq%app_inv_head).
    by rewrite lookup_insert_eq.
  - simpl. by rewrite lookup_insert_eq.
  - simpl. rewrite lookup_insert_ne by (by intros Heq%app_inv_head).
    by rewrite lookup_insert_eq.
  - intros rel Hin Hnd.
    destruct (pruned_files_names config rel Hin) as (name & Hrel & Hname).
    rewrite Hlast; [by apply Hfile5|rewrite Hrel..]; [discriminate|congruence|discriminate].
  - intros dir rel Hin Hpre.
    destruct (pruned_dirs_names config dir Hin) as (name & Hdir).
    rewrite Hlast; [by apply (Hdir5 dir)|..];
      intros ->; destruct Hpre as [k Hk]; by subst.
  - intros rel Hrel Hgen' Hf Hd. unfold generated_files in Hgen'.
    rewrite !not_elem_of_cons in Hgen'. destruct Hgen' as (? & ? & ? & ? & _).
    rewrite Hlast, Hkeep5 by done. by apply Hcopy4.
Qed.

End made.

(** X15. When [createProject] succeeds, and what it leaves.  The file
    system is a tree; the template directory is there, with a file
    config/config.go and a file .devcontainer/.env.devcontainer, and with no
    directory at .gitignore, go.mod or .devcontainer/docker-compose.yml; the
    project directory is elsewhere, and is an empty directory or is missing
    in an existing directory.  Then [createProject] returns no error and
    leaves, in the project directory: go.mod with the module path; the
    compose document; the environment file of the template with the database
    name in place of PROJECT_DB_NAME; config.go of the template, rewritten
    for the module path, less the lines of unselected options; nothing at
    the files and below the directories [cleanupFiles] prunes; and at every
    other place the copy of the template's entry, rewritten for the module
    path when its name ends in .go or .mod. *)
Theorem createProject_succeeds `{Unicode, RangeOrder} (config : ProjectConfig)
    (w : World) (tmode emode cmode : Z) (edata cdata : string) :
  let template := cwd w ++ ["template"] in
  let root := project_root w config in
  ProjectPath config ≠ "" →
  well_formed (fs w) →
  fs w !! template = Some (Dir tmode) →
  ((∃ mode, fs w !! root = Some (Dir mode))
   ∨ (fs w !! root = None ∧ ∃ mode, fs w !! parent root = Some (Dir mode))) →
  (∀ rel, rel ≠ [] → fs w !! (root ++ rel) = None) →
  ¬ root `prefix_of` template →
  ¬ template `prefix_of` root →
  (∀ mode, fs w !! (template ++ [".gitignore"]) ≠ Some (Dir mode)) →
  (∀ mode, fs w !! (template ++ ["go.mod"]) ≠ Some (Dir mode)) →
  (∀ mode, fs w !! (template ++ [".devcontainer"; "docker-compose.yml"])
           ≠ Some (Dir mode)) →
  fs w !! (template ++ [".devcontainer"; ".env.devcontainer"]) = Some (File emode edata) →
  fs w !! (template ++ ["config"; "config.go"]) = Some (File cmode cdata) →
  ∃ w',
    createProject config w = (None, w') ∧ cwd w' = cwd w
    ∧ (∃ mode, fs w' !! (root ++ ["go.mod"])
               = Some (File mode (ReplaceAll (goModContent config) oldModule
                                    (ModulePath config))))
    ∧ (∃ mode, fs w' !! (root ++ [".devcontainer"; "docker-compose.yml"])
               = Some (File mode (generateDevcontainerDockerCompose config)))
    ∧ fs w' !! (root ++ [".devcontainer"; ".env.devcontainer"])
      = Some (File (Z.ldiff 438 (umask w))
                (ReplaceAll edata "PROJECT_DB_NAME" (sanitizeName (ProjectName config))))
    ∧ fs w' !! (root ++ ["config"; "config.go"])
      = Some (File (Z.ldiff 438 (umask w))
                (Strings.Join
                   (filter (λ line, mentions_none (unselected_options config) line)
                      (Split (ReplaceAll cdata oldModule (ModulePath config)) nl)) nl))
    ∧ (∀ rel, rel ∈ pruned_files config →
         (∀ mode, fs w !! (template ++ rel) ≠ Some (Dir mode)) →
         fs w' !! (root ++ rel) = None)
    ∧ (∀ dir rel, dir ∈ pruned_dirs config → dir `prefix_of` rel →
         fs w' !! (root ++ rel) = None)
    ∧ (∀ rel, rel ≠ [] → rel ∉ generated_files → rel ∉ pruned_files config →
         (∀ dir, dir ∈ pruned_dirs config → ¬ dir `prefix_of` rel) →
         fs w' !! (root ++ rel)
         = rewrite_entry config rel <$> copy_of (umask w) (fs w !! (template ++ rel))).
Proof.
  intros template root Hpath Htree Htemplate Hroot Hempty Hout Hin Hignore Hmod Hcompose
    Henv Hconfig.
  by eapply (createProject_made config w); eauto.
Qed.

(** The project of the starter template: made without error, with the
    database name in its environment file, the import of main.go rewritten
    and the repository of mongodb removed. *)
Lemma createProject_succeeds_starter :
  (@createProject bytewise in_order demo_config starter).1 = None
  ∧ fs starter_made !! ["out"; ".devcontainer"; ".env.devcontainer"]
    = Some (File 420 "DB_NAME=my_app")
  ∧ fs starter_made !! ["out"; "config"; "config.go"] = Some (File 420 "MysqlOption")
  ∧ fs starter_made !! ["out"; "main.go"]
    = Some (File 420 "import example.com/my-app/config")
  ∧ fs starter_made !! ["out"; "internal"; "repository"; "mongodb"; "user.go"] = None.
Proof.
  destruct (@createProject_succeeds bytewise in_order demo_config starter 493 420 420
              "DB_NAME=PROJECT_DB_NAME"
              ("MysqlOption" +:+ nl +:+ "MongodbOption" +:+ nl +:+ "RabbitMQOption"))
    as (w' & Hrun & _ & _ & _ & Henv & Hconfig & _ & Hdirs & Hrest).
  - discriminate.
  - apply well_formedb_spec. vm_compute. reflexivity.
  - vm_compute. reflexivity.
  - right. split; [vm_compute; reflexivity|]. exists 493%Z. vm_compute. reflexivity.
  - apply empty_below_spec. vm_compute. reflexivity.
  - intros [k Hk]. vm_compute in Hk. discriminate.
  - intros [k Hk]. vm_compute in Hk. discriminate.
  - intros mode Hm. vm_compute in Hm. discriminate.
  - intros mode Hm. vm_compute in Hm. discriminate.
  - intros mode Hm. vm_compute in Hm. discriminate.
  - vm_compute. reflexivity.
  - vm_compute. reflexivity.
  - unfold starter_made. rewrite Hrun. cbn [fst snd].
    split; [reflexivity|]. split; [vm_compute in Henv; exact Henv|].
    split; [vm_compute in Hconfig; exact Hconfig|]. split.
    + change ["out"; "main.go"] with (project_root starter demo_config ++ ["main.go"]).
      rewrite Hrest.
      * vm_compute. reflexivity.
      * discriminate.
      * unfold generated_files. rewrite !not_elem_of_cons.
        split_and!; [discriminate..|apply not_elem_of_nil].
      * intros (name & Heq & _)%pruned_files_names. discriminate.
      * intros dir (name & ->)%pruned_dirs_names [k Hk]. discriminate.
    + change ["out"; "internal"; "repository"; "mongodb"; "user.go"]
        with (project_root starter demo_config
              ++ ["internal"; "repository"; "mongodb"; "user.go"]).
      apply (Hdirs ["internal"; "repository"; "mongodb"]).
      * apply elem_of_pruned_dirs. right.
        split; [reflexivity|intros Hdb; vm_compute in Hdb; discriminate].
      * by eexists.
Defined.

(** ** A refusal the confirmation never reads *)

Section one_read.
Context `{Unicode}.

Lemma fill_line_end (buf : string) : (fill_line buf []).2 = [].
Proof. simpl. by destruct (cut_line buf) as [[line rest]|]. Qed.

Lemma ReadString_takes_all (w : World) (r : nat) :
  triple (λ w1, only_read w w1 ∧ one_read_left r w1) (ReadString r)
    (λ _ w1, only_read w w1 ∧ stdin w1 = []).
Proof.
  intros w1 [Hread Hleft]. unfold ReadString.
  assert (Hchunks : (fill_line (default "" (readers w1 !! r)) (stdin w1)).2 = []).
  { destruct Hleft as [-> | [Hlen ->]]; [apply fill_line_end|].
    destruct (stdin w1) as [|text [|more chunks]]; [apply fill_line_end| |simpl in Hlen; lia].
    change (fill_line "" [text]) with (fill_line ("" +:+ text) []).
    apply fill_line_end. }
  destruct (fill_line _ _) as [[[line e] rest] chunks]. simpl in *. by subst.
Qed.

Lemma promptString_takes_all (w : World) (fuel r : nat) (prompt defaultValue : string) :
  triple (λ w1, only_read w w1 ∧ one_read_left r w1)
    (promptString fuel r prompt defaultValue)
    (λ _ w1, only_read w w1 ∧ stdin w1 = []).
Proof.
  induction fuel as [|fuel IH]; simpl;
    (eapply triple_bind; [apply ReadString_takes_all|]); intros [line e];
    repeat case_bool_decide; simpl; try by intros ??.
  eapply triple_weaken; [apply IH| |done]. intros w1 [Hread Hend]. split; [done|by left].
Qed.

Lemma promptChoice_takes_all (w : World) (fuel r : nat) (prompt : string)
    (valid : list string) (defaultChoice : string) :
  triple (λ w1, only_read w w1 ∧ one_read_left r w1)
    (promptChoice fuel r prompt valid defaultChoice)
    (λ _ w1, only_read w w1 ∧ stdin w1 = []).
Proof.
  induction fuel as [|fuel IH]; simpl;
    (eapply triple_bind; [apply ReadString_takes_all|]); intros [line e];
    case_bool_decide; try (by intros ??);
    destruct (existsb _ valid); try (by intros ??).
  eapply triple_weaken; [apply IH| |done]. intros w1 [Hread Hend]. split; [done|by left].
Qed.

Lemma promptBool_takes_all (w : World) (r : nat) (prompt : string) :
  triple (λ w1, only_read w w1 ∧ one_read_left r w1) (promptBool r prompt)
    (λ _ w1, only_read w w1 ∧ stdin w1 = []).
Proof.
  unfold promptBool. eapply triple_bind; [apply ReadString_takes_all|].
  intros [line e]. by intros ??.
Qed.

(** When the input arrives in one read, the reader of
    [collectConfiguration] takes it all. *)
Lemma collectConfiguration_takes_all (fuel : nat) (w : World) :
  length (stdin w) ≤ 1 →
  only_read w (collectConfiguration fuel w).2 ∧ stdin (collectConfiguration fuel w).2 = [].
Proof.
  intros Hlen.
  pose (D := λ w1, only_read w w1 ∧ stdin w1 = []).
  assert (Hagain : ∀ r w1, D w1 → only_read w w1 ∧ one_read_left r w1).
  { intros r w1 [Hread Hend]. split; [done|by left]. }
  assert (Hrun : triple (λ w1, w1 = w) (collectConfiguration fuel) (λ _, D)); [|by apply Hrun].
  unfold collectConfiguration.
  eapply (triple_bind _ (λ r w1, only_read w w1 ∧ one_read_left r w1)).
  { intros w1 ->. unfold NewReader. simpl. split; [done|]. right. split; [done|].
    simpl. rewrite lookup_app_r, Nat.sub_diag by done. done. }
  intros r. unfold and_then at 1.
  eapply triple_bind; [apply promptString_takes_all|].
  intros [name|]; [|by intros ??].
  do 2 (apply triple_and_then;
        [eapply triple_weaken; [apply promptString_takes_all|apply Hagain|done]|];
        intros ?).
  apply triple_and_then;
    [eapply triple_weaken; [apply promptChoice_takes_all|apply Hagain|done]|]; intros ?.
  do 2 (eapply (triple_bind D (λ _, D));
        [eapply triple_weaken; [apply promptBool_takes_all|apply Hagain|done]|];
        intros ?).
  by intros ??.
Qed.

(** At the end of the input [confirm] accepts. *)
Lemma confirm_at_end (prompt : string) (w1 : World) :
  stdin w1 = [] →
  (confirm prompt w1).1 = true ∧ only_read w1 (confirm prompt w1).2.
Proof.
  intros Hend. split.
  - rewrite confirm_answer. cbv zeta.
    assert ((ReadString (length (readers w1)) (NewReader w1).2).1.1 = "") as ->; [|done].
    unfold ReadString, NewReader. simpl.
    rewrite Hend, lookup_app_r, Nat.sub_diag by done. done.
  - unfold confirm. rewrite run_bind. cbn [NewReader fst snd]. rewrite run_bind.
    unfold ReadString. by destruct (fill_line _ _) as [[[line e] rest] chunks].
Qed.

End one_read.

Section kept_directory.
Context `{Unicode, RangeOrder}.

Local Arguments Z.ldiff : simpl never.

Variables (config : ProjectConfig) (c root : path) (mode : Z).

Hypothesis root_of : ∀ w1, cwd w1 = c → project_root w1 config = root.

(** The project directory is there. *)
Let K : World → Prop := λ w1, cwd w1 = c ∧ fs w1 !! root = Some (Dir mode).

Lemma keeps_of_leaves {A} (m : IO A) (p : path) :
  leaves (λ q, q ≠ p) (λ w, (m w).2) →
  (∀ w1 dm, fs w1 !! p = Some (Dir dm) → (m w1).2 = w1) →
  triple K m (λ _, K).
Proof.
  intros Hleaves Hdir w1 [Hc Hr]. destruct (decide (p = root)) as [->|Hne].
  - by rewrite (Hdir w1 mode Hr).
  - destruct (Hleaves w1) as [Hc' Hq]. simpl in *. split; [congruence|].
    rewrite Hq; done.
Qed.

Lemma keeps_same {A} (m : IO A) : (∀ w, (m w).2 = w) → triple K m (λ _, K).
Proof. intros Hm w1 Hw1. by rewrite Hm. Qed.

Lemma keeps_checked (step k : IO (option error)) (wrap : error → error) :
  triple K step (λ _, K) → triple K k (λ _, K) →
  triple K (check step wrap k) (λ _, K).
Proof.
  intros Hstep Hk. unfold check. eapply triple_bind; [done|].
  intros [e|]; [by intros ??|done].
Qed.

Lemma WriteFile_keeps (p : path) (data : string) (perm : Z) :
  triple K (WriteFile p data perm) (λ _, K).
Proof.
  apply (keeps_of_leaves _ p); [apply WriteFile_leaves|].
  intros w1 dm Hp. unfold WriteFile. rewrite run_check. unfold create_trunc.
  by rewrite Hp.
Qed.

Lemma copyFile_keeps (src dst : path) : triple K (copyFile src dst) (λ _, K).
Proof.
  apply (keeps_of_leaves _ dst); [apply copyFile_leaves|].
  intros w1 dm Hp. unfold copyFile. rewrite run_check, Open_same.
  destruct (Open src w1).1; [done|]. rewrite run_check. unfold Create, create_trunc.
  by rewrite Hp.
Qed.

Lemma MkdirAll_keeps (p : path) (perm : Z) : triple K (MkdirAll p perm) (λ _, K).
Proof.
  intros w1 [Hc Hr]. unfold MkdirAll.
  destruct (mkdir_all_makes (reverse p) perm w1) as [Hc' Hq]. split; [congruence|].
  destruct (Hq root) as [->|(Hnone & _)]; [done|congruence].
Qed.

Lemma MkdirAll_name_keeps (name : string) (perm : Z) :
  triple K (MkdirAll_name name perm) (λ _, K).
Proof.
  intros w1 Hw1. unfold MkdirAll_name.
  destruct (resolve w1 name); [by apply MkdirAll_keeps|done].
Qed.

Lemma copyTemplate_keeps : triple K (copyTemplate config) (λ _, K).
Proof.
  unfold copyTemplate.
  eapply (triple_bind K (λ _, K)); [by intros ??|]. intros template.
  eapply (triple_bind K (λ _, K)).
  - apply triple_Walk. intros p info [e|]; [by intros ??|].
    case_bool_decide; [by intros ??|].
    destruct (Rel template p) as [rel [e|]]; [by intros ??|].
    eapply (triple_bind K (λ _, K)); [by intros ??|]. intros dst.
    destruct (IsDir info); [apply MkdirAll_keeps|apply copyFile_keeps].
  - intros [e|]; [by intros ??|].
    eapply (triple_bind K (λ _, K)); [by intros ??|]. intros src.
    eapply (triple_bind K (λ _, K)); [by intros ??|]. intros dst.
    eapply (triple_bind K (λ _, K)); [by intros ??|].
    intros [info|]; [|by intros ??]. apply copyFile_keeps.
Qed.

Lemma createGoMod_keeps : triple K (createGoMod config) (λ _, K).
Proof.
  unfold createGoMod. cbv zeta.
  eapply (triple_bind K (λ _, K)); [by intros ??|]. intros p. apply WriteFile_keeps.
Qed.

Lemma updateModulePaths_keeps : triple K (updateModulePaths config) (λ _, K).
Proof.
  unfold updateModulePaths. apply triple_Walk. intros p info err.
  destruct (bool_decide (err ≠ None) || IsDir info); [by intros ??|].
  destruct (_ && _); [by intros ??|].
  eapply (triple_bind K (λ _, K)); [apply keeps_same, ReadFile_same|].
  intros [content [e|]]; [by intros ??|]. apply WriteFile_keeps.
Qed.

Lemma cleanupFiles_keeps_root : triple K (cleanupFiles config) (λ _, K).
Proof.
  intros w1 [Hc Hr]. split.
  - destruct (cleanupFiles_only_removes config w1) as [Hc' _]. simpl in Hc'. congruence.
  - rewrite cleanupFiles_keeps; [done|..]; rewrite (root_of w1 Hc).
    + intros rel (name & -> & _)%pruned_files_names Heq.
      apply (f_equal length) in Heq. rewrite length_app in Heq. simpl in Heq. lia.
    + intros dir (name & ->)%pruned_dirs_names [k Hk].
      apply (f_equal length) in Hk. rewrite !length_app in Hk. simpl in Hk. lia.
Qed.

Lemma generateDevcontainer_keeps : triple K (generateDevcontainer config) (λ _, K).
Proof.
  unfold generateDevcontainer. cbv zeta.
  eapply (triple_bind K (λ _, K)); [by intros ??|]. intros p. apply WriteFile_keeps.
Qed.

Lemma updateConfigFiles_keeps : triple K (updateConfigFiles config) (λ _, K).
Proof.
  unfold updateConfigFiles.
  eapply (triple_bind K (λ _, K)); [by intros ??|]. intros p.
  eapply (triple_bind K (λ _, K)); [apply keeps_same, ReadFile_same|].
  intros [content [e|]]; [by intros ??|]. cbv zeta. apply WriteFile_keeps.
Qed.

Lemma updateEnvFiles_keeps : triple K (updateEnvFiles config) (λ _, K).
Proof.
  unfold updateEnvFiles.
  eapply (triple_bind K (λ _, K)); [by intros ??|]. intros p.
  eapply (triple_bind K (λ _, K)); [apply keeps_same, ReadFile_same|].
  intros [content [e|]]; [by intros ??|]. cbv zeta. apply WriteFile_keeps.
Qed.

(** No step of [createProject] removes the project directory or puts
    something else in its place. *)
Lemma createProject_keeps_directory : triple K (createProject config) (λ _, K).
Proof.
  unfold createProject.
  apply keeps_checked; [apply MkdirAll_name_keeps|].
  apply keeps_checked; [apply copyTemplate_keeps|].
  apply keeps_checked; [apply createGoMod_keeps|].
  apply keeps_checked; [apply updateModulePaths_keeps|].
  apply keeps_checked; [apply cleanupFiles_keeps_root|].
  apply keeps_checked; [apply generateDevcontainer_keeps|].
  apply keeps_checked; [apply updateConfigFiles_keeps|].
  apply keeps_checked; [apply updateEnvFiles_keeps|].
  by intros ??.
Qed.

End kept_directory.

Section made_directory.
Context `{Unicode, RangeOrder}.

Local Arguments Z.ldiff : simpl never.

(** [createProject] makes a project directory that is missing in an
    existing directory, and leaves it there however it ends. *)
Lemma createProject_makes_directory (config : ProjectConfig) (w : World) (dmode : Z) :
  ProjectPath config ≠ "" →
  fs w !! project_root w config = None →
  fs w !! parent (project_root w config) = Some (Dir dmode) →
  fs (createProject config w).2 !! project_root w config
  = Some (Dir (Z.ldiff 493 (umask w))).
Proof.
  intros Hpath Hnone Hparent.
  set (root := project_root w config) in *.
  destruct (decide (root = [])) as [Hnil|Hne].
  { rewrite Hnil in *. unfold parent in Hparent. simpl in Hparent. congruence. }
  destruct (exists_last Hne) as (p & name & Heq).
  set (made := Dir (Z.ldiff 493 (umask w))).
  set (w1 := set_fs <[root := made]> w).
  assert (Hsame : createProject config w = createProject config w1).
  { unfold createProject. rewrite (run_check _ _ _ w), (run_check _ _ _ w1).
    unfold MkdirAll_name. rewrite !resolve_project by done.
    change (project_root w1 config) with root. fold root.
    assert (Hfirst : MkdirAll root 493 w = (None, w1)).
    { unfold w1, made. rewrite Heq in *. rewrite parent_snoc in Hparent.
      by eapply MkdirAll_fresh. }
    assert (Hagain : MkdirAll root 493 w1 = (None, w1)).
    { unfold MkdirAll. apply (mkdir_all_dir _ 493 (Z.ldiff 493 (umask w))).
      rewrite reverse_involutive. simpl. by rewrite lookup_insert_eq. }
    by rewrite Hfirst, Hagain. }
  rewrite Hsame.
  apply (createProject_keeps_directory config (cwd w) root (Z.ldiff 493 (umask w))).
  - intros w2 Hc. unfold root, project_root. by apply Join_cwd.
  - split; [done|]. simpl. by rewrite lookup_insert_eq.
Qed.

End made_directory.

(** C5. The refusal is lost when it arrives with an earlier answer.  The
    confirmation reads through a reader of its own, and the reader of
    [collectConfiguration] has taken all that its reads returned.  So when
    the whole input arrives in one read, as from a pipe or a file, then
    whatever it holds, an n for the confirmation too, the confirmation
    finds the end of the input and accepts it: the run never ends
    cancelled, it is [createProject] run on the configuration read, with
    the files as they were.  A project directory that is missing in an
    existing directory is made, and is there when the run ends. *)
Theorem main_ignores_refusal_in_one_read `{Unicode, RangeOrder} (fuel : nat) (w : World)
    (text : string) :
  stdin w = [text] → String.length text ≤ fuel →
  ∃ config w2,
    (collectConfiguration fuel w).1 = Some config
    ∧ fs w2 = fs w ∧ cwd w2 = cwd w ∧ umask w2 = umask w
    ∧ main fuel w
      = (Some (match (createProject config w2).1 with
               | Some e => Failed e
               | None => Created
               end),
         (createProject config w2).2)
    ∧ (main fuel w).1 ≠ Some Cancelled
    ∧ (∀ dmode,
         fs w !! project_root w config = None →
         fs w !! parent (project_root w config) = Some (Dir dmode) →
         fs (main fuel w).2 !! project_root w config
         = Some (Dir (Z.ldiff 493 (umask w)))).
Proof.
  intros Hin Hfuel.
  destruct (collectConfiguration_returns fuel w) as (config & w1 & Hcollect & _).
  { rewrite Hin. simpl. lia. }
  destruct (collectConfiguration_takes_all fuel w) as [(Hfs1 & Hc1 & Hu1) Hend].
  { by rewrite Hin. }
  rewrite Hcollect in Hfs1, Hc1, Hu1, Hend. cbn [snd] in *.
  destruct (confirm_at_end "Create project?" w1 Hend) as [Hyes (Hfs2 & Hc2 & Hu2)].
  set (w2 := (confirm "Create project?" w1).2) in *.
  assert (Hmain : main fuel w
                  = (Some (match (createProject config w2).1 with
                           | Some e => Failed e
                           | None => Created
                           end),
                     (createProject config w2).2)).
  { unfold main, and_then. rewrite run_bind, Hcollect. cbn [fst snd].
    rewrite run_bind. fold w2. rewrite Hyes. cbn [negb]. rewrite run_bind.
    by destruct (createProject config w2).1. }
  exists config, w2. split; [by rewrite Hcollect|].
  split; [congruence|]. split; [congruence|]. split; [congruence|].
  split; [done|]. split.
  - rewrite Hmain. by destruct (createProject config w2).1.
  - intros dmode Hnone Hparent. rewrite Hmain. cbn [snd].
    assert (Hroot : project_root w2 config = project_root w config).
    { unfold project_root. apply Join_cwd. congruence. }
    assert (Humask : umask w2 = umask w) by congruence.
    rewrite <-Hroot, <-Humask.
    apply (createProject_makes_directory config w2 dmode).
    + by eapply collectConfiguration_fields.
    + rewrite Hroot. congruence.
    + rewrite Hroot. congruence.
Qed.

(** The refusal that arrives in one read with the six answers before it.
    The reader of [collectConfiguration] is left holding it; the run does
    not end cancelled: it fails, at the devcontainer the template lacks,
    after it has made the project directory, which was not there. *)
Lemma main_ignores_refusal_in_one_read_piped :
  readers (@collectConfiguration bytewise 8 piped).2 = ["n" +:+ nl]
  ∧ (@main bytewise in_order 8 piped).1 ≠ Some Cancelled
  ∧ (@main bytewise in_order 8 piped).1
    = Some (Failed (Wrapped "failed to generate devcontainer" ENOENT))
  ∧ fs piped !! ["my-go-api"] = None
  ∧ fs (@main bytewise in_order 8 piped).2 !! ["my-go-api"] = Some (Dir 493).
Proof.
  destruct (@main_ignores_refusal_in_one_read bytewise in_order 8 piped
              (nl +:+ nl +:+ nl +:+ nl +:+ nl +:+ nl +:+ "n" +:+ nl))
    as (config & w2 & Hcollect & _ & _ & _ & _ & Hnot & Hmade).
  - reflexivity.
  - vm_compute. lia.
  - split; [vm_compute; reflexivity|]. split; [exact Hnot|].
    split; [vm_compute; reflexivity|]. split; [vm_compute; reflexivity|].
    vm_compute in Hcollect. injection Hcollect as <-.
    apply (Hmade 493%Z); vm_compute; reflexivity.
Defined.
